(** * Quantization rewriter of praxis: a shallow embedding

    The development follows [praxis/layers/quantization/quantize.py].  Config
    templates are mutable Python objects that may be shared; they live in a
    store addressed by reference, and every rewriting function is a
    computation over that store which either returns or raises, keeping the
    mutations made before the exception. *)

From Stdlib Require Import ZArith String Ascii List Lia Bool.
From stdpp Require Import base list option strings.

Import ListNotations.
Set Warnings "-register-all".

(** ** Python classes *)

(** A class object: its qualified name (its identity), its [__name__] and the
    qualified names of its proper ancestors (the tail of [__mro__]). *)
Record pyclass := {
  qualname : string;
  cls_name : string;
  bases : list string;
}.

Definition issubclass (c target : pyclass) : bool :=
  existsb (String.eqb (qualname target)) (qualname c :: bases c).

(** [needle in hay] on Python strings. *)
Fixpoint str_contains (needle hay : string) : bool :=
  String.prefix needle hay
  || match hay with
     | EmptyString => false
     | String _ rest => str_contains needle rest
     end.

(** [f'{cls}'] *)
Definition class_repr (c : pyclass) : string :=
  "<class '" +:+ qualname c +:+ "'>".

(** The classes of [praxis.layers] and [praxis.layers.quantization] that
    [quantize.py] names.  Their declarations are outside this file; a class is
    represented by its names, and the ancestry of these particular classes is
    left empty: no definition below inspects the ancestors of a class it
    installs, only those of classes found in the configuration. *)
Definition praxis_class (module name : string) : pyclass :=
  {| qualname := module +:+ "." +:+ name; cls_name := name; bases := [] |}.

Definition layers_SharedEmbeddingSoftmax :=
  praxis_class "praxis.layers" "SharedEmbeddingSoftmax".
Definition layers_TransformerLm :=
  praxis_class "praxis.layers" "TransformerLm".
Definition layers_ngrammer_Ngrammer :=
  praxis_class "praxis.layers.ngrammer" "Ngrammer".
Definition layers_ngrammer_VQNgrammer :=
  praxis_class "praxis.layers.ngrammer" "VQNgrammer".
Definition layers_attentions_DotProductAttention :=
  praxis_class "praxis.layers.attentions" "DotProductAttention".
Definition layers_transformers_Transformer :=
  praxis_class "praxis.layers.transformers" "Transformer".

Definition quantization_NClassMajorSharedEmbeddingSoftmax :=
  praxis_class "praxis.layers.quantization" "NClassMajorSharedEmbeddingSoftmax".
Definition quantization_SharedEmbeddingSoftmax :=
  praxis_class "praxis.layers.quantization" "SharedEmbeddingSoftmax".
Definition quantization_Ngrammer :=
  praxis_class "praxis.layers.quantization" "Ngrammer".
Definition quantization_VQNgrammer :=
  praxis_class "praxis.layers.quantization" "VQNgrammer".
Definition quantization_attentions_AttentionProjection :=
  praxis_class "praxis.layers.quantization.attentions" "AttentionProjection".
(** [quantization.AttentionProjection] is the package-level name of the class
    above. *)
Definition quantization_AttentionProjection :=
  quantization_attentions_AttentionProjection.
Definition quantization_attentions_CombinedQKVProjectionLayer :=
  praxis_class "praxis.layers.quantization.attentions"
    "CombinedQKVProjectionLayer".
Definition quantization_multi_query_attention_OneHeadedAttentionProjection :=
  praxis_class "praxis.layers.quantization.multi_query_attention"
    "OneHeadedAttentionProjection".
Definition quantization_Linear :=
  praxis_class "praxis.layers.quantization" "Linear".
Definition quantization_Conv2D :=
  praxis_class "praxis.layers.quantization" "Conv2D".

(** ** Quantization hyper-parameters *)

Inductive QuantizationType := PTQ | FQ | AQT.
Inductive QuantizationMode := TRAINING | INFERENCE | MATERIALIZE.
Inductive jnp_dtype := jnp_int8 | jnp_int32 | jnp_other (name : string).

(** A keyword the caller leaves out keeps the default of the dataclass, which
    is declared in [quantization_hparams]; [None] records that the keyword was
    not passed. *)
Module WeightQuantizationParams.
Record t := {
  precision : Z;
  use_symmetric : bool;
  dtype : jnp_dtype;
  block_size : option Z;
  use_int4_packed_weights : option bool;
  int4_packed_weights_container_dtype : option jnp_dtype;
}.
End WeightQuantizationParams.

Module ActQuantizationParams.
Record t := { precision : Z }.
End ActQuantizationParams.

(** Modelled from the spec: the [QuantizationParams] dataclass is declared in
    [quantization_hparams], which is not part of the sources at hand; its
    activation parameters are optional ("present if and only if ...") and a
    constructor call that omits [act_params] leaves them absent. *)
Record QuantizationParams := {
  quantization_type : QuantizationType;
  mode : QuantizationMode;
  act_params : option ActQuantizationParams.t;
  weight_params : option WeightQuantizationParams.t;
}.

(** ** Config templates and the store *)

(** References to templates and to [QuantizationParams] objects: positions in
    the store. *)
Abbreviation ref := nat.
Abbreviation qref := nat.

(** Argument values of a template. *)
Inductive value :=
| VNone
| VBool (b : bool)
| VInt (n : Z)
| VStr (s : string)
| VCfg (r : ref)
| VSeq (l : list value)
| VDict (d : list (string * value)).

(** A [pax_fiddle.Config]: the target class, the [quantization] argument (a
    reference to a mutable [QuantizationParams] object) and the other
    arguments in [fdl.ordered_arguments] order. *)
Record config := {
  cls : pyclass;
  quantization : option qref;
  args : list (string * value);
}.

Record store := {
  cfgs : list config;
  quants : list QuantizationParams;
}.

Fixpoint assoc (name : string) (l : list (string * value)) : option value :=
  match l with
  | [] => None
  | (k, v) :: l' => if String.eqb k name then Some v else assoc name l'
  end.

(** Assignment to an argument: replaces the binding in place, or adds it. *)
Fixpoint assoc_set (name : string) (x : value) (l : list (string * value))
  : list (string * value) :=
  match l with
  | [] => [(name, x)]
  | (k, v) :: l' =>
      if String.eqb k name then (k, x) :: l' else (k, v) :: assoc_set name x l'
  end.

(** ** Computations that may raise *)

Inductive exn :=
| ValueError (msg : string)
| AttributeError (attr : string)
| AssertionError.

Inductive outcome (A : Type) :=
| Ok (a : A)
| Raise (e : exn).
Arguments Ok {A} a.
Arguments Raise {A} e.

(** The store is returned in both cases: what was mutated before an exception
    stays mutated. *)
Definition M (A : Type) : Type := store -> outcome A * store.

Definition ret {A} (a : A) : M A := fun s => (Ok a, s).
Definition raise {A} (e : exn) : M A := fun s => (Raise e, s).
Definition bind {A B} (m : M A) (k : A -> M B) : M B :=
  fun s =>
    match m s with
    | (Ok a, s') => k a s'
    | (Raise e, s') => (Raise e, s')
    end.

Notation "'let*' x ':=' e 'in' k" := (bind e (fun x => k))
  (at level 10, x name, e at level 100, k at level 200).
Notation "e1 ';;;' e2" := (bind e1 (fun _ => e2))
  (at level 100, e2 at level 200, right associativity).

(** [for x in xs: body(x)] *)
Fixpoint for_each {A} (xs : list A) (body : A -> M unit) : M unit :=
  match xs with
  | [] => ret tt
  | x :: xs' => body x ;;; for_each xs' body
  end.

(** [when b: body] *)
Definition when (b : bool) (body : M unit) : M unit :=
  if b then body else ret tt.

(** [tpl.name] on a value: a template yields the argument when it is set. *)
Definition getattr (tpl : value) (name : string) : M value :=
  fun s =>
    match tpl with
    | VCfg r =>
        match cfgs s !! r with
        | Some c =>
            match assoc name (args c) with
            | Some v => (Ok v, s)
            | None => (Raise (AttributeError name), s)
            end
        | None => (Raise (AttributeError name), s)
        end
    | _ => (Raise (AttributeError name), s)
    end.

(** [hasattr(tpl, name)] *)
Definition hasattr (tpl : value) (name : string) : M bool :=
  fun s =>
    match getattr tpl name s with
    | (Ok _, _) => (Ok true, s)
    | (Raise _, _) => (Ok false, s)
    end.

(** [tpl.cls] *)
Definition get_cls (tpl : value) : M pyclass :=
  fun s =>
    match tpl with
    | VCfg r =>
        match cfgs s !! r with
        | Some c => (Ok (cls c), s)
        | None => (Raise (AttributeError "cls"), s)
        end
    | _ => (Raise (AttributeError "cls"), s)
    end.

Definition set_arg (name : string) (x : value) (c : config) : config :=
  {| cls := cls c; quantization := quantization c;
     args := assoc_set name x (args c) |}.

(** [tpl.name = x] *)
Definition setattr (tpl : value) (name : string) (x : value) : M unit :=
  fun s =>
    match tpl with
    | VCfg r =>
        match cfgs s !! r with
        | Some c =>
            (Ok tt, {| cfgs := <[r := set_arg name x c]> (cfgs s);
                       quants := quants s |})
        | None => (Raise (AttributeError name), s)
        end
    | _ => (Raise (AttributeError name), s)
    end.

(** [QuantizationParams(...)]: a new object. *)
Definition new_QuantizationParams (qp : QuantizationParams) : M qref :=
  fun s =>
    (Ok (length (quants s)),
     {| cfgs := cfgs s; quants := quants s ++ [qp] |}).

(** [pax_fiddle.Config(cls, quantization=q, **kwargs)]: a new template. *)
Definition pax_fiddle_Config (c : pyclass) (q : qref)
    (kwargs : list (string * value)) : M value :=
  fun s =>
    (Ok (VCfg (length (cfgs s))),
     {| cfgs := cfgs s ++ [{| cls := c; quantization := Some q;
                               args := kwargs |}];
        quants := quants s |}).

(** Modelled from the spec: [pax_fiddle.Config.copy_fields_from] is defined in
    [pax_fiddle], which is not part of the sources at hand.  "Any
    structurally-compatible fields already set on the original child template
    are copied onto the new quantized template; fields special to quantization
    are not copied": for every argument name set on the source, the receiver
    is assigned the source's value. *)
Definition copy_args (src dst : list (string * value))
  : list (string * value) :=
  fold_left
    (fun acc name =>
       match assoc name src with
       | Some v => assoc_set name v acc
       | None => acc
       end)
    (map fst src) dst.

(** Modelled from the spec: the receiver of [copy_fields_from] keeps its
    class and its own [quantization] argument. *)
Definition copy_fields (src : list (string * value)) (c : config) : config :=
  {| cls := cls c; quantization := quantization c;
     args := copy_args src (args c) |}.

(** Modelled from the spec: [self.copy_fields_from(source)], on two
    templates. *)
Definition copy_fields_from (self source : value) : M unit :=
  fun s =>
    match self, source with
    | VCfg r, VCfg r0 =>
        match cfgs s !! r, cfgs s !! r0 with
        | Some c, Some c0 =>
            (Ok tt, {| cfgs := <[r := copy_fields (args c0) c]> (cfgs s);
                       quants := quants s |})
        | _, _ => (Raise (AttributeError "copy_fields_from"), s)
        end
    | _, _ => (Raise (AttributeError "copy_fields_from"), s)
    end.

(** ** The rewriting functions of [quantize.py] *)

Section Rewriter.

(** [utils.find_target_tpl(config, target)] is defined in a module that is
    not part of the sources at hand; the rewriter is parametric in it.  It
    reads the templates and returns the matched ones. *)
Variable find_target_tpl : list config -> value -> pyclass -> list value.

Definition _quantize_embedding_softmax_layer_weights
    (lm_tpl : value)
    (quantization_type : QuantizationType) (mode : QuantizationMode)
    (weight_quantization_params : WeightQuantizationParams.t)
    (transposed_embedding_softmax : bool) : M unit :=
  let* softmax_tpl := getattr lm_tpl "softmax_tpl" in
  let* softmax_cls := get_cls softmax_tpl in
  if issubclass softmax_cls layers_SharedEmbeddingSoftmax then
    let* new_softmax_tpl :=
      if transposed_embedding_softmax then
        let* q := new_QuantizationParams
          {| quantization_type := quantization_type; mode := mode;
             act_params := None;
             weight_params := Some weight_quantization_params |} in
        pax_fiddle_Config quantization_NClassMajorSharedEmbeddingSoftmax q []
      else
        let* q := new_QuantizationParams
          {| quantization_type := quantization_type; mode := mode;
             act_params := None;
             weight_params := Some weight_quantization_params |} in
        pax_fiddle_Config quantization_SharedEmbeddingSoftmax q [] in
    let* old_softmax_tpl := getattr lm_tpl "softmax_tpl" in
    copy_fields_from new_softmax_tpl old_softmax_tpl ;;;
    setattr lm_tpl "softmax_tpl" new_softmax_tpl
  else
    raise (ValueError ("lm_tpl.softmax_tpl.cls is : "
                       +:+ class_repr softmax_cls
                       +:+ "but has to be layers.SharedEmbeddingSoftmax")).

Definition _quantize_ngrammer_embedding_weights
    (lm_tpl : value)
    (quantization_type : QuantizationType) (mode : QuantizationMode)
    (weight_quantization_params : WeightQuantizationParams.t) : M unit :=
  let* ngrammer_tpl := getattr lm_tpl "ngrammer_tpl" in
  match ngrammer_tpl with
  | VNone => ret tt
  | _ =>
      let* ngrammer_cls := get_cls ngrammer_tpl in
      let install (new_ngrammer_cls : pyclass) : M unit :=
        let* q := new_QuantizationParams
          {| quantization_type := quantization_type; mode := mode;
             act_params := None;
             weight_params := Some weight_quantization_params |} in
        let* new_ngrammer_tpl := pax_fiddle_Config new_ngrammer_cls q [] in
        let* old_ngrammer_tpl := getattr lm_tpl "ngrammer_tpl" in
        copy_fields_from new_ngrammer_tpl old_ngrammer_tpl ;;;
        setattr lm_tpl "ngrammer_tpl" new_ngrammer_tpl in
      if issubclass ngrammer_cls layers_ngrammer_Ngrammer then
        install quantization_Ngrammer
      else if issubclass ngrammer_cls layers_ngrammer_VQNgrammer then
        install quantization_VQNgrammer
      else ret tt
  end.

Definition quantize_dot_product_attention_layer_weights
    (attn_tpl : value)
    (quantization_type : QuantizationType) (mode : QuantizationMode)
    (weight_quantization_params : WeightQuantizationParams.t)
    (act_quantization_params : option ActQuantizationParams.t) : M unit :=
  let* q := new_QuantizationParams
    {| quantization_type := quantization_type; mode := mode;
       act_params := act_quantization_params;
       weight_params := Some weight_quantization_params |} in
  let* proj := pax_fiddle_Config quantization_AttentionProjection q [] in
  setattr attn_tpl "proj_tpl" proj ;;;
  let* q' := new_QuantizationParams
    {| quantization_type := quantization_type; mode := mode;
       act_params := act_quantization_params;
       weight_params := Some weight_quantization_params |} in
  let* qkv :=
    pax_fiddle_Config quantization_attentions_CombinedQKVProjectionLayer
      q' [] in
  setattr attn_tpl "combined_qkv_proj_tpl" qkv.

Definition quantize_mq_dot_product_attention_layer_weights
    (attn_tpl : value)
    (quantization_type : QuantizationType) (mode : QuantizationMode)
    (weight_quantization_params : WeightQuantizationParams.t)
    (act_quantization_params : option ActQuantizationParams.t) : M unit :=
  let* q := new_QuantizationParams
    {| quantization_type := quantization_type; mode := mode;
       act_params := act_quantization_params;
       weight_params := Some weight_quantization_params |} in
  let* proj :=
    pax_fiddle_Config quantization_attentions_AttentionProjection q [] in
  setattr attn_tpl "proj_tpl" proj ;;;
  let* q' := new_QuantizationParams
    {| quantization_type := quantization_type; mode := mode;
       act_params := act_quantization_params;
       weight_params := Some weight_quantization_params |} in
  let* headless :=
    pax_fiddle_Config
      quantization_multi_query_attention_OneHeadedAttentionProjection
      q' [] in
  setattr attn_tpl "headless_proj_tpl" headless.

Definition unsupported_attention (c : pyclass) : exn :=
  ValueError ("tr_tpl.tr_atten_tpl.cls is : " +:+ class_repr c
    +:+ "but has to be DotProductAttention or MultiQueryDotProductAttention").

Definition quantize_attention_layer_weights
    (tr_tpl : value)
    (quantization_type : QuantizationType) (mode : QuantizationMode)
    (weight_quantization_params : WeightQuantizationParams.t)
    (act_quantization_params : option ActQuantizationParams.t) : M unit :=
  let* tr_atten_tpl := getattr tr_tpl "tr_atten_tpl" in
  let* atten_cls := get_cls tr_atten_tpl in
  if issubclass atten_cls layers_attentions_DotProductAttention then
    let* tr_atten_tpl := getattr tr_tpl "tr_atten_tpl" in
    quantize_dot_product_attention_layer_weights tr_atten_tpl
      quantization_type mode weight_quantization_params
      act_quantization_params
  else
    let* tr_atten_tpl := getattr tr_tpl "tr_atten_tpl" in
    let* atten_cls := get_cls tr_atten_tpl in
    if str_contains "MultiQueryDotProductAttention" (cls_name atten_cls) then
      let* tr_atten_tpl := getattr tr_tpl "tr_atten_tpl" in
      quantize_mq_dot_product_attention_layer_weights tr_atten_tpl
        quantization_type mode weight_quantization_params
        act_quantization_params
    else
      let* tr_atten_tpl := getattr tr_tpl "tr_atten_tpl" in
      let* atten_cls := get_cls tr_atten_tpl in
      raise (unsupported_attention atten_cls).

Definition quantize_transformer_feed_forward_layer_weights
    (tr_fflayer_tpl : value)
    (quantization_type : QuantizationType) (mode : QuantizationMode)
    (weight_quantization_params : WeightQuantizationParams.t)
    (act_quantization_params : option ActQuantizationParams.t)
    (rank : Z) : M unit :=
  let* q := new_QuantizationParams
    {| quantization_type := quantization_type; mode := mode;
       act_params := act_quantization_params;
       weight_params := Some weight_quantization_params |} in
  let* linear := pax_fiddle_Config quantization_Linear q
                   [("rank", VInt rank)] in
  let* fflayer_tpl := getattr tr_fflayer_tpl "fflayer_tpl" in
  setattr fflayer_tpl "linear_tpl" linear.

Definition quantize_transformer_layer_weights
    (tr_tpl : value)
    (quantization_type : QuantizationType) (mode : QuantizationMode)
    (weight_quantization_params : WeightQuantizationParams.t)
    (act_quantization_params : option ActQuantizationParams.t)
    (linear_only : bool) (rank : Z) : M unit :=
  when (negb linear_only)
    (quantize_attention_layer_weights tr_tpl quantization_type mode
       weight_quantization_params act_quantization_params) ;;;
  let* tr_fflayer_tpl := getattr tr_tpl "tr_fflayer_tpl" in
  quantize_transformer_feed_forward_layer_weights tr_fflayer_tpl
    quantization_type mode weight_quantization_params
    act_quantization_params rank.

(** The [WeightQuantizationParams(...)] call of
    [set_transformer_quantization]. *)
Definition transformer_weight_params (num_bits : Z) (use_symmetric : bool)
    (dtype : jnp_dtype) (block_size : Z) (use_int4_packed_weights : bool)
    (int4_packed_weights_container_dtype : jnp_dtype)
  : WeightQuantizationParams.t :=
  {| WeightQuantizationParams.precision := num_bits;
     WeightQuantizationParams.use_symmetric := use_symmetric;
     WeightQuantizationParams.dtype := dtype;
     WeightQuantizationParams.block_size := Some block_size;
     WeightQuantizationParams.use_int4_packed_weights :=
       Some use_int4_packed_weights;
     WeightQuantizationParams.int4_packed_weights_container_dtype :=
       Some int4_packed_weights_container_dtype |}.

(** The [WeightQuantizationParams(...)] call of
    [set_diffusion_quantization], which passes three keywords only. *)
Definition diffusion_weight_params (num_bits : Z) (use_symmetric : bool)
    (dtype : jnp_dtype) : WeightQuantizationParams.t :=
  {| WeightQuantizationParams.precision := num_bits;
     WeightQuantizationParams.use_symmetric := use_symmetric;
     WeightQuantizationParams.dtype := dtype;
     WeightQuantizationParams.block_size := None;
     WeightQuantizationParams.use_int4_packed_weights := None;
     WeightQuantizationParams.int4_packed_weights_container_dtype :=
       None |}.

(** [None if weight_quant_only else ActQuantizationParams(precision=num_bits)] *)
Definition act_quantization_params_of (weight_quant_only : bool)
    (num_bits : Z) : option ActQuantizationParams.t :=
  if weight_quant_only then None
  else Some {| ActQuantizationParams.precision := num_bits |}.

Definition set_transformer_quantization
    (config : value)
    (quantization_type : QuantizationType) (mode : QuantizationMode)
    (num_bits : Z) (linear_only use_symmetric : bool) (rank : Z)
    (weight_quant_only quantize_embedding_softmax
     transposed_embedding_softmax quantize_ngrammer_embedding : bool)
    (dtype : jnp_dtype) (block_size : Z) (use_int4_packed_weights : bool)
    (int4_packed_weights_container_dtype : jnp_dtype) : M unit :=
  let weight_quantization_params :=
    transformer_weight_params num_bits use_symmetric dtype block_size
      use_int4_packed_weights int4_packed_weights_container_dtype in
  let act_quantization_params :=
    act_quantization_params_of weight_quant_only num_bits in
  let* transformer_tpls :=
    (fun s => (Ok (find_target_tpl (cfgs s) config
                     layers_transformers_Transformer), s)) in
  for_each transformer_tpls (fun transformer_tpl =>
    quantize_transformer_layer_weights transformer_tpl quantization_type
      mode weight_quantization_params act_quantization_params
      linear_only rank) ;;;
  when (quantize_embedding_softmax || quantize_ngrammer_embedding)
    (let* lm_tpls :=
       (fun s => (Ok (find_target_tpl (cfgs s) config
                        layers_TransformerLm), s)) in
     for_each lm_tpls (fun lm_tpl =>
       when quantize_embedding_softmax
         (_quantize_embedding_softmax_layer_weights lm_tpl
            quantization_type mode weight_quantization_params
            transposed_embedding_softmax) ;;;
       when quantize_ngrammer_embedding
         (_quantize_ngrammer_embedding_weights lm_tpl quantization_type
            mode weight_quantization_params))).

Definition set_diffusion_quantization
    (config : value) (target : pyclass)
    (quantization_type : QuantizationType) (mode : QuantizationMode)
    (num_bits : Z) (use_symmetric weight_quant_only : bool)
    (dtype : jnp_dtype) : M unit :=
  let weight_quantization_params :=
    diffusion_weight_params num_bits use_symmetric dtype in
  let act_quantization_params :=
    act_quantization_params_of weight_quant_only num_bits in
  let* diffusion_tpls :=
    (fun s => (Ok (find_target_tpl (cfgs s) config target), s)) in
  for_each diffusion_tpls (fun diffusion_tpl =>
    let* has_conv := hasattr diffusion_tpl "conv_tpl" in
    when has_conv
      (let* q := new_QuantizationParams
         {| quantization_type := quantization_type; mode := mode;
            act_params := act_quantization_params;
            weight_params := Some weight_quantization_params |} in
       let* conv := pax_fiddle_Config quantization_Conv2D q [] in
       setattr diffusion_tpl "conv_tpl" conv)).

(** [assert cond] *)
Definition assert_ (cond : bool) : M unit :=
  if cond then ret tt else raise AssertionError.

Fixpoint map_M {A B} (f : A -> M B) (xs : list A) : M (list B) :=
  match xs with
  | [] => ret []
  | x :: xs' =>
      let* y := f x in
      let* ys := map_M f xs' in
      ret (y :: ys)
  end.

(** The models of the tasks named by
    [task_p.train.init_from_checkpoint_rules], when the caller asks for them
    and the task has such rules. *)
Definition checkpoint_rules_models
    (quantize_init_from_checkpoint_rules_task : bool) (task_p : value)
  : M (list value) :=
  if quantize_init_from_checkpoint_rules_task then
    let* has_train := hasattr task_p "train" in
    if has_train then
      let* train := getattr task_p "train" in
      let* has_rules := hasattr train "init_from_checkpoint_rules" in
      if has_rules then
        let* train := getattr task_p "train" in
        let* rules := getattr train "init_from_checkpoint_rules" in
        match rules with
        | VDict items =>
            map_M (fun item =>
                     let* ckpt_task_p := getattr (snd item) "task_p" in
                     getattr ckpt_task_p "model") items
        | _ => raise (AttributeError "items")
        end
      else ret []
    else ret []
  else ret [].

(** [Wrapper.task] of the class made by [for_transformer(...)(cls)];
    [super_task] is [cls.task]. *)
Definition for_transformer_task
    (num_bits : Z)
    (quantization_type : QuantizationType) (mode : QuantizationMode)
    (use_symmetric : bool) (rank : Z)
    (weight_quant_only quantize_embedding_softmax
     transposed_embedding_softmax quantize_ngrammer_embedding
     linear_only : bool)
    (dtype : jnp_dtype) (quantize_init_from_checkpoint_rules_task : bool)
    (block_size : Z)
    (super_task : M value) : M value :=
  let* task_p := super_task in
  assert_ (existsb (Z.eqb num_bits) [2; 4; 8]%Z) ;;;
  let* model := getattr task_p "model" in
  let* more :=
    checkpoint_rules_models quantize_init_from_checkpoint_rules_task
      task_p in
  for_each (model :: more) (fun model =>
    set_transformer_quantization model quantization_type mode num_bits
      linear_only use_symmetric rank weight_quant_only
      quantize_embedding_softmax transposed_embedding_softmax
      quantize_ngrammer_embedding dtype block_size true jnp_int32) ;;;
  ret task_p.

(** [Wrapper.task] of the class made by [for_diffusion(target, ...)(cls)]. *)
Definition for_diffusion_task
    (target : pyclass) (num_bits : Z)
    (quantization_type : QuantizationType) (mode : QuantizationMode)
    (use_symmetric : bool) (dtype : jnp_dtype)
    (weight_quant_only quantize_init_from_checkpoint_rules_task : bool)
    (super_task : M value) : M value :=
  let* task_p := super_task in
  assert_ (existsb (Z.eqb num_bits) [2; 4; 8]%Z) ;;;
  let* model := getattr task_p "model" in
  let* more :=
    checkpoint_rules_models quantize_init_from_checkpoint_rules_task
      task_p in
  for_each (model :: more) (fun model =>
    set_diffusion_quantization model target quantization_type mode
      num_bits use_symmetric weight_quant_only dtype) ;;;
  ret task_p.

End Rewriter.

(** ** [set_inference_mode] *)

Definition with_mode (m : QuantizationMode) (qp : QuantizationParams)
  : QuantizationParams :=
  {| quantization_type := quantization_type qp; mode := m;
     act_params := act_params qp; weight_params := weight_params qp |}.

(** [if hasattr(tpl, 'quantization'): tpl.quantization.mode = INFERENCE].
    Only a template has the attribute; the assignment mutates the
    [QuantizationParams] object the template refers to. *)
Definition set_quantization_mode_inference (tpl : value) (s : store) : store :=
  match tpl with
  | VCfg r =>
      match cfgs s !! r with
      | Some c =>
          match quantization c with
          | Some q =>
              {| cfgs := cfgs s;
                 quants := alter (with_mode INFERENCE) q (quants s) |}
          | None => s
          end
      | None => s
      end
  | _ => s
  end.

(** [param if isinstance(param, Sequence) else [param]]: lists and tuples are
    sequences, and so is a [str], whose elements are its one-character
    strings; a dict is not. *)
Definition as_params (param : value) : list value :=
  match param with
  | VSeq l => l
  | VStr str =>
      map (fun a => VStr (String a EmptyString)) (list_ascii_of_string str)
  | _ => [param]
  end.

(** [fdl.ordered_arguments(param_elem).values()].  The [QuantizationParams]
    object among them is neither a sequence nor a template and has no
    [quantization] attribute of its own, so the walk does nothing with it. *)
Definition ordered_arguments_values (c : config) : list value :=
  map snd (args c).

(** The body of the [for param_elem in params] loop.  [to_process] is kept
    with the end of the Python list first: [pop()] takes the head and
    [extend(xs)] puts [xs], reversed, in front. *)
Definition visit (st : store * list value) (param_elem : value)
  : store * list value :=
  let s := set_quantization_mode_inference param_elem (fst st) in
  match param_elem with
  | VCfg r =>
      match cfgs s !! r with
      | Some c => (s, reverse (ordered_arguments_values c) ++ snd st)
      | None => (s, snd st)
      end
  | _ => (s, snd st)
  end.

(** [while to_process: ...]; one unit of fuel per iteration. *)
Fixpoint set_inference_mode_loop (fuel : nat) (s : store)
    (to_process : list value) : option store :=
  match fuel with
  | 0 => None
  | S fuel' =>
      match to_process with
      | [] => Some s
      | param :: rest =>
          let st := fold_left visit (as_params param) (s, rest) in
          set_inference_mode_loop fuel' (fst st) (snd st)
      end
  end.

Definition set_inference_mode (fuel : nat) (config : value) (s : store)
  : option store :=
  set_inference_mode_loop fuel s [config].

(** ** Specification vocabulary *)

(** The [QuantizationParams] the rewriting functions construct. *)
Definition qparams (quantization_type : QuantizationType)
    (mode : QuantizationMode) (act : option ActQuantizationParams.t)
    (wp : WeightQuantizationParams.t) : QuantizationParams :=
  {| quantization_type := quantization_type; mode := mode;
     act_params := act; weight_params := Some wp |}.

(** In [s], argument [name] of [parent] is a template created after [s0], of
    class [c], with arguments [kwargs] and a [QuantizationParams] object
    created after [s0] that holds [qp]. *)
Definition installed (s0 s : store) (parent : ref) (name : string)
    (c : pyclass) (kwargs : list (string * value)) (qp : QuantizationParams)
  : Prop :=
  exists cp r q,
    cfgs s !! parent = Some cp /\
    assoc name (args cp) = Some (VCfg r) /\
    length (cfgs s0) <= r /\
    cfgs s !! r = Some {| cls := c; quantization := Some q; args := kwargs |} /\
    length (quants s0) <= q /\
    quants s !! q = Some qp.

(** The store after
    [parent.name = pax_fiddle.Config(c, quantization=QuantizationParams(..), **kw)]. *)
Definition install (s : store) (parent : ref) (cp : config) (name : string)
    (c : pyclass) (kw : list (string * value)) (qp : QuantizationParams)
  : store :=
  {| cfgs := <[parent := set_arg name (VCfg (length (cfgs s))) cp]>
               (cfgs s ++ [{| cls := c;
                              quantization := Some (length (quants s));
                              args := kw |}]);
     quants := quants s ++ [qp] |}.

(** Every field set on the child template [old] holds the same value on the
    child template [new]. *)
Definition fields_carried (s s' : store) (old new : ref) : Prop :=
  forall c_old f v,
    cfgs s !! old = Some c_old ->
    assoc f (args c_old) = Some v ->
    exists c_new, cfgs s' !! new = Some c_new /\ assoc f (args c_new) = Some v.

(** Argument [name] of [parent], when it is a template. *)
Definition child (s : store) (parent : ref) (name : string) : option ref :=
  match cfgs s !! parent with
  | Some cp =>
      match assoc name (args cp) with
      | Some (VCfg r) => Some r
      | _ => None
      end
  | None => None
  end.

(** Modelled from the spec: [utils.find_target_tpl] is defined in a module
    that is not part of the sources at hand.  It yields "all Config Nodes in
    the subtree whose target type is, or is a recognized subtype of,
    target_type", reached by a depth-first walk over the node arguments, and
    "the same node must not be yielded twice".  [fuel] bounds the number of
    values the walk looks at. *)
Fixpoint find_target_tpl_walk (fuel : nat) (cs : list config)
    (target : pyclass) (to_visit : list value) (seen : list ref)
  : list value :=
  match fuel with
  | 0 => []
  | S fuel' =>
      match to_visit with
      | [] => []
      | VCfg r :: rest =>
          if existsb (Nat.eqb r) seen then
            find_target_tpl_walk fuel' cs target rest seen
          else
            match cs !! r with
            | Some c =>
                (if issubclass (cls c) target then [VCfg r] else [])
                ++ find_target_tpl_walk fuel' cs target
                     (map snd (args c) ++ rest) (r :: seen)
            | None => find_target_tpl_walk fuel' cs target rest seen
            end
      | VSeq l :: rest =>
          find_target_tpl_walk fuel' cs target (l ++ rest) seen
      | _ :: rest => find_target_tpl_walk fuel' cs target rest seen
      end
  end.

(** Modelled from the spec: [find_target_tpl(config, target)], the walk
    started at [config] with nothing seen yet. *)
Definition find_target_tpl (fuel : nat) (cs : list config) (config : value)
    (target : pyclass) : list value :=
  find_target_tpl_walk fuel cs target [config] [].

(** ** A sample language model

    A [TransformerLm] with one transformer block: attention with a projection
    template, a feed-forward layer with a linear template, a softmax template
    and an optional ngrammer.  The classes of the attention, softmax and
    ngrammer templates are left to the example at hand. *)
Definition sample_lm (atten_cls softmax_cls : pyclass) (ngrammer : value)
    (ngrammer_cls : pyclass) : store :=
  {| cfgs :=
       [ {| cls := layers_TransformerLm; quantization := None;
            args := [("stacked_transformer_tpl", VCfg 1);
                     ("softmax_tpl", VCfg 7);
                     ("ngrammer_tpl", ngrammer)] |};
         {| cls := praxis_class "praxis.layers.transformers"
                     "StackedTransformer";
            quantization := None;
            args := [("num_layers", VInt 2);
                     ("transformer_layer_params_tpl", VSeq [VCfg 2])] |};
         {| cls := layers_transformers_Transformer; quantization := None;
            args := [("tr_atten_tpl", VCfg 3); ("tr_fflayer_tpl", VCfg 5)] |};
         {| cls := atten_cls; quantization := None;
            args := [("num_heads", VInt 8); ("proj_tpl", VCfg 4)] |};
         {| cls := praxis_class "praxis.layers.attentions"
                     "AttentionProjection";
            quantization := None;
            args := [("input_dim", VInt 16)] |};
         {| cls := praxis_class "praxis.layers.transformers"
                     "TransformerFeedForward";
            quantization := None;
            args := [("hidden_dims", VInt 64); ("fflayer_tpl", VCfg 6)] |};
         {| cls := praxis_class "praxis.layers.linears" "FeedForward";
            quantization := None;
            args := [("linear_tpl", VCfg 9)] |};
         {| cls := softmax_cls; quantization := None;
            args := [("num_classes", VInt 32000); ("input_dims", VInt 16)] |};
         {| cls := ngrammer_cls; quantization := None;
            args := [("ngram_vocab_size", VInt 768)] |};
         {| cls := praxis_class "praxis.layers.linears" "Linear";
            quantization := None;
            args := [("input_dims", VInt 16)] |} ];
     quants := [] |}.

Definition LinearAttention : pyclass :=
  praxis_class "my_project.layers" "LinearAttention".
Definition MultiQueryDotProductAttention : pyclass :=
  praxis_class "praxis.layers.multi_query_attention"
    "MultiQueryDotProductAttention".
Definition FullSoftmax : pyclass :=
  praxis_class "praxis.layers.embedding_softmax" "FullSoftmax".

Definition sample_wp : WeightQuantizationParams.t :=
  {| WeightQuantizationParams.precision := 8;
     WeightQuantizationParams.use_symmetric := true;
     WeightQuantizationParams.dtype := jnp_int8;
     WeightQuantizationParams.block_size := Some 0%Z;
     WeightQuantizationParams.use_int4_packed_weights := Some true;
     WeightQuantizationParams.int4_packed_weights_container_dtype :=
       Some jnp_int32 |}.

Definition lm_unsupported_attention : store :=
  sample_lm LinearAttention layers_SharedEmbeddingSoftmax VNone
    layers_ngrammer_Ngrammer.
Definition lm_dot_product : store :=
  sample_lm layers_attentions_DotProductAttention
    layers_SharedEmbeddingSoftmax (VCfg 8) layers_ngrammer_VQNgrammer.
Definition lm_full_softmax : store :=
  sample_lm layers_attentions_DotProductAttention FullSoftmax VNone
    layers_ngrammer_Ngrammer.

(** The classes of the replacement templates whose [QuantizationParams] are
    built without [act_params]: those of the embedding softmax and of the
    ngrammer. *)
Definition is_embedding_class (c : pyclass) : bool :=
  existsb (String.eqb (qualname c))
    (map qualname
       [quantization_NClassMajorSharedEmbeddingSoftmax;
        quantization_SharedEmbeddingSoftmax;
        quantization_Ngrammer;
        quantization_VQNgrammer]).

(** What a rewriting pass may do to the store: the existing
    [QuantizationParams] objects stay as they are, an existing template keeps
    its class and its [quantization] argument, and every template created by
    the pass carries a [QuantizationParams] object created by the pass, which
    satisfies [P] for the class of the template. *)
Definition rewritten (P : pyclass -> QuantizationParams -> Prop)
    (s s' : store) : Prop :=
  (exists l, quants s' = quants s ++ l) /\
  length (cfgs s) <= length (cfgs s') /\
  (forall r c,
     cfgs s !! r = Some c ->
     exists c', cfgs s' !! r = Some c' /\ cls c' = cls c /\
                quantization c' = quantization c) /\
  (forall r c,
     length (cfgs s) <= r -> cfgs s' !! r = Some c ->
     exists q qp,
       quantization c = Some q /\ length (quants s) <= q /\
       quants s' !! q = Some qp /\ P (cls c) qp).

(** A computation that only rewrites in that way and never fails an
    assertion. *)
Definition no_assertion {A} (o : outcome A) : Prop :=
  match o with
  | Raise AssertionError => False
  | _ => True
  end.

Definition sound {A} (P : pyclass -> QuantizationParams -> Prop) (m : M A)
  : Prop :=
  forall s, rewritten P s (snd (m s)) /\ no_assertion (fst (m s)).

(** The [QuantizationParams] a pass attaches to a template it creates: the
    replacement templates of the embedding softmax and of the ngrammer get no
    [act_params], the others get the [act] of the pass. *)
Definition pass_params (quantization_type : QuantizationType)
    (mode : QuantizationMode) (act : option ActQuantizationParams.t)
    (wp : WeightQuantizationParams.t)
  : pyclass -> QuantizationParams -> Prop :=
  fun c qp =>
    qp = qparams quantization_type mode
           (if is_embedding_class c then None else act) wp.

(** Two stores with the same templates and as many [QuantizationParams]
    objects, whatever these hold. *)
Definition shape_eq (s s' : store) : Prop :=
  cfgs s = cfgs s' /\ length (quants s) = length (quants s').

(** Two computations that go the same way on such stores. *)
Definition sim {A} (m m' : M A) : Prop :=
  forall s s',
    shape_eq s s' ->
    fst (m s) = fst (m' s') /\ shape_eq (snd (m s)) (snd (m' s')).

(** ** The graph walked by [set_inference_mode] *)

(** The templates among the elements of [as_params v]. *)
Definition elem_cfgs (v : value) : list ref :=
  omap (fun e => match e with VCfg r => Some r | _ => None end) (as_params v).

(** [reach cs v r]: the walk started at [v] comes to the template [r], going
    from a template to its arguments that are templates and to the elements
    of its arguments that are sequences. *)
Inductive reach (cs : list config) : value -> ref -> Prop :=
| reach_here v r : r ∈ elem_cfgs v -> reach cs v r
| reach_arg v r0 c0 a r :
    r0 ∈ elem_cfgs v ->
    cs !! r0 = Some c0 ->
    a ∈ ordered_arguments_values c0 ->
    reach cs a r ->
    reach cs v r.

(** The template graph has no cycle: [rk] decreases along every edge. *)
Definition ranked (cs : list config) (rk : ref -> nat) : Prop :=
  forall r c a r',
    cs !! r = Some c ->
    a ∈ ordered_arguments_values c ->
    r' ∈ elem_cfgs a ->
    rk r' < rk r.

(** [q] is the [quantization] argument of a template the walk comes to. *)
Definition carried (cs : list config) (v : value) (q : qref) : Prop :=
  exists r c, reach cs v r /\ cs !! r = Some c /\ quantization c = Some q.

(** The templates among the values of a list. *)
Definition direct (params : list value) : list ref :=
  omap (fun e => match e with VCfg r => Some r | _ => None end) params.

(** [Q'] is [Q] with the mode set to [INFERENCE] in the objects carried by
    the templates in [R], and nothing else changed. *)
Definition marks (R : ref -> Prop) (cs : list config)
    (Q Q' : list QuantizationParams) : Prop :=
  (forall q,
     Q' !! q = Q !! q \/
     ((exists r c, R r /\ cs !! r = Some c /\ quantization c = Some q) /\
      Q' !! q = with_mode INFERENCE <$> Q !! q)) /\
  (forall r c q,
     R r -> cs !! r = Some c -> quantization c = Some q ->
     Q' !! q = with_mode INFERENCE <$> Q !! q).

(** The templates the walk comes to from a list of pending values. *)
Definition reach_wl (cs : list config) (wl : list value) (r : ref) : Prop :=
  exists v, v ∈ wl /\ reach cs v r.

(** Every template among the elements of [v] has a rank below [d]. *)
Definition bounded (rk : ref -> nat) (d : nat) (v : value) : Prop :=
  forall r, r ∈ elem_cfgs v -> rk r < d.

(** A checker for [ranked] on a given store. *)
Fixpoint check_ranked_from (rk : ref -> nat) (i : nat) (cs : list config)
  : bool :=
  match cs with
  | [] => true
  | c :: cs' =>
      forallb
        (fun a => forallb (fun r' => rk r' <? rk i) (elem_cfgs a))
        (ordered_arguments_values c)
      && check_ranked_from rk (S i) cs'
  end.

(** The sample model after a fake-quantization pass in [TRAINING] mode that
    also quantizes the embedding softmax and the ngrammer. *)
Definition lm_quantized : store :=
  snd (set_transformer_quantization (find_target_tpl 100) (VCfg 0) FQ
         TRAINING 8 false true (-1) true true false true jnp_int8 0 true
         jnp_int32 lm_dot_product).

Definition lm_quantized_rank (r : ref) : nat :=
  default 0 ([5; 4; 3; 1; 0; 2; 1] !! r).

(** ** The template config model: [build]

    [pax_fiddle.build] and the [Config] data model live in [pax_fiddle], which
    is not part of the sources at hand (only [pax_fiddle_test.py] is); what
    follows is written from the spec's description of them. *)

(** References to built instances. *)
Abbreviation oref := nat.

(** Modelled from the spec: the primitive values an argument may hold. *)
Inductive prim :=
| PNone
| PBool (b : bool)
| PInt (n : Z)
| PStr (s : string).

(** Modelled from the spec: an argument value is "a primitive, a nested
    Config Node, an ordered sequence of Config Nodes"; a template field holds
    a Config Node that the owner builds later, a sub field one that is "built
    eagerly as part of the parent's own construction". *)
Inductive arg :=
| APrim (p : prim)
| ANode (r : ref)
| ANodes (rs : list ref)
| ATemplate (r : ref).

(** Modelled from the spec: a Config Node, "target type" and "a mapping from
    argument name to value". *)
Record node := {
  target : string;
  arguments : list (string * arg);
}.

(** Modelled from the spec: the fields of a built instance; a template field
    still holds the template. *)
Inductive field :=
| FPrim (p : prim)
| FObj (o : oref)
| FObjs (os : list oref)
| FTemplate (r : ref).

(** Modelled from the spec: a built instance. *)
Record instance := {
  itype : string;
  fields : list (string * field);
}.

(** Modelled from the spec: the heap of built instances and the "build cache
    mapping handle -> built-instance valid only for the duration of one build
    call". *)
Record build_state := {
  heap : list instance;
  built : list (ref * oref);
}.

(** Modelled from the spec: the cache is keyed by node identity. *)
Fixpoint cache_lookup (r : ref) (m : list (ref * oref)) : option oref :=
  match m with
  | [] => None
  | (r', o) :: m' => if Nat.eqb r' r then Some o else cache_lookup r m'
  end.

Section BuildArgs.

(** How a nested node is built. *)
Variable build_rec : ref -> build_state -> option (oref * build_state).

(** Modelled from the spec: the nodes of a sequence are built in order. *)
Fixpoint build_nodes (rs : list ref) (st : build_state)
  : option (list oref * build_state) :=
  match rs with
  | [] => Some ([], st)
  | r :: rs' =>
      match build_rec r st with
      | Some (o, st1) =>
          match build_nodes rs' st1 with
          | Some (os, st2) => Some (o :: os, st2)
          | None => None
          end
      | None => None
      end
  end.

(** Modelled from the spec: "for each nested Config Node argument,
    recursively build first"; primitives and template fields are passed as
    they are. *)
Definition build_arg (a : arg) (st : build_state)
  : option (field * build_state) :=
  match a with
  | APrim p => Some (FPrim p, st)
  | ANode r =>
      match build_rec r st with
      | Some (o, st1) => Some (FObj o, st1)
      | None => None
      end
  | ANodes rs =>
      match build_nodes rs st with
      | Some (os, st1) => Some (FObjs os, st1)
      | None => None
      end
  | ATemplate r => Some (FTemplate r, st)
  end.

(** Modelled from the spec: the arguments are built depth-first, in
    order. *)
Fixpoint build_args (l : list (string * arg)) (st : build_state)
  : option (list (string * field) * build_state) :=
  match l with
  | [] => Some ([], st)
  | (k, a) :: l' =>
      match build_arg a st with
      | Some (f, st1) =>
          match build_args l' st1 with
          | Some (fs, st2) => Some ((k, f) :: fs, st2)
          | None => None
          end
      | None => None
      end
  end.

End BuildArgs.

(** Modelled from the spec: building one node.  A node already built during
    this call is reused ("sharing survives only within one traversal that
    never revisits a node it has already built, by identity"); otherwise its
    arguments are built first (post-order) and the target type's constructor
    then makes a new instance.  [d] bounds the depth of the recursion. *)
Fixpoint build_node (d : nat) (g : list node) (r : ref) (st : build_state)
  : option (oref * build_state) :=
  match d with
  | 0 => None
  | S d' =>
      match cache_lookup r (built st) with
      | Some o => Some (o, st)
      | None =>
          match g !! r with
          | None => None
          | Some n =>
              match build_args (build_node d' g) (arguments n) st with
              | None => None
              | Some (fs, st1) =>
                  let o := length (heap st1) in
                  Some (o,
                        {| heap := heap st1
                                   ++ [{| itype := target n; fields := fs |}];
                           built := (r, o) :: built st1 |})
              end
          end
      end
  end.

(** Modelled from the spec: [build(config)], one call with a build cache of
    its own, on the heap [h] of the instances that exist already. *)
Definition build (d : nat) (g : list node) (r : ref) (h : list instance)
  : option (oref * build_state) :=
  build_node d g r {| heap := h; built := [] |}.

(** The nodes a build of [a] goes into. *)
Definition arg_nodes (a : arg) : list ref :=
  match a with
  | ANode r => [r]
  | ANodes rs => rs
  | _ => []
  end.

(** The part of the graph that gets built has no cycle and no dangling
    reference. *)
Definition buildable (g : list node) (rk : ref -> nat) : Prop :=
  forall r n k a r',
    g !! r = Some n -> (k, a) ∈ arguments n -> r' ∈ arg_nodes a ->
    rk r' < rk r /\ is_Some (g !! r').

(** The instances a field refers to. *)
Definition field_objs (f : field) : list oref :=
  match f with
  | FObj o => [o]
  | FObjs os => os
  | _ => []
  end.

(** [x] is [o] or one of its nested sub-instances. *)
Inductive sub_instance (h : list instance) : oref -> oref -> Prop :=
| sub_here o : sub_instance h o o
| sub_field o i k f o' x :
    h !! o = Some i -> (k, f) ∈ fields i -> o' ∈ field_objs f ->
    sub_instance h o' x -> sub_instance h o x.

(** Equality by value of two instances, field by field. *)
Inductive same_value (h1 h2 : list instance) : oref -> oref -> Prop :=
| same_value_intro o1 o2 i1 i2 :
    h1 !! o1 = Some i1 -> h2 !! o2 = Some i2 ->
    itype i1 = itype i2 ->
    Forall2
      (fun kf1 kf2 =>
         fst kf1 = fst kf2 /\ same_field h1 h2 (snd kf1) (snd kf2))
      (fields i1) (fields i2) ->
    same_value h1 h2 o1 o2
with same_field (h1 h2 : list instance) : field -> field -> Prop :=
| same_prim p : same_field h1 h2 (FPrim p) (FPrim p)
| same_obj a b : same_value h1 h2 a b -> same_field h1 h2 (FObj a) (FObj b)
| same_objs l1 l2 :
    Forall2 (same_value h1 h2) l1 l2 ->
    same_field h1 h2 (FObjs l1) (FObjs l2)
| same_template r : same_field h1 h2 (FTemplate r) (FTemplate r).

(** The field [f] is what the argument [a] becomes under the build cache
    [m]. *)
Definition field_of (m : list (ref * oref)) (a : arg) (f : field) : Prop :=
  match a, f with
  | APrim p, FPrim p' => p = p'
  | ANode r, FObj o => cache_lookup r m = Some o
  | ANodes rs, FObjs os =>
      Forall2 (fun r o => cache_lookup r m = Some o) rs os
  | ATemplate r, FTemplate r' => r = r'
  | _, _ => False
  end.

Definition fields_of (m : list (ref * oref)) (l : list (string * arg))
    (fs : list (string * field)) : Prop :=
  Forall2 (fun ka kf => fst ka = fst kf /\ field_of m (snd ka) (snd kf)) l fs.

(** The invariant of a running build whose instances live from address [b]
    on: what the cache gives for a node is an instance of this build, of the
    node's target type, whose fields are the node's arguments under the
    cache. *)
Definition cache_ok (g : list node) (b : nat) (st : build_state) : Prop :=
  b <= length (heap st) /\
  forall r o,
    cache_lookup r (built st) = Some o ->
    b <= o /\
    exists n i,
      g !! r = Some n /\ heap st !! o = Some i /\
      itype i = target n /\
      fields_of (built st) (arguments n) (fields i).

(** The heap and the cache only grow. *)
Definition grows (st st' : build_state) : Prop :=
  (exists l, heap st' = heap st ++ l) /\
  forall r o,
    cache_lookup r (built st) = Some o ->
    cache_lookup r (built st') = Some o.

(** What building the nodes in [rs] from [st] to [st'] achieves. *)
Definition built_from (g : list node) (rk : ref -> nat) (b : nat)
    (rs : list ref) (st st' : build_state) : Prop :=
  cache_ok g b st' /\ grows st st' /\
  forall r',
    cache_lookup r' (built st) = None ->
    is_Some (cache_lookup r' (built st')) ->
    exists r, r ∈ rs /\ rk r' <= rk r.

(** A checker for [buildable] on a given graph. *)
Fixpoint check_buildable_from (rk : ref -> nat) (size : nat) (i : nat)
    (g : list node) : bool :=
  match g with
  | [] => true
  | n :: g' =>
      forallb
        (fun ka =>
           forallb (fun r' => (rk r' <? rk i) && (r' <? size))
             (arg_nodes (snd ka)))
        (arguments n)
      && check_buildable_from rk size (S i) g'
  end.

(** The fleet of [pax_fiddle_test.py], with the owner of the vehicle
    template and the manager of the fleet being one shared [Person] node
    (as in [test_shared_vehicle_owners]). *)
Definition fleet_graph : list node :=
  [ {| target := "Fleet";
       arguments := [("vehicle_tpl", ATemplate 1);
                     ("num_vehicles", APrim (PInt 3));
                     ("manager", ANode 2)] |};
    {| target := "Vehicle";
       arguments := [("wheel_tpl", ATemplate 3);
                     ("num_wheels", APrim (PInt 4));
                     ("owner", ANode 2);
                     ("driver", ANode 2)] |};
    {| target := "Person"; arguments := [("name", APrim (PStr "Ben"))] |};
    {| target := "Wheel"; arguments := [("radius", APrim (PInt 5))] |} ].

Definition fleet_rank (r : ref) : nat :=
  default 0 ([1; 1; 0; 0] !! r).

(** The templates created between [s] and [s'] come with one
    [QuantizationParams] object each, created in the same order: the [i]-th
    new template carries the [i]-th new object.  Existing templates keep
    their [quantization] argument. *)
Definition paired (s s' : store) : Prop :=
  (exists n,
     length (cfgs s') = length (cfgs s) + n /\
     length (quants s') = length (quants s) + n) /\
  (forall r c,
     cfgs s !! r = Some c ->
     exists c', cfgs s' !! r = Some c' /\ quantization c' = quantization c) /\
  (forall i c,
     cfgs s' !! (length (cfgs s) + i) = Some c ->
     quantization c = Some (length (quants s) + i)).

Definition pairing {A} (m : M A) : Prop :=
  forall s, paired s (snd (m s)).

(** ** Whole passes over several matched templates *)

(** The class and the keyword arguments of the template that the transformer
    pass assigns to an argument name; [None] for a name it never assigns. *)
Definition transformer_replacement (rank : Z) (name : string)
  : option (pyclass * list (string * value)) :=
  if String.eqb name "proj_tpl" then
    Some (quantization_attentions_AttentionProjection, [])
  else if String.eqb name "combined_qkv_proj_tpl" then
    Some (quantization_attentions_CombinedQKVProjectionLayer, [])
  else if String.eqb name "headless_proj_tpl" then
    Some (quantization_multi_query_attention_OneHeadedAttentionProjection, [])
  else if String.eqb name "linear_tpl" then
    Some (quantization_Linear, [("rank", VInt rank)])
  else None.

(** The same for the diffusion pass. *)
Definition diffusion_replacement (name : string)
  : option (pyclass * list (string * value)) :=
  if String.eqb name "conv_tpl" then Some (quantization_Conv2D, []) else None.

(** In [s], argument [name] of [parent] is a replacement created after [s0],
    of the class given by [table]. *)
Definition replaced
    (table : string -> option (pyclass * list (string * value)))
    (qp : QuantizationParams) (s0 s : store) (parent : ref) (name : string)
  : Prop :=
  exists c kw, table name = Some (c, kw) /\ installed s0 s parent name c kw qp.

(** [s] comes from [s0] by assignments to the argument names of [table] only:
    every template of [s0] is still there, with its class and with its other
    arguments as they were. *)
Definition evolved
    (table : string -> option (pyclass * list (string * value)))
    (s0 s : store) : Prop :=
  length (cfgs s0) <= length (cfgs s) /\
  length (quants s0) <= length (quants s) /\
  forall r c0,
    cfgs s0 !! r = Some c0 ->
    exists c,
      cfgs s !! r = Some c /\ cls c = cls c0 /\
      forall n, table n = None -> assoc n (args c) = assoc n (args c0).

(** A transformer block the pass can rewrite: its feed-forward chain is in
    place and, unless only the linear layers are asked for, its attention
    template is of a recognised class. *)
Definition block_ready (linear_only : bool) (s : store) (tr f2 : ref)
    (a : option ref) : Prop :=
  exists ctr f1 c1 c2,
    cfgs s !! tr = Some ctr /\
    assoc "tr_fflayer_tpl" (args ctr) = Some (VCfg f1) /\
    cfgs s !! f1 = Some c1 /\
    assoc "fflayer_tpl" (args c1) = Some (VCfg f2) /\
    cfgs s !! f2 = Some c2 /\
    if linear_only then a = None
    else
      exists ra ca,
        a = Some ra /\
        assoc "tr_atten_tpl" (args ctr) = Some (VCfg ra) /\
        cfgs s !! ra = Some ca /\
        issubclass (cls ca) layers_attentions_DotProductAttention
        || str_contains "MultiQueryDotProductAttention" (cls_name (cls ca))
        = true.

(** A task around the sample model: a task template whose [model] is the
    sample language model and, when [with_train] holds, whose [train]
    settings have one checkpoint rule, naming a second task with a model of
    one transformer block. *)
Definition sample_task (with_train : bool) : store :=
  {| cfgs :=
       cfgs lm_dot_product ++
       [ {| cls := praxis_class "paxml.tasks_lib" "SingleTask";
            quantization := None;
            args := ("model", VCfg 0)
                    :: (if with_train then [("train", VCfg 11)] else []) |};
         {| cls := praxis_class "paxml.tasks_lib" "SingleTask.Train";
            quantization := None;
            args := [("init_from_checkpoint_rules",
                      VDict [("/checkpoints/teacher", VCfg 12)])] |};
         {| cls := praxis_class "paxml.tasks_lib" "CheckpointLoadingRules";
            quantization := None;
            args := [("task_p", VCfg 13)] |};
         {| cls := praxis_class "paxml.tasks_lib" "SingleTask";
            quantization := None;
            args := [("model", VCfg 14)] |};
         {| cls := layers_transformers_Transformer; quantization := None;
            args := [("tr_atten_tpl", VCfg 15); ("tr_fflayer_tpl", VCfg 16)] |};
         {| cls := layers_attentions_DotProductAttention;
            quantization := None; args := [("num_heads", VInt 4)] |};
         {| cls := praxis_class "praxis.layers.transformers"
                     "TransformerFeedForward";
            quantization := None;
            args := [("fflayer_tpl", VCfg 17)] |};
         {| cls := praxis_class "praxis.layers.linears" "FeedForward";
            quantization := None; args := [] |} ];
     quants := [] |}.

(** A stack of two transformer blocks.  The first block has a
    [DotProductAttention] template; the second has the attention template
    [second_atten], which is that of the first block (3) or a
    [LinearAttention] template (8). *)
Definition two_block_stack (second_atten : ref) : store :=
  {| cfgs :=
       [ {| cls := praxis_class "praxis.layers.transformers"
                     "StackedTransformer";
            quantization := None;
            args := [("x_layers", VSeq [VCfg 1; VCfg 2])] |};
         {| cls := layers_transformers_Transformer; quantization := None;
            args := [("tr_atten_tpl", VCfg 3); ("tr_fflayer_tpl", VCfg 4)] |};
         {| cls := layers_transformers_Transformer; quantization := None;
            args := [("tr_atten_tpl", VCfg second_atten);
                     ("tr_fflayer_tpl", VCfg 6)] |};
         {| cls := layers_attentions_DotProductAttention;
            quantization := None; args := [("num_heads", VInt 8)] |};
         {| cls := praxis_class "praxis.layers.transformers"
                     "TransformerFeedForward";
            quantization := None; args := [("fflayer_tpl", VCfg 5)] |};
         {| cls := praxis_class "praxis.layers.linears" "FeedForward";
            quantization := None; args := [] |};
         {| cls := praxis_class "praxis.layers.transformers"
                     "TransformerFeedForward";
            quantization := None; args := [("fflayer_tpl", VCfg 7)] |};
         {| cls := praxis_class "praxis.layers.linears" "FeedForward";
            quantization := None; args := [] |};
         {| cls := LinearAttention; quantization := None;
            args := [("num_heads", VInt 8)] |} ];
     quants := [] |}.

(** Two language models that share one softmax template. *)
Definition two_lms_one_softmax : store :=
  {| cfgs :=
       [ {| cls := layers_TransformerLm; quantization := None;
            args := [("softmax_tpl", VCfg 2); ("ngrammer_tpl", VNone)] |};
         {| cls := layers_TransformerLm; quantization := None;
            args := [("softmax_tpl", VCfg 2); ("ngrammer_tpl", VNone)] |};
         {| cls := layers_SharedEmbeddingSoftmax; quantization := None;
            args := [("num_classes", VInt 32000)] |} ];
     quants := [] |}.

(** A quantized template that holds another quantized template only inside
    a dict and inside a sequence of sequences. *)
Definition nested_children : store :=
  {| cfgs :=
       [ {| cls := quantization_Linear; quantization := Some 0;
            args := [("by_name", VDict [("a", VCfg 1)]);
                     ("groups", VSeq [VSeq [VCfg 1]]);
                     ("rank", VInt 4)] |};
         {| cls := quantization_Linear; quantization := Some 1;
            args := [] |} ];
     quants := [qparams FQ TRAINING None sample_wp;
                qparams FQ TRAINING None sample_wp] |}.

(** A diffusion model with three blocks of the target class: two that share
    one convolution template and one without a [conv_tpl] argument. *)
Definition ResidualBlock : pyclass :=
  praxis_class "my_project.diffusion" "ResidualBlock".

Definition unet_blocks : store :=
  {| cfgs :=
       [ {| cls := praxis_class "my_project.diffusion" "UNet";
            quantization := None;
            args := [("blocks", VSeq [VCfg 1; VCfg 2; VCfg 3])] |};
         {| cls := ResidualBlock; quantization := None;
            args := [("channels", VInt 64); ("conv_tpl", VCfg 4)] |};
         {| cls := ResidualBlock; quantization := None;
            args := [("channels", VInt 128); ("conv_tpl", VCfg 4)] |};
         {| cls := ResidualBlock; quantization := None;
            args := [("channels", VInt 128)] |};
         {| cls := praxis_class "praxis.layers.convolutions" "Conv2D";
            quantization := None;
            args := [("filter_stride", VSeq [VInt 1; VInt 1])] |} ];
     quants := [] |}.

(** ** The classes of [pax_fiddle_test.py]: [setup]

    [Wheel], [ColoredWheel], [Person], [Vehicle] and [Fleet] are the
    dataclasses of the test file; an instance is built by [build] from a node
    whose target is the name of the class. *)

(** The value given to an attribute of a built instance, if any. *)
Fixpoint get_field (name : string) (fs : list (string * field))
  : option field :=
  match fs with
  | [] => None
  | (k, f) :: fs' => if String.eqb k name then Some f else get_field name fs'
  end.

(** The value given to an argument of a node, if any. *)
Fixpoint get_arg (name : string) (l : list (string * arg)) : option arg :=
  match l with
  | [] => None
  | (k, a) :: l' => if String.eqb k name then Some a else get_arg name l'
  end.

Fixpoint set_field (name : string) (f : field) (fs : list (string * field))
  : list (string * field) :=
  match fs with
  | [] => [(name, f)]
  | (k, f0) :: fs' =>
      if String.eqb k name then (k, f) :: fs'
      else (k, f0) :: set_field name f fs'
  end.

(** [self.name = f] *)
Definition assign (name : string) (f : field) (i : instance) : instance :=
  {| itype := itype i; fields := set_field name f (fields i) |}.

(** How a call of [setup] ends: it returns [self] (the heap it leaves is
    kept), an [assert] fails, or the call is outside what is modelled (no
    such object, an attribute of another kind than the code expects, a class
    without [setup], [build] not returning). *)
Inductive result (A : Type) :=
| Done (a : A)
| AssertionFailed
| Stuck.
Arguments Done {A} a.
Arguments AssertionFailed {A}.
Arguments Stuck {A}.

(** An integer attribute with a dataclass default, as [range] takes it. *)
Definition count_of (name : string) (default_count : Z)
    (fs : list (string * field)) : option Z :=
  match get_field name fs with
  | None => Some default_count
  | Some (FPrim (PInt n)) => Some n
  | Some _ => None
  end.

Section Setup.

(** The depth bound and the template graph of [build]. *)
Variable d : nat.
Variable g : list node.

(** [.setup()] on a built object, by the class of the object. *)
Variable setup_rec : oref -> list instance -> result (list instance).

(** [[pax_fiddle.build(tpl).setup() for i in range(n)]]; each [setup] returns
    its receiver, so the list holds the built objects. *)
Fixpoint build_and_setup (tpl : ref) (n : nat) (h : list instance)
  : result (list oref * list instance) :=
  match n with
  | 0 => Done ([], h)
  | S n' =>
      match build d g tpl h with
      | None => Stuck
      | Some (o, st) =>
          match setup_rec o (heap st) with
          | Done h1 =>
              match build_and_setup tpl n' h1 with
              | Done (os, h2) => Done (o :: os, h2)
              | AssertionFailed => AssertionFailed
              | Stuck => Stuck
              end
          | AssertionFailed => AssertionFailed
          | Stuck => Stuck
          end
      end
  end.

(** The body that [Vehicle.setup] and [Fleet.setup] share:
    [assert self.<list> is None],
    [self.<list> = [pax_fiddle.build(self.<tpl>).setup()
                    for i in range(self.<count>)]],
    [return self].  An attribute that was given no value has its dataclass
    default: [None] for the list, [default_count] for the count. *)
Definition setup_list (tpl_field count_field : string) (default_count : Z)
    (list_field : string) (self : oref) (h : list instance)
  : result (list instance) :=
  match h !! self with
  | None => Stuck
  | Some i =>
      match get_field list_field (fields i) with
      | None | Some (FPrim PNone) =>
          match get_field tpl_field (fields i),
                count_of count_field default_count (fields i) with
          | Some (FTemplate tpl), Some n =>
              match build_and_setup tpl (Z.to_nat n) h with
              | Done (os, h') =>
                  Done (alter (assign list_field (FObjs os)) self h')
              | AssertionFailed => AssertionFailed
              | Stuck => Stuck
              end
          | _, _ => Stuck
          end
      | Some _ => AssertionFailed
      end
  end.

End Setup.

(** [self.setup()], by the class of [self]: [Vehicle.setup] builds
    [num_wheels] (default 4) wheels from [wheel_tpl] into [wheels],
    [Fleet.setup] builds [num_vehicles] (default 1) vehicles from
    [vehicle_tpl] into [vehicles]; [Wheel.setup] (inherited by
    [ColoredWheel]) and [Person.setup] return [self].  One unit of [fuel]
    per nested call. *)
Fixpoint setup (fuel : nat) (d : nat) (g : list node) (self : oref)
    (h : list instance) : result (list instance) :=
  match fuel with
  | 0 => Stuck
  | S fuel' =>
      match h !! self with
      | None => Stuck
      | Some i =>
          if String.eqb (itype i) "Vehicle" then
            setup_list d g (setup fuel' d g) "wheel_tpl" "num_wheels" 4
              "wheels" self h
          else if String.eqb (itype i) "Fleet" then
            setup_list d g (setup fuel' d g) "vehicle_tpl" "num_vehicles" 1
              "vehicles" self h
          else if existsb (String.eqb (itype i))
                    ["Wheel"; "ColoredWheel"; "Person"] then
            Done h
          else Stuck
      end
  end.

(** Everything [o] refers to, directly or not, lies in [[lo, hi)]. *)
Definition within (h : list instance) (o : oref) (lo hi : nat) : Prop :=
  forall x, sub_instance h o x -> lo <= x < hi.

(** The objects of [os] and what they refer to lie in consecutive,
    disjoint parts of [[lo, hi)]. *)
Fixpoint fresh_chain (h : list instance) (lo : nat) (os : list oref)
    (hi : nat) : Prop :=
  match os with
  | [] => lo <= hi
  | o :: os' => exists mid, within h o lo mid /\ fresh_chain h mid os' hi
  end.

(** No object is referred to, directly or not, by two objects of [os]. *)
Definition nothing_shared (h : list instance) (os : list oref) : Prop :=
  forall j1 j2 o1 o2 x1 x2,
    j1 <> j2 -> os !! j1 = Some o1 -> os !! j2 = Some o2 ->
    sub_instance h o1 x1 -> sub_instance h o2 x2 -> x1 <> x2.

(** The fleet of [test_build_and_setup_custom_fleet_config], with the
    owner shared with the manager as in [test_shared_vehicle_owners]. *)
Definition custom_fleet_graph : list node :=
  [ {| target := "Fleet";
       arguments := [("vehicle_tpl", ATemplate 1);
                     ("num_vehicles", APrim (PInt 3));
                     ("manager", ANode 2)] |};
    {| target := "Vehicle";
       arguments := [("wheel_tpl", ATemplate 3);
                     ("owner", ANode 2)] |};
    {| target := "Person"; arguments := [("name", APrim (PStr "Ben"))] |};
    {| target := "Wheel"; arguments := [("radius", APrim (PInt 10))] |} ].

(** A vehicle after [setup]: its [wheels] are [nw] objects of the class
    [wheel_class], no two of which share anything. *)
Definition vehicle_set_up (wheel_class : string) (nw : nat)
    (h : list instance) (v : oref) : Prop :=
  exists iv ws,
    h !! v = Some iv /\ itype iv = "Vehicle" /\
    get_field "wheels" (fields iv) = Some (FObjs ws) /\
    length ws = nw /\
    Forall (fun w => exists iw, h !! w = Some iw /\ itype iw = wheel_class)
      ws /\
    nothing_shared h ws.

(** ** The configuration graph, stated on the data model

    A value holds a template when it is that template or a sequence with the
    template among its elements: "a nested Config Node" or "an ordered
    sequence of Config Nodes". *)
Inductive holds : value -> ref -> Prop :=
| holds_template r : holds (VCfg r) r
| holds_element l r : VCfg r ∈ l -> holds (VSeq l) r.

(** [in_graph cs root r]: the template [r] belongs to the graph under
    [root]: [root] holds it, or an argument of a template that [root] holds
    has it in its own graph. *)
Inductive in_graph (cs : list config) : value -> ref -> Prop :=
| in_graph_root root r : holds root r -> in_graph cs root r
| in_graph_arg root r0 c0 name a r :
    holds root r0 ->
    cs !! r0 = Some c0 ->
    (name, a) ∈ args c0 ->
    in_graph cs a r ->
    in_graph cs root r.

(** The graph is a DAG: [rk] decreases from a template to every template
    its arguments hold. *)
Definition no_cycle (cs : list config) (rk : ref -> nat) : Prop :=
  forall r c name a r',
    cs !! r = Some c -> (name, a) ∈ args c -> holds a r' -> rk r' < rk r.

(** Two language models under one root: the first with a transformer block
    and a [SharedEmbeddingSoftmax], the second with a [FullSoftmax]. *)
Definition two_models_mixed : store :=
  {| cfgs :=
       [ {| cls := praxis_class "my_project.models" "Ensemble";
            quantization := None;
            args := [("models", VSeq [VCfg 1; VCfg 2])] |};
         {| cls := layers_TransformerLm; quantization := None;
            args := [("stacked_transformer_tpl", VCfg 5);
                     ("softmax_tpl", VCfg 3);
                     ("ngrammer_tpl", VNone)] |};
         {| cls := layers_TransformerLm; quantization := None;
            args := [("softmax_tpl", VCfg 4); ("ngrammer_tpl", VNone)] |};
         {| cls := layers_SharedEmbeddingSoftmax; quantization := None;
            args := [("num_classes", VInt 32000)] |};
         {| cls := FullSoftmax; quantization := None;
            args := [("num_classes", VInt 32000)] |};
         {| cls := layers_transformers_Transformer; quantization := None;
            args := [("tr_atten_tpl", VCfg 6); ("tr_fflayer_tpl", VCfg 7)] |};
         {| cls := layers_attentions_DotProductAttention;
            quantization := None; args := [("num_heads", VInt 8)] |};
         {| cls := praxis_class "praxis.layers.transformers"
                     "TransformerFeedForward";
            quantization := None; args := [("fflayer_tpl", VCfg 8)] |};
         {| cls := praxis_class "praxis.layers.linears" "FeedForward";
            quantization := None; args := [] |} ];
     quants := [] |}.

(** ** Properties *)
(** *** Association lists *)

Lemma assoc_set_eq name x l : assoc name (assoc_set name x l) = Some x.
Proof.
  induction l as [|[k v] l IH]; simpl.
  - now rewrite String.eqb_refl.
  - destruct (String.eqb k name) eqn:E; simpl; rewrite E; auto.
Qed.

Lemma assoc_set_ne name name' x l :
  name <> name' -> assoc name' (assoc_set name x l) = assoc name' l.
Proof.
  intros Hne. induction l as [|[k v] l IH]; simpl.
  - destruct (String.eqb name name') eqn:E; auto.
    apply String.eqb_eq in E. contradiction.
  - destruct (String.eqb k name) eqn:E; simpl.
    + apply String.eqb_eq in E. subst k.
      destruct (String.eqb name name') eqn:E'; auto.
      apply String.eqb_eq in E'. contradiction.
    + destruct (String.eqb k name'); auto.
Qed.

Lemma assoc_Some_in name v l : assoc name l = Some v -> In name (map fst l).
Proof.
  induction l as [|[k w] l IH]; simpl; [discriminate|].
  destruct (String.eqb k name) eqn:E; intros H.
  - apply String.eqb_eq in E. auto.
  - auto.
Qed.

(** *** The primitive store operations *)

Ltac run_prims :=
  unfold bind, new_QuantizationParams, pax_fiddle_Config, setattr, getattr,
    get_cls, copy_fields_from, ret, raise, when; cbn [cfgs quants negb].

Ltac len_solve :=
  repeat match goal with
         | H : @lookup _ _ _ _ ?i ?l = Some _ |- _ =>
             lazymatch goal with
             | _ : i < length l |- _ => fail
             | _ => pose proof (lookup_lt_Some l i _ H)
             end
         end;
  cbn [cfgs quants]; rewrite ?length_insert, ?length_app; cbn [length]; lia.

Ltac heap_step :=
  cbn [cfgs quants];
  first [ rewrite lookup_app_l by len_solve
        | rewrite list_lookup_insert_eq by len_solve
        | rewrite list_lookup_insert_ne by len_solve ].

Lemma bind_ok {A B} (m : M A) (k : A -> M B) s a s' :
  m s = (Ok a, s') -> bind m k s = k a s'.
Proof. unfold bind. now intros ->. Qed.

Lemma bind_raise {A B} (m : M A) (k : A -> M B) s e s' :
  m s = (Raise e, s') -> bind m k s = (Raise e, s').
Proof. unfold bind. now intros ->. Qed.

Lemma getattr_ok s r c name v :
  cfgs s !! r = Some c -> assoc name (args c) = Some v ->
  getattr (VCfg r) name s = (Ok v, s).
Proof. unfold getattr. now intros -> ->. Qed.

Lemma get_cls_ok s r c :
  cfgs s !! r = Some c -> get_cls (VCfg r) s = (Ok (cls c), s).
Proof. unfold get_cls. now intros ->. Qed.

(** *** Installing a new child template *)

Lemma install_run s parent cp name c kw qp :
  cfgs s !! parent = Some cp ->
  (let* q := new_QuantizationParams qp in
   let* new := pax_fiddle_Config c q kw in
   setattr (VCfg parent) name new) s
  = (Ok tt, install s parent cp name c kw qp).
Proof.
  intros Hp. run_prims. heap_step. now rewrite Hp.
Qed.

Lemma install_length_cfgs s parent cp name c kw qp :
  length (cfgs (install s parent cp name c kw qp)) = S (length (cfgs s)).
Proof. cbn. rewrite length_insert, length_app. cbn. lia. Qed.

Lemma install_length_quants s parent cp name c kw qp :
  length (quants (install s parent cp name c kw qp)) = S (length (quants s)).
Proof. cbn. rewrite length_app. cbn. lia. Qed.

Lemma install_lookup_parent s parent cp name c kw qp :
  cfgs s !! parent = Some cp ->
  cfgs (install s parent cp name c kw qp) !! parent
  = Some (set_arg name (VCfg (length (cfgs s))) cp).
Proof. intros Hp. unfold install. now heap_step. Qed.

Lemma install_lookup_other s parent cp name c kw qp r :
  r <> parent -> r < length (cfgs s) ->
  cfgs (install s parent cp name c kw qp) !! r = cfgs s !! r.
Proof. intros Hne Hlt. unfold install. now repeat heap_step. Qed.

Lemma install_lookup_new s parent cp name c kw qp :
  cfgs s !! parent = Some cp ->
  cfgs (install s parent cp name c kw qp) !! length (cfgs s)
  = Some {| cls := c; quantization := Some (length (quants s)); args := kw |}.
Proof.
  intros Hp. unfold install. heap_step.
  rewrite lookup_app_r by lia. now rewrite Nat.sub_diag.
Qed.

Lemma install_lookup_quant_new s parent cp name c kw qp :
  quants (install s parent cp name c kw qp) !! length (quants s) = Some qp.
Proof. cbn. rewrite lookup_app_r by lia. now rewrite Nat.sub_diag. Qed.

Lemma install_lookup_quant_old s parent cp name c kw qp q :
  q < length (quants s) ->
  quants (install s parent cp name c kw qp) !! q = quants s !! q.
Proof. intros. cbn. now rewrite lookup_app_l. Qed.

(** What an older template looks like after an installation: only the
    assigned argument of the parent differs. *)
Lemma install_lookup_old s parent cp name c kw qp r cr :
  cfgs s !! parent = Some cp ->
  cfgs s !! r = Some cr ->
  exists cr',
    cfgs (install s parent cp name c kw qp) !! r = Some cr' /\
    (r <> parent -> cr' = cr) /\
    cls cr' = cls cr /\ quantization cr' = quantization cr /\
    forall n, n <> name -> assoc n (args cr') = assoc n (args cr).
Proof.
  intros Hp Hr. destruct (decide (r = parent)) as [->|Hne].
  - exists (set_arg name (VCfg (length (cfgs s))) cp).
    rewrite install_lookup_parent by assumption.
    assert (cr = cp) by congruence. subst cr.
    repeat split; auto; try congruence.
    intros n Hn. cbn. now apply assoc_set_ne.
  - exists cr. rewrite install_lookup_other by (auto; len_solve).
    repeat split; auto.
Qed.

Lemma install_installed s parent cp name c kw qp :
  cfgs s !! parent = Some cp ->
  installed s (install s parent cp name c kw qp) parent name c kw qp.
Proof.
  intros Hp. exists (set_arg name (VCfg (length (cfgs s))) cp),
    (length (cfgs s)), (length (quants s)).
  rewrite install_lookup_parent, install_lookup_new, install_lookup_quant_new
    by assumption.
  cbn. rewrite assoc_set_eq. repeat split; auto.
Qed.

Lemma installed_weaken s0 s1 s p n c kw qp :
  length (cfgs s0) <= length (cfgs s1) ->
  length (quants s0) <= length (quants s1) ->
  installed s1 s p n c kw qp -> installed s0 s p n c kw qp.
Proof.
  intros Hc Hq (cp & r & q & H). exists cp, r, q.
  intuition lia.
Qed.

(** A later assignment to another argument, on a template that already
    existed, keeps what was installed. *)
Lemma installed_install s0 s p n c kw qp p' cp' n' c' kw' qp' :
  installed s0 s p n c kw qp ->
  cfgs s !! p' = Some cp' ->
  p' < length (cfgs s0) ->
  (p = p' -> n <> n') ->
  installed s0 (install s p' cp' n' c' kw' qp') p n c kw qp.
Proof.
  intros (cp & r & q & Hp & Hn & Hr & Hnode & Hq & Hqp) Hp' Hlt Hne.
  destruct (install_lookup_old s p' cp' n' c' kw' qp' p cp Hp' Hp)
    as (cp1 & Hp1 & _ & _ & _ & Hargs).
  exists cp1, r, q.
  rewrite (install_lookup_other _ _ _ _ _ _ _ r) by (try lia; len_solve).
  rewrite install_lookup_quant_old by len_solve.
  repeat split; auto.
  destruct (decide (p = p')) as [E|E].
  - rewrite Hargs by (apply Hne; exact E). exact Hn.
  - destruct (install_lookup_old s p' cp' n' c' kw' qp' p cp Hp' Hp)
      as (cp2 & Hp2 & Hsame & _).
    rewrite Hp1 in Hp2. injection Hp2 as <-. rewrite Hsame; auto.
Qed.

(** *** Attention *)

Lemma dpa_run s a ca qt m wp act :
  cfgs s !! a = Some ca ->
  quantize_dot_product_attention_layer_weights (VCfg a) qt m wp act s
  = (Ok tt,
     install
       (install s a ca "proj_tpl" quantization_AttentionProjection []
          (qparams qt m act wp))
       a (set_arg "proj_tpl" (VCfg (length (cfgs s))) ca)
       "combined_qkv_proj_tpl"
       quantization_attentions_CombinedQKVProjectionLayer []
       (qparams qt m act wp)).
Proof.
  intros Ha. unfold quantize_dot_product_attention_layer_weights.
  run_prims. heap_step. rewrite Ha. repeat heap_step.
  reflexivity.
Qed.

Lemma mq_run s a ca qt m wp act :
  cfgs s !! a = Some ca ->
  quantize_mq_dot_product_attention_layer_weights (VCfg a) qt m wp act s
  = (Ok tt,
     install
       (install s a ca "proj_tpl" quantization_attentions_AttentionProjection
          [] (qparams qt m act wp))
       a (set_arg "proj_tpl" (VCfg (length (cfgs s))) ca)
       "headless_proj_tpl"
       quantization_multi_query_attention_OneHeadedAttentionProjection []
       (qparams qt m act wp)).
Proof.
  intros Ha. unfold quantize_mq_dot_product_attention_layer_weights.
  run_prims. heap_step. rewrite Ha. repeat heap_step.
  reflexivity.
Qed.

(** Two installations in a row on the same template. *)
Lemma install_twice_installed s a ca n1 c1 qp1 n2 c2 qp2 :
  cfgs s !! a = Some ca -> n1 <> n2 ->
  let s' := install (install s a ca n1 c1 [] qp1) a
              (set_arg n1 (VCfg (length (cfgs s))) ca) n2 c2 [] qp2 in
  installed s s' a n1 c1 [] qp1 /\ installed s s' a n2 c2 [] qp2.
Proof.
  intros Ha Hne s'. subst s'. split.
  - apply installed_install; auto.
    + now apply install_installed.
    + now apply install_lookup_parent.
    + len_solve.
  - eapply installed_weaken;
      [ | | apply install_installed; now apply install_lookup_parent ].
    + rewrite install_length_cfgs. lia.
    + rewrite install_length_quants. lia.
Qed.

Lemma attention_run s tr ctr a ca qt m wp act :
  cfgs s !! tr = Some ctr ->
  assoc "tr_atten_tpl" (args ctr) = Some (VCfg a) ->
  cfgs s !! a = Some ca ->
  quantize_attention_layer_weights (VCfg tr) qt m wp act s
  = if issubclass (cls ca) layers_attentions_DotProductAttention then
      quantize_dot_product_attention_layer_weights (VCfg a) qt m wp act s
    else if str_contains "MultiQueryDotProductAttention" (cls_name (cls ca))
    then quantize_mq_dot_product_attention_layer_weights (VCfg a) qt m wp act s
    else (Raise (unsupported_attention (cls ca)), s).
Proof.
  intros Htr Hat Ha. unfold quantize_attention_layer_weights.
  rewrite (bind_ok _ _ _ _ _ (getattr_ok _ _ _ _ _ Htr Hat)).
  rewrite (bind_ok _ _ _ _ _ (get_cls_ok _ _ _ Ha)).
  destruct (issubclass (cls ca) layers_attentions_DotProductAttention).
  - now rewrite (bind_ok _ _ _ _ _ (getattr_ok _ _ _ _ _ Htr Hat)).
  - rewrite (bind_ok _ _ _ _ _ (getattr_ok _ _ _ _ _ Htr Hat)).
    rewrite (bind_ok _ _ _ _ _ (get_cls_ok _ _ _ Ha)).
    destruct (str_contains _ _).
    + now rewrite (bind_ok _ _ _ _ _ (getattr_ok _ _ _ _ _ Htr Hat)).
    + rewrite (bind_ok _ _ _ _ _ (getattr_ok _ _ _ _ _ Htr Hat)).
      now rewrite (bind_ok _ _ _ _ _ (get_cls_ok _ _ _ Ha)).
Qed.

(** C2. [quantize_attention_layer_weights] dispatches on the class of the
    attention sub-template: a subclass of [DotProductAttention] gets the
    quantized [AttentionProjection] and [CombinedQKVProjectionLayer]
    templates; otherwise a class whose [__name__] contains
    [MultiQueryDotProductAttention] gets the quantized [AttentionProjection]
    and [OneHeadedAttentionProjection] templates; any other class makes the
    call raise a [ValueError] whose message shows that class, with the store
    as it was. *)
Theorem quantize_attention_layer_weights_dispatch
    s tr ctr a ca qt m wp act :
  cfgs s !! tr = Some ctr ->
  assoc "tr_atten_tpl" (args ctr) = Some (VCfg a) ->
  cfgs s !! a = Some ca ->
  let run := quantize_attention_layer_weights (VCfg tr) qt m wp act s in
  if issubclass (cls ca) layers_attentions_DotProductAttention then
    exists s',
      run = (Ok tt, s') /\
      installed s s' a "proj_tpl" quantization_AttentionProjection []
        (qparams qt m act wp) /\
      installed s s' a "combined_qkv_proj_tpl"
        quantization_attentions_CombinedQKVProjectionLayer []
        (qparams qt m act wp)
  else if str_contains "MultiQueryDotProductAttention" (cls_name (cls ca))
  then
    exists s',
      run = (Ok tt, s') /\
      installed s s' a "proj_tpl"
        quantization_attentions_AttentionProjection []
        (qparams qt m act wp) /\
      installed s s' a "headless_proj_tpl"
        quantization_multi_query_attention_OneHeadedAttentionProjection []
        (qparams qt m act wp)
  else
    run = (Raise (ValueError
                    ("tr_tpl.tr_atten_tpl.cls is : " +:+ class_repr (cls ca)
                     +:+ "but has to be DotProductAttention or MultiQueryDotProductAttention")),
           s).
Proof.
  intros Htr Hat Ha run. subst run.
  rewrite (attention_run _ _ _ _ _ _ _ _ _ Htr Hat Ha).
  destruct (issubclass _ _); [|destruct (str_contains _ _)].
  - rewrite (dpa_run _ _ _ _ _ _ _ Ha). eexists. split; [reflexivity|].
    apply install_twice_installed; [assumption|discriminate].
  - rewrite (mq_run _ _ _ _ _ _ _ Ha). eexists. split; [reflexivity|].
    apply install_twice_installed; [assumption|discriminate].
  - reflexivity.
Qed.

(** *** Feed-forward and the whole transformer block *)

Lemma ff_run s f1 c1 f2 c2 qt m wp act rank :
  cfgs s !! f1 = Some c1 ->
  assoc "fflayer_tpl" (args c1) = Some (VCfg f2) ->
  cfgs s !! f2 = Some c2 ->
  quantize_transformer_feed_forward_layer_weights (VCfg f1) qt m wp act rank s
  = (Ok tt,
     install s f2 c2 "linear_tpl" quantization_Linear [("rank", VInt rank)]
       (qparams qt m act wp)).
Proof.
  intros H1 Hff H2. unfold quantize_transformer_feed_forward_layer_weights.
  run_prims. heap_step. rewrite H1, Hff. heap_step. now rewrite H2.
Qed.

(** After two installations on [a], the other arguments of every older
    template are as before. *)
Lemma install_twice_lookup_old s a ca n1 c1 kw1 qp1 n2 c2 kw2 qp2 r cr :
  cfgs s !! a = Some ca ->
  cfgs s !! r = Some cr ->
  exists cr',
    cfgs (install (install s a ca n1 c1 kw1 qp1) a
            (set_arg n1 (VCfg (length (cfgs s))) ca) n2 c2 kw2 qp2) !! r
    = Some cr' /\
    forall n, n <> n1 -> n <> n2 -> assoc n (args cr') = assoc n (args cr).
Proof.
  intros Ha Hr.
  destruct (install_lookup_old s a ca n1 c1 kw1 qp1 r cr Ha Hr)
    as (cr1 & Hr1 & _ & _ & _ & Hargs1).
  pose proof (install_lookup_parent s a ca n1 c1 kw1 qp1 Ha) as Ha1.
  destruct (install_lookup_old _ a _ n2 c2 kw2 qp2 r cr1 Ha1 Hr1)
    as (cr2 & Hr2 & _ & _ & _ & Hargs2).
  exists cr2. split; [exact Hr2|].
  intros n Hn1 Hn2. rewrite Hargs2, Hargs1; auto.
Qed.

Lemma transformer_linear_only_run s tr ctr f1 c1 f2 c2 qt m wp act rank :
  cfgs s !! tr = Some ctr ->
  assoc "tr_fflayer_tpl" (args ctr) = Some (VCfg f1) ->
  cfgs s !! f1 = Some c1 ->
  assoc "fflayer_tpl" (args c1) = Some (VCfg f2) ->
  cfgs s !! f2 = Some c2 ->
  quantize_transformer_layer_weights (VCfg tr) qt m wp act true rank s
  = (Ok tt,
     install s f2 c2 "linear_tpl" quantization_Linear [("rank", VInt rank)]
       (qparams qt m act wp)).
Proof.
  intros Htr Hfl H1 Hff H2. unfold quantize_transformer_layer_weights.
  cbn [negb when]. unfold bind at 1, ret at 1.
  rewrite (bind_ok _ _ _ _ _ (getattr_ok _ _ _ _ _ Htr Hfl)).
  eapply ff_run; eassumption.
Qed.

(** The feed-forward step after the attention step has installed two
    projections on [a]. *)
Lemma transformer_after_attention
    s tr ctr f1 c1 f2 c2 a ca n2 cA cB qt m wp act rank :
  cfgs s !! tr = Some ctr ->
  assoc "tr_fflayer_tpl" (args ctr) = Some (VCfg f1) ->
  cfgs s !! f1 = Some c1 ->
  assoc "fflayer_tpl" (args c1) = Some (VCfg f2) ->
  cfgs s !! f2 = Some c2 ->
  cfgs s !! a = Some ca ->
  n2 = "combined_qkv_proj_tpl" \/ n2 = "headless_proj_tpl" ->
  let s2 := install (install s a ca "proj_tpl" cA [] (qparams qt m act wp)) a
              (set_arg "proj_tpl" (VCfg (length (cfgs s))) ca) n2 cB []
              (qparams qt m act wp) in
  exists s',
    (let* tr_fflayer_tpl := getattr (VCfg tr) "tr_fflayer_tpl" in
     quantize_transformer_feed_forward_layer_weights tr_fflayer_tpl qt m wp
       act rank) s2 = (Ok tt, s') /\
    installed s s' a "proj_tpl" cA [] (qparams qt m act wp) /\
    installed s s' a n2 cB [] (qparams qt m act wp) /\
    installed s s' f2 "linear_tpl" quantization_Linear [("rank", VInt rank)]
      (qparams qt m act wp).
Proof.
  intros Htr Hfl H1 Hff H2 Ha Hn2 s2.
  assert (Hne : "proj_tpl" <> n2) by (destruct Hn2; subst; discriminate).
  destruct (install_twice_lookup_old s a ca "proj_tpl" cA []
              (qparams qt m act wp) n2 cB [] (qparams qt m act wp) tr ctr
              Ha Htr) as (ctr' & Htr' & Hargs_tr).
  destruct (install_twice_lookup_old s a ca "proj_tpl" cA []
              (qparams qt m act wp) n2 cB [] (qparams qt m act wp) f1 c1
              Ha H1) as (c1' & H1' & Hargs_1).
  destruct (install_twice_lookup_old s a ca "proj_tpl" cA []
              (qparams qt m act wp) n2 cB [] (qparams qt m act wp) f2 c2
              Ha H2) as (c2' & H2' & _).
  fold s2 in Htr', H1', H2'.
  assert (Hfl' : assoc "tr_fflayer_tpl" (args ctr') = Some (VCfg f1)).
  { rewrite Hargs_tr; auto; destruct Hn2; subst; discriminate. }
  assert (Hff' : assoc "fflayer_tpl" (args c1') = Some (VCfg f2)).
  { rewrite Hargs_1; auto; destruct Hn2; subst; discriminate. }
  eexists. split.
  { rewrite (bind_ok _ _ _ _ _ (getattr_ok _ _ _ _ _ Htr' Hfl')).
    apply (ff_run s2 f1 c1' f2 c2'); assumption. }
  destruct (install_twice_installed s a ca "proj_tpl" cA
              (qparams qt m act wp) n2 cB (qparams qt m act wp) Ha Hne)
    as [HA HB].
  fold s2 in HA, HB.
  split; [|split].
  - apply installed_install;
      [exact HA | exact H2' | len_solve | intros _; discriminate].
  - apply installed_install; [exact HB | exact H2' | len_solve |].
    intros _. destruct Hn2; subst; discriminate.
  - eapply installed_weaken; [| |apply install_installed; exact H2'].
    + subst s2. rewrite !install_length_cfgs. lia.
    + subst s2. rewrite !install_length_quants. lia.
Qed.

(** C1 (as amended).  With [linear_only] the call only installs the quantized
    [Linear] template: every other template, the attention sub-template
    included, is as before.  Without it, a recognised attention family gets
    its projections rewritten and the [Linear] template is installed as well,
    while an unrecognised attention class makes the call raise before
    anything is changed. *)
Theorem quantize_transformer_layer_weights_spec
    s tr ctr f1 c1 f2 c2 qt m wp act rank :
  cfgs s !! tr = Some ctr ->
  assoc "tr_fflayer_tpl" (args ctr) = Some (VCfg f1) ->
  cfgs s !! f1 = Some c1 ->
  assoc "fflayer_tpl" (args c1) = Some (VCfg f2) ->
  cfgs s !! f2 = Some c2 ->
  let run linear_only :=
    quantize_transformer_layer_weights (VCfg tr) qt m wp act linear_only
      rank s in
  let linear_installed s' :=
    installed s s' f2 "linear_tpl" quantization_Linear [("rank", VInt rank)]
      (qparams qt m act wp) in
  (exists s',
     run true = (Ok tt, s') /\
     linear_installed s' /\
     (forall r, r <> f2 -> r < length (cfgs s) ->
                cfgs s' !! r = cfgs s !! r) /\
     child s' tr "tr_atten_tpl" = child s tr "tr_atten_tpl") /\
  (forall a ca,
     assoc "tr_atten_tpl" (args ctr) = Some (VCfg a) ->
     cfgs s !! a = Some ca ->
     if issubclass (cls ca) layers_attentions_DotProductAttention then
       exists s',
         run false = (Ok tt, s') /\
         installed s s' a "proj_tpl" quantization_AttentionProjection []
           (qparams qt m act wp) /\
         installed s s' a "combined_qkv_proj_tpl"
           quantization_attentions_CombinedQKVProjectionLayer []
           (qparams qt m act wp) /\
         linear_installed s'
     else if str_contains "MultiQueryDotProductAttention" (cls_name (cls ca))
     then
       exists s',
         run false = (Ok tt, s') /\
         installed s s' a "proj_tpl"
           quantization_attentions_AttentionProjection []
           (qparams qt m act wp) /\
         installed s s' a "headless_proj_tpl"
           quantization_multi_query_attention_OneHeadedAttentionProjection []
           (qparams qt m act wp) /\
         linear_installed s'
     else
       run false = (Raise (unsupported_attention (cls ca)), s)).
Proof.
  intros Htr Hfl H1 Hff H2 run linear_installed. split.
  - eexists. split; [eapply transformer_linear_only_run; eassumption|].
    split; [now apply install_installed|]. split.
    + intros r Hne Hlt. now apply install_lookup_other.
    + unfold child.
      destruct (install_lookup_old s f2 c2 "linear_tpl" quantization_Linear
                  [("rank", VInt rank)] (qparams qt m act wp) tr ctr H2 Htr)
        as (ctr' & Htr' & _ & _ & _ & Hargs).
      rewrite Htr', Htr, Hargs; [reflexivity|discriminate].
  - intros a ca Hat Ha. subst run. cbv beta.
    assert (Hrun :
      quantize_transformer_layer_weights (VCfg tr) qt m wp act false rank s
      = bind (fun s0 => if issubclass (cls ca)
                             layers_attentions_DotProductAttention
               then quantize_dot_product_attention_layer_weights (VCfg a) qt
                      m wp act s
               else if str_contains "MultiQueryDotProductAttention"
                         (cls_name (cls ca))
               then quantize_mq_dot_product_attention_layer_weights (VCfg a)
                      qt m wp act s
               else (Raise (unsupported_attention (cls ca)), s))
          (fun _ =>
             let* tr_fflayer_tpl := getattr (VCfg tr) "tr_fflayer_tpl" in
             quantize_transformer_feed_forward_layer_weights tr_fflayer_tpl
               qt m wp act rank) s).
    { unfold quantize_transformer_layer_weights. cbn [negb when].
      unfold bind at 1 3.
      now rewrite (attention_run _ _ _ _ _ _ _ _ _ Htr Hat Ha). }
    rewrite Hrun. clear Hrun. unfold bind at 1.
    destruct (issubclass _ _); [|destruct (str_contains _ _)].
    + rewrite (dpa_run _ _ _ _ _ _ _ Ha).
      apply (transformer_after_attention s tr ctr f1 c1 f2 c2 a ca);
        auto.
    + rewrite (mq_run _ _ _ _ _ _ _ Ha).
      apply (transformer_after_attention s tr ctr f1 c1 f2 c2 a ca);
        auto.
    + reflexivity.
Qed.

(** *** Copying fields *)

Lemma copy_args_keep src f v ns dst :
  assoc f src = Some v ->
  assoc f dst = Some v ->
  assoc f
    (fold_left
       (fun acc name =>
          match assoc name src with
          | Some v => assoc_set name v acc
          | None => acc
          end) ns dst) = Some v.
Proof.
  intros Hsrc. revert dst. induction ns as [|k ns IH]; intros dst Hdst.
  - exact Hdst.
  - cbn [fold_left]. apply IH.
    destruct (assoc k src) as [w|] eqn:Hk; [|exact Hdst].
    destruct (decide (k = f)) as [->|Hne].
    + rewrite Hsrc in Hk. injection Hk as <-. apply assoc_set_eq.
    + now rewrite assoc_set_ne.
Qed.

Lemma copy_args_set src f v ns dst :
  assoc f src = Some v ->
  In f ns ->
  assoc f
    (fold_left
       (fun acc name =>
          match assoc name src with
          | Some v => assoc_set name v acc
          | None => acc
          end) ns dst) = Some v.
Proof.
  intros Hsrc. revert dst. induction ns as [|k ns IH]; intros dst Hin.
  - destruct Hin.
  - cbn [fold_left]. destruct Hin as [->|Hin].
    + apply copy_args_keep; [assumption|].
      rewrite Hsrc. apply assoc_set_eq.
    + now apply IH.
Qed.

(** Every field set on the source is set, to the same value, on the
    receiver. *)
Lemma copy_args_assoc src dst f v :
  assoc f src = Some v -> assoc f (copy_args src dst) = Some v.
Proof.
  intros H. unfold copy_args. apply copy_args_set; [assumption|].
  eapply assoc_Some_in; eauto.
Qed.

(** The store after a new template of class [c] has received the fields of
    [old] and has been assigned to [parent.name]. *)
Lemma install_copy_run s parent cp name old cold c qp :
  cfgs s !! parent = Some cp ->
  assoc name (args cp) = Some (VCfg old) ->
  cfgs s !! old = Some cold ->
  (let* new :=
     (let* q := new_QuantizationParams qp in pax_fiddle_Config c q []) in
   let* old_tpl := getattr (VCfg parent) name in
   copy_fields_from new old_tpl ;;;
   setattr (VCfg parent) name new) s
  = (Ok tt, install s parent cp name c (copy_args (args cold) []) qp).
Proof.
  intros Hp Hn Hold. run_prims. heap_step. rewrite Hp, Hn.
  cbn [cfgs quants].
  rewrite lookup_app_r by lia. rewrite Nat.sub_diag. cbn [lookup list_lookup].
  heap_step. rewrite Hold. repeat heap_step. rewrite Hp.
  unfold install. do 3 f_equal.
  rewrite insert_app_r_alt by lia. now rewrite Nat.sub_diag.
Qed.

(** *** Embedding softmax *)

Lemma softmax_run s lm clm old cold qt m wp transposed :
  cfgs s !! lm = Some clm ->
  assoc "softmax_tpl" (args clm) = Some (VCfg old) ->
  cfgs s !! old = Some cold ->
  _quantize_embedding_softmax_layer_weights (VCfg lm) qt m wp transposed s
  = if issubclass (cls cold) layers_SharedEmbeddingSoftmax then
      (Ok tt,
       install s lm clm "softmax_tpl"
         (if transposed then quantization_NClassMajorSharedEmbeddingSoftmax
          else quantization_SharedEmbeddingSoftmax)
         (copy_args (args cold) []) (qparams qt m None wp))
    else
      (Raise (ValueError ("lm_tpl.softmax_tpl.cls is : "
                          +:+ class_repr (cls cold)
                          +:+ "but has to be layers.SharedEmbeddingSoftmax")),
       s).
Proof.
  intros Hlm Hsm Hold. unfold _quantize_embedding_softmax_layer_weights.
  rewrite (bind_ok _ _ _ _ _ (getattr_ok _ _ _ _ _ Hlm Hsm)).
  rewrite (bind_ok _ _ _ _ _ (get_cls_ok _ _ _ Hold)).
  destruct (issubclass _ _); [|reflexivity].
  destruct transposed;
    apply (install_copy_run s lm clm "softmax_tpl" old cold); assumption.
Qed.

(** *** Ngrammer *)

Lemma ngrammer_run s lm clm old cold qt m wp :
  cfgs s !! lm = Some clm ->
  assoc "ngrammer_tpl" (args clm) = Some (VCfg old) ->
  cfgs s !! old = Some cold ->
  _quantize_ngrammer_embedding_weights (VCfg lm) qt m wp s
  = if issubclass (cls cold) layers_ngrammer_Ngrammer then
      (Ok tt,
       install s lm clm "ngrammer_tpl" quantization_Ngrammer
         (copy_args (args cold) []) (qparams qt m None wp))
    else if issubclass (cls cold) layers_ngrammer_VQNgrammer then
      (Ok tt,
       install s lm clm "ngrammer_tpl" quantization_VQNgrammer
         (copy_args (args cold) []) (qparams qt m None wp))
    else (Ok tt, s).
Proof.
  intros Hlm Hng Hold. unfold _quantize_ngrammer_embedding_weights.
  rewrite (bind_ok _ _ _ _ _ (getattr_ok _ _ _ _ _ Hlm Hng)).
  rewrite (bind_ok _ _ _ _ _ (get_cls_ok _ _ _ Hold)).
  destruct (issubclass _ layers_ngrammer_Ngrammer);
    [|destruct (issubclass _ layers_ngrammer_VQNgrammer)].
  - apply (install_copy_run s lm clm "ngrammer_tpl" old cold); assumption.
  - apply (install_copy_run s lm clm "ngrammer_tpl" old cold); assumption.
  - reflexivity.
Qed.

Lemma ngrammer_none_run s lm clm qt m wp :
  cfgs s !! lm = Some clm ->
  assoc "ngrammer_tpl" (args clm) = Some VNone ->
  _quantize_ngrammer_embedding_weights (VCfg lm) qt m wp s = (Ok tt, s).
Proof.
  intros Hlm Hng. unfold _quantize_ngrammer_embedding_weights.
  now rewrite (bind_ok _ _ _ _ _ (getattr_ok _ _ _ _ _ Hlm Hng)).
Qed.

(** ** C2: attention dispatch, at an unsupported attention class *)

Lemma quantize_attention_layer_weights_dispatch_witness :
  cfgs lm_unsupported_attention !! 2
  = Some {| cls := layers_transformers_Transformer; quantization := None;
            args := [("tr_atten_tpl", VCfg 3); ("tr_fflayer_tpl", VCfg 5)] |}
  /\ cfgs lm_unsupported_attention !! 3
     = Some {| cls := LinearAttention; quantization := None;
               args := [("num_heads", VInt 8); ("proj_tpl", VCfg 4)] |}
  /\ quantize_attention_layer_weights (VCfg 2) PTQ INFERENCE sample_wp None
       lm_unsupported_attention
     = (Raise (ValueError
          "tr_tpl.tr_atten_tpl.cls is : <class 'my_project.layers.LinearAttention'>but has to be DotProductAttention or MultiQueryDotProductAttention"),
        lm_unsupported_attention).
Proof.
  split; [reflexivity|]. split; [reflexivity|].
  exact (quantize_attention_layer_weights_dispatch lm_unsupported_attention
           2 _ 3 _ PTQ INFERENCE sample_wp None
           eq_refl eq_refl eq_refl).
Defined.

(** The two recognised families, evaluated: a class that derives from
    [DotProductAttention] under another name goes the first way, and a class
    that only has [MultiQueryDotProductAttention] in its name goes the
    second. *)
Example quantize_attention_by_subclass :
  let local_attention :=
    {| qualname := "praxis.layers.attentions.LocalSelfAttention";
       cls_name := "LocalSelfAttention";
       bases := ["praxis.layers.attentions.DotProductAttention"] |} in
  let s := sample_lm local_attention layers_SharedEmbeddingSoftmax VNone
             layers_ngrammer_Ngrammer in
  let run :=
    quantize_attention_layer_weights (VCfg 2) PTQ INFERENCE sample_wp None s in
  fst run = Ok tt /\
  (cls <$> (child (snd run) 3 "proj_tpl" ≫= fun r => cfgs (snd run) !! r))
  = Some quantization_AttentionProjection /\
  (cls <$> (child (snd run) 3 "combined_qkv_proj_tpl"
            ≫= fun r => cfgs (snd run) !! r))
  = Some quantization_attentions_CombinedQKVProjectionLayer /\
  child (snd run) 3 "headless_proj_tpl" = None.
Proof.
  cbv zeta. split; [vm_compute; reflexivity|].
  split; [vm_compute; reflexivity|].
  split; vm_compute; reflexivity.
Qed.

Example quantize_attention_by_name :
  let s := sample_lm MultiQueryDotProductAttention
             layers_SharedEmbeddingSoftmax VNone layers_ngrammer_Ngrammer in
  let run :=
    quantize_attention_layer_weights (VCfg 2) PTQ INFERENCE sample_wp None s in
  fst run = Ok tt /\
  (cls <$> (child (snd run) 3 "proj_tpl" ≫= fun r => cfgs (snd run) !! r))
  = Some quantization_attentions_AttentionProjection /\
  (cls <$> (child (snd run) 3 "headless_proj_tpl"
            ≫= fun r => cfgs (snd run) !! r))
  = Some quantization_multi_query_attention_OneHeadedAttentionProjection /\
  child (snd run) 3 "combined_qkv_proj_tpl" = None.
Proof.
  cbv zeta. split; [vm_compute; reflexivity|].
  split; [vm_compute; reflexivity|].
  split; vm_compute; reflexivity.
Qed.

(** ** C1 *)

(** C1, counterexample.  Without [linear_only], on a transformer block whose
    attention class is not recognised, the call raises and the linear
    template of the feed-forward layer is still the original one: it has not
    been replaced by the quantized [Linear]. *)
Lemma quantize_transformer_layer_weights_counterexample :
  let s := lm_unsupported_attention in
  let run :=
    quantize_transformer_layer_weights (VCfg 2) PTQ INFERENCE sample_wp None
      false (-1) s in
  fst run = Raise (unsupported_attention LinearAttention) /\
  child (snd run) 6 "linear_tpl" = Some 9 /\
  (cls <$> cfgs (snd run) !! 9)
  = Some (praxis_class "praxis.layers.linears" "Linear") /\
  ~ exists qp,
      installed s (snd run) 6 "linear_tpl" quantization_Linear
        [("rank", VInt (-1))] qp.
Proof.
  cbv zeta. repeat split; try reflexivity.
  intros (qp & cp & r & q & Hp & Hn & Hr & _).
  vm_compute in Hp. injection Hp as <-.
  vm_compute in Hn. injection Hn as <-.
  vm_compute in Hr. lia.
Qed.

Lemma quantize_transformer_layer_weights_spec_witness :
  let s := lm_dot_product in
  cfgs s !! 2
  = Some {| cls := layers_transformers_Transformer; quantization := None;
            args := [("tr_atten_tpl", VCfg 3); ("tr_fflayer_tpl", VCfg 5)] |}
  /\ child s 2 "tr_fflayer_tpl" = Some 5
  /\ child s 5 "fflayer_tpl" = Some 6
  /\ is_Some (cfgs s !! 6)
  /\ (exists s',
        quantize_transformer_layer_weights (VCfg 2) PTQ INFERENCE sample_wp
          None true (-1) s = (Ok tt, s') /\
        installed s s' 6 "linear_tpl" quantization_Linear
          [("rank", VInt (-1))] (qparams PTQ INFERENCE None sample_wp) /\
        cfgs s' !! 3 = cfgs s !! 3 /\
        child s' 2 "tr_atten_tpl" = Some 3).
Proof.
  cbv zeta. split; [reflexivity|]. split; [reflexivity|].
  split; [reflexivity|]. split; [eexists; reflexivity|].
  destruct (quantize_transformer_layer_weights_spec lm_dot_product
              2 _ 5 _ 6 _ PTQ INFERENCE sample_wp None (-1)
              eq_refl eq_refl eq_refl eq_refl eq_refl)
    as [(s' & Hrun & Hlin & Hframe & Hchild) _].
  exists s'. split; [exact Hrun|]. split; [exact Hlin|].
  split; [apply Hframe; [discriminate|vm_compute; lia]|exact Hchild].
Defined.

(** *** Loops *)

Lemma for_each_cons {A} (x : A) xs body s :
  for_each (x :: xs) body s
  = match body x s with
    | (Ok _, s') => for_each xs body s'
    | (Raise e, s') => (Raise e, s')
    end.
Proof. reflexivity. Qed.

Lemma for_each_app {A} (xs ys : list A) body s :
  for_each (xs ++ ys) body s
  = match for_each xs body s with
    | (Ok _, s') => for_each ys body s'
    | (Raise e, s') => (Raise e, s')
    end.
Proof.
  revert s. induction xs as [|x xs IH]; intros s; [reflexivity|].
  cbn [app]. rewrite !for_each_cons.
  destruct (body x s) as [[[]|e] s1]; [apply IH|reflexivity].
Qed.

Lemma conv_run find config target d cd v qt m num_bits use_symmetric
    weight_quant_only dtype s :
  find (cfgs s) config target = [VCfg d] ->
  cfgs s !! d = Some cd ->
  assoc "conv_tpl" (args cd) = Some v ->
  set_diffusion_quantization find config target qt m num_bits use_symmetric
    weight_quant_only dtype s
  = (Ok tt,
     install s d cd "conv_tpl" quantization_Conv2D []
       (qparams qt m (act_quantization_params_of weight_quant_only num_bits)
          (diffusion_weight_params num_bits use_symmetric dtype))).
Proof.
  intros Hfind Hd Hconv. unfold set_diffusion_quantization.
  cbv zeta. unfold bind at 1. rewrite Hfind.
  rewrite for_each_cons. unfold bind at 1, hasattr.
  rewrite (getattr_ok _ _ _ _ _ Hd Hconv). cbn [when].
  rewrite (install_run s d cd "conv_tpl" quantization_Conv2D [] _ Hd).
  reflexivity.
Qed.

(** ** C3 *)

(** C3 (as amended).  Only the embedding-softmax and the ngrammer
    substitutions copy the fields set on the original child template onto the
    replacement, whose [quantization] argument is the new one.  The attention
    projection, combined-QKV, one-headed projection, feed-forward linear and
    convolution substitutions install a new template whose only arguments are
    its [quantization] (and [rank] for the linear template): nothing is taken
    from the template it replaces. *)
Theorem child_template_fields s qt m wp :
  (forall lm clm old cold transposed,
     cfgs s !! lm = Some clm ->
     assoc "softmax_tpl" (args clm) = Some (VCfg old) ->
     cfgs s !! old = Some cold ->
     issubclass (cls cold) layers_SharedEmbeddingSoftmax = true ->
     exists s' new,
       _quantize_embedding_softmax_layer_weights (VCfg lm) qt m wp
         transposed s = (Ok tt, s') /\
       child s' lm "softmax_tpl" = Some new /\
       length (cfgs s) <= new /\
       fields_carried s s' old new /\
       installed s s' lm "softmax_tpl"
         (if transposed then quantization_NClassMajorSharedEmbeddingSoftmax
          else quantization_SharedEmbeddingSoftmax)
         (copy_args (args cold) []) (qparams qt m None wp)) /\
  (forall lm clm old cold,
     cfgs s !! lm = Some clm ->
     assoc "ngrammer_tpl" (args clm) = Some (VCfg old) ->
     cfgs s !! old = Some cold ->
     issubclass (cls cold) layers_ngrammer_Ngrammer
     || issubclass (cls cold) layers_ngrammer_VQNgrammer = true ->
     exists s' new,
       _quantize_ngrammer_embedding_weights (VCfg lm) qt m wp s
       = (Ok tt, s') /\
       child s' lm "ngrammer_tpl" = Some new /\
       length (cfgs s) <= new /\
       fields_carried s s' old new /\
       installed s s' lm "ngrammer_tpl"
         (if issubclass (cls cold) layers_ngrammer_Ngrammer
          then quantization_Ngrammer else quantization_VQNgrammer)
         (copy_args (args cold) []) (qparams qt m None wp)) /\
  (forall a ca act,
     cfgs s !! a = Some ca ->
     exists s',
       quantize_dot_product_attention_layer_weights (VCfg a) qt m wp act s
       = (Ok tt, s') /\
       installed s s' a "proj_tpl" quantization_AttentionProjection []
         (qparams qt m act wp) /\
       installed s s' a "combined_qkv_proj_tpl"
         quantization_attentions_CombinedQKVProjectionLayer []
         (qparams qt m act wp)) /\
  (forall a ca act,
     cfgs s !! a = Some ca ->
     exists s',
       quantize_mq_dot_product_attention_layer_weights (VCfg a) qt m wp act s
       = (Ok tt, s') /\
       installed s s' a "proj_tpl"
         quantization_attentions_AttentionProjection []
         (qparams qt m act wp) /\
       installed s s' a "headless_proj_tpl"
         quantization_multi_query_attention_OneHeadedAttentionProjection []
         (qparams qt m act wp)) /\
  (forall f1 c1 f2 c2 act rank,
     cfgs s !! f1 = Some c1 ->
     assoc "fflayer_tpl" (args c1) = Some (VCfg f2) ->
     cfgs s !! f2 = Some c2 ->
     exists s',
       quantize_transformer_feed_forward_layer_weights (VCfg f1) qt m wp act
         rank s = (Ok tt, s') /\
       installed s s' f2 "linear_tpl" quantization_Linear
         [("rank", VInt rank)] (qparams qt m act wp)) /\
  (forall find config target d cd v num_bits use_symmetric weight_quant_only
          dtype,
     find (cfgs s) config target = [VCfg d] ->
     cfgs s !! d = Some cd ->
     assoc "conv_tpl" (args cd) = Some v ->
     exists s',
       set_diffusion_quantization find config target qt m num_bits
         use_symmetric weight_quant_only dtype s = (Ok tt, s') /\
       installed s s' d "conv_tpl" quantization_Conv2D []
         (qparams qt m
            (act_quantization_params_of weight_quant_only num_bits)
            (diffusion_weight_params num_bits use_symmetric dtype))).
Proof.
  repeat apply conj.
  - intros lm clm old cold transposed Hlm Hsm Hold Hsub.
    pose proof (softmax_run s lm clm old cold qt m wp transposed Hlm Hsm Hold)
      as Hrun.
    rewrite Hsub in Hrun. eexists _, (length (cfgs s)).
    split; [exact Hrun|]. split; [|split; [lia|split]].
    + unfold child. rewrite install_lookup_parent by assumption.
      cbn. now rewrite assoc_set_eq.
    + intros c_old f v Hc Hf. rewrite Hold in Hc. injection Hc as <-.
      eexists. split; [now apply install_lookup_new|].
      cbn. now apply copy_args_assoc.
    + now apply install_installed.
  - intros lm clm old cold Hlm Hng Hold Hsub.
    pose proof (ngrammer_run s lm clm old cold qt m wp Hlm Hng Hold) as Hrun.
    assert (Hrun' :
      _quantize_ngrammer_embedding_weights (VCfg lm) qt m wp s
      = (Ok tt,
         install s lm clm "ngrammer_tpl"
           (if issubclass (cls cold) layers_ngrammer_Ngrammer
            then quantization_Ngrammer else quantization_VQNgrammer)
           (copy_args (args cold) []) (qparams qt m None wp))).
    { rewrite Hrun.
      destruct (issubclass (cls cold) layers_ngrammer_Ngrammer);
        [reflexivity|].
      cbn [orb] in Hsub. now rewrite Hsub. }
    eexists _, (length (cfgs s)).
    split; [exact Hrun'|]. split; [|split; [lia|split]].
    + unfold child. rewrite install_lookup_parent by assumption.
      cbn. now rewrite assoc_set_eq.
    + intros c_old f v Hc Hf. rewrite Hold in Hc. injection Hc as <-.
      eexists. split; [now apply install_lookup_new|].
      cbn. now apply copy_args_assoc.
    + now apply install_installed.
  - intros a ca act Ha. rewrite (dpa_run _ _ _ _ _ _ _ Ha).
    eexists. split; [reflexivity|].
    apply install_twice_installed; [assumption|discriminate].
  - intros a ca act Ha. rewrite (mq_run _ _ _ _ _ _ _ Ha).
    eexists. split; [reflexivity|].
    apply install_twice_installed; [assumption|discriminate].
  - intros f1 c1 f2 c2 act rank H1 Hff H2.
    rewrite (ff_run _ _ _ _ _ _ _ _ _ _ H1 Hff H2).
    eexists. split; [reflexivity|]. now apply install_installed.
  - intros find config target d cd v num_bits use_symmetric wqo dtype
      Hfind Hd Hconv.
    rewrite (conv_run _ _ _ _ _ _ _ _ _ _ _ _ _ Hfind Hd Hconv).
    eexists. split; [reflexivity|]. now apply install_installed.
Qed.

Lemma child_template_fields_witness :
  let s := lm_dot_product in
  child s 0 "softmax_tpl" = Some 7 /\
  (cls <$> cfgs s !! 7) = Some layers_SharedEmbeddingSoftmax /\
  child s 3 "proj_tpl" = Some 4 /\
  (exists s' new,
     _quantize_embedding_softmax_layer_weights (VCfg 0) PTQ INFERENCE
       sample_wp false s = (Ok tt, s') /\
     child s' 0 "softmax_tpl" = Some new /\
     fields_carried s s' 7 new) /\
  (exists s',
     quantize_dot_product_attention_layer_weights (VCfg 3) PTQ INFERENCE
       sample_wp None s = (Ok tt, s') /\
     installed s s' 3 "proj_tpl" quantization_AttentionProjection []
       (qparams PTQ INFERENCE None sample_wp)).
Proof.
  cbv zeta. split; [reflexivity|]. split; [reflexivity|].
  split; [reflexivity|].
  destruct (child_template_fields lm_dot_product PTQ INFERENCE sample_wp)
    as (Hsoftmax & _ & Hdpa & _).
  split.
  - destruct (Hsoftmax 0 _ 7 _ false eq_refl eq_refl eq_refl eq_refl)
      as (s' & new & Hrun & Hchild & _ & Hcarried & _).
    exists s', new. auto.
  - destruct (Hdpa 3 _ None eq_refl) as (s' & Hrun & Hproj & _).
    exists s'. auto.
Defined.

(** C3, counterexample.  The projection template of the attention layer sets
    [input_dim]; after [quantize_dot_product_attention_layer_weights] its
    replacement does not. *)
Lemma child_template_fields_counterexample :
  let s := lm_dot_product in
  let s' :=
    snd (quantize_dot_product_attention_layer_weights (VCfg 3) PTQ INFERENCE
           sample_wp None s) in
  child s 3 "proj_tpl" = Some 4 /\
  (cfgs s !! 4 ≫= fun c => assoc "input_dim" (args c)) = Some (VInt 16) /\
  child s' 3 "proj_tpl" = Some 10 /\
  (cfgs s' !! 10 ≫= fun c => assoc "input_dim" (args c)) = None /\
  ~ fields_carried s s' 4 10.
Proof.
  cbv zeta. repeat split; try reflexivity.
  intros H.
  destruct (H _ "input_dim" (VInt 16) eq_refl eq_refl) as (c & Hc & Hf).
  vm_compute in Hc. injection Hc as <-. discriminate Hf.
Qed.

(** ** C4 *)

Lemma set_transformer_quantization_unfold find config qt m num_bits
    linear_only use_symmetric rank wqo qes transposed qng dtype block_size
    packed container s :
  set_transformer_quantization find config qt m num_bits linear_only
    use_symmetric rank wqo qes transposed qng dtype block_size packed
    container s
  = let wp := transformer_weight_params num_bits use_symmetric dtype
                block_size packed container in
    match
      for_each (find (cfgs s) config layers_transformers_Transformer)
        (fun t =>
           quantize_transformer_layer_weights t qt m wp
             (act_quantization_params_of wqo num_bits) linear_only rank) s
    with
    | (Ok _, s1) =>
        when (qes || qng)
          (for_each (find (cfgs s1) config layers_TransformerLm)
             (fun lm_tpl =>
                when qes
                  (_quantize_embedding_softmax_layer_weights lm_tpl qt m wp
                     transposed) ;;;
                when qng
                  (_quantize_ngrammer_embedding_weights lm_tpl qt m wp))) s1
    | (Raise e, s1) => (Raise e, s1)
    end.
Proof.
  unfold set_transformer_quantization. cbv zeta. unfold bind at 1 2.
  destruct (for_each _ _ s) as [[[]|e] s1]; [|reflexivity].
  destruct (qes || qng); [|reflexivity].
  unfold when at 1. unfold bind at 1. reflexivity.
Qed.

(** C4 (as amended).  On a language-model template whose softmax
    sub-template is not of the [SharedEmbeddingSoftmax] family,
    [_quantize_embedding_softmax_layer_weights] raises a [ValueError] that
    shows the class and changes nothing.  Requested through
    [set_transformer_quantization], the error comes after the transformer
    blocks, and the language models found before the unsupported one, have
    been rewritten: the store it leaves is the one they made, in which
    neither the ngrammer of the unsupported model nor any model found after
    it has been touched. *)
Theorem embedding_softmax_unsupported
    find config qt m num_bits linear_only use_symmetric rank wqo transposed
    qng dtype block_size packed container s s1 done lm rest s2 clm old cold :
  let wp := transformer_weight_params num_bits use_symmetric dtype block_size
              packed container in
  let err :=
    ValueError ("lm_tpl.softmax_tpl.cls is : " +:+ class_repr (cls cold)
                +:+ "but has to be layers.SharedEmbeddingSoftmax") in
  for_each (find (cfgs s) config layers_transformers_Transformer)
    (fun t =>
       quantize_transformer_layer_weights t qt m wp
         (act_quantization_params_of wqo num_bits) linear_only rank) s
  = (Ok tt, s1) ->
  find (cfgs s1) config layers_TransformerLm = done ++ VCfg lm :: rest ->
  for_each done
    (fun lm_tpl =>
       _quantize_embedding_softmax_layer_weights lm_tpl qt m wp transposed ;;;
       when qng (_quantize_ngrammer_embedding_weights lm_tpl qt m wp)) s1
  = (Ok tt, s2) ->
  cfgs s2 !! lm = Some clm ->
  assoc "softmax_tpl" (args clm) = Some (VCfg old) ->
  cfgs s2 !! old = Some cold ->
  issubclass (cls cold) layers_SharedEmbeddingSoftmax = false ->
  _quantize_embedding_softmax_layer_weights (VCfg lm) qt m wp transposed s2
  = (Raise err, s2) /\
  set_transformer_quantization find config qt m num_bits linear_only
    use_symmetric rank wqo true transposed qng dtype block_size packed
    container s
  = (Raise err, s2).
Proof.
  intros wp err Hloop Hfind Hdone Hlm Hsm Hold Hsub.
  assert (Hraise :
    _quantize_embedding_softmax_layer_weights (VCfg lm) qt m wp transposed s2
    = (Raise err, s2)).
  { rewrite (softmax_run s2 lm clm old cold qt m wp transposed Hlm Hsm Hold).
    now rewrite Hsub. }
  split; [exact Hraise|].
  rewrite set_transformer_quantization_unfold. cbv zeta.
  fold wp. rewrite Hloop. cbn [orb when]. rewrite Hfind.
  rewrite for_each_app. cbn [when] in Hdone. rewrite Hdone.
  rewrite for_each_cons. unfold bind at 1. now rewrite Hraise.
Qed.

Lemma embedding_softmax_unsupported_witness :
  let s := two_models_mixed in
  let wp := transformer_weight_params 8 true jnp_int8 0 true jnp_int32 in
  let s1 :=
    snd (for_each
           (find_target_tpl 100 (cfgs s) (VCfg 0)
              layers_transformers_Transformer)
           (fun t =>
              quantize_transformer_layer_weights t PTQ INFERENCE wp None
                false (-1)) s) in
  let s2 :=
    snd (for_each [VCfg 1]
           (fun lm_tpl =>
              _quantize_embedding_softmax_layer_weights lm_tpl PTQ INFERENCE
                wp false ;;;
              when false
                (_quantize_ngrammer_embedding_weights lm_tpl PTQ INFERENCE
                   wp)) s1) in
  find_target_tpl 100 (cfgs s1) (VCfg 0) layers_TransformerLm
  = [VCfg 1; VCfg 2] /\
  (cls <$> (child s1 1 "softmax_tpl" ≫= fun r => cfgs s1 !! r))
  = Some layers_SharedEmbeddingSoftmax /\
  (cls <$> (child s2 1 "softmax_tpl" ≫= fun r => cfgs s2 !! r))
  = Some quantization_SharedEmbeddingSoftmax /\
  (cls <$> (child s2 2 "softmax_tpl" ≫= fun r => cfgs s2 !! r))
  = Some FullSoftmax /\
  set_transformer_quantization (find_target_tpl 100) (VCfg 0) PTQ INFERENCE
    8 false true (-1) true true false false jnp_int8 0 true jnp_int32 s
  = (Raise (ValueError
       "lm_tpl.softmax_tpl.cls is : <class 'praxis.layers.embedding_softmax.FullSoftmax'>but has to be layers.SharedEmbeddingSoftmax"),
     s2).
Proof.
  cbv zeta.
  set (wp := transformer_weight_params 8 true jnp_int8 0 true jnp_int32).
  set (s1 :=
    snd (for_each
           (find_target_tpl 100 (cfgs two_models_mixed) (VCfg 0)
              layers_transformers_Transformer)
           (fun t =>
              quantize_transformer_layer_weights t PTQ INFERENCE wp None
                false (-1)) two_models_mixed)).
  set (s2 :=
    snd (for_each [VCfg 1]
           (fun lm_tpl =>
              _quantize_embedding_softmax_layer_weights lm_tpl PTQ INFERENCE
                wp false ;;;
              when false
                (_quantize_ngrammer_embedding_weights lm_tpl PTQ INFERENCE
                   wp)) s1)).
  split; [vm_compute; reflexivity|]. split; [vm_compute; reflexivity|].
  split; [vm_compute; reflexivity|]. split; [vm_compute; reflexivity|].
  refine (proj2 (embedding_softmax_unsupported (find_target_tpl 100) (VCfg 0)
           PTQ INFERENCE 8 false true (-1) true false false jnp_int8 0 true
           jnp_int32 two_models_mixed s1 [VCfg 1] 2 [] s2
           {| cls := layers_TransformerLm; quantization := None;
              args := [("softmax_tpl", VCfg 4); ("ngrammer_tpl", VNone)] |}
           4
           {| cls := FullSoftmax; quantization := None;
              args := [("num_classes", VInt 32000)] |}
           _ _ _ _ _ _ _));
    vm_compute; reflexivity.
Defined.

(** C4, counterexample.  Asking [set_transformer_quantization] to quantize the
    embedding softmax of a model whose softmax is a [FullSoftmax] raises, and
    the failed call has changed the model: the linear template of its
    transformer block is now the quantized one. *)
Lemma embedding_softmax_unsupported_counterexample :
  let s := lm_full_softmax in
  let run :=
    set_transformer_quantization (find_target_tpl 100) (VCfg 0) PTQ INFERENCE
      8 false true (-1) true true false false jnp_int8 0 true jnp_int32 s in
  (exists msg, fst run = Raise (ValueError msg)) /\
  (cls <$> (child s 6 "linear_tpl" ≫= fun r => cfgs s !! r))
  = Some (praxis_class "praxis.layers.linears" "Linear") /\
  (cls <$> (child (snd run) 6 "linear_tpl" ≫= fun r => cfgs (snd run) !! r))
  = Some quantization_Linear /\
  snd run <> s.
Proof.
  cbv zeta. split; [eexists; reflexivity|].
  split; [reflexivity|]. split; [reflexivity|].
  intros H. apply (f_equal (fun st => length (cfgs st))) in H.
  vm_compute in H. discriminate H.
Qed.

(** ** C8 *)

(** C8.  [_quantize_ngrammer_embedding_weights] returns without touching the
    store when the language model has no ngrammer template; a template of the
    [Ngrammer] family is replaced by one of the quantized [Ngrammer] class,
    one of the [VQNgrammer] family by one of the quantized [VQNgrammer] class,
    a different class; for any other class the call returns without touching
    the store. *)
Theorem quantize_ngrammer_embedding_weights_spec s lm clm v qt m wp :
  cfgs s !! lm = Some clm ->
  assoc "ngrammer_tpl" (args clm) = Some v ->
  let run := _quantize_ngrammer_embedding_weights (VCfg lm) qt m wp s in
  (v = VNone -> run = (Ok tt, s)) /\
  (forall old cold,
     v = VCfg old -> cfgs s !! old = Some cold ->
     if issubclass (cls cold) layers_ngrammer_Ngrammer then
       exists s',
         run = (Ok tt, s') /\
         installed s s' lm "ngrammer_tpl" quantization_Ngrammer
           (copy_args (args cold) []) (qparams qt m None wp)
     else if issubclass (cls cold) layers_ngrammer_VQNgrammer then
       exists s',
         run = (Ok tt, s') /\
         installed s s' lm "ngrammer_tpl" quantization_VQNgrammer
           (copy_args (args cold) []) (qparams qt m None wp)
     else run = (Ok tt, s)) /\
  quantization_Ngrammer <> quantization_VQNgrammer.
Proof.
  intros Hlm Hng run. subst run. split; [|split].
  - intros ->. now apply (ngrammer_none_run s lm clm).
  - intros old cold -> Hold.
    rewrite (ngrammer_run s lm clm old cold qt m wp Hlm Hng Hold).
    destruct (issubclass _ layers_ngrammer_Ngrammer);
      [|destruct (issubclass _ layers_ngrammer_VQNgrammer)].
    + eexists. split; [reflexivity|]. now apply install_installed.
    + eexists. split; [reflexivity|]. now apply install_installed.
    + reflexivity.
  - discriminate.
Qed.

Lemma quantize_ngrammer_embedding_weights_spec_witness :
  let s := lm_dot_product in
  child s 0 "ngrammer_tpl" = Some 8 /\
  (cls <$> cfgs s !! 8) = Some layers_ngrammer_VQNgrammer /\
  exists s',
    _quantize_ngrammer_embedding_weights (VCfg 0) PTQ INFERENCE sample_wp s
    = (Ok tt, s') /\
    installed s s' 0 "ngrammer_tpl" quantization_VQNgrammer
      [("ngram_vocab_size", VInt 768)] (qparams PTQ INFERENCE None sample_wp).
Proof.
  cbv zeta. split; [reflexivity|]. split; [reflexivity|].
  exact (proj1 (proj2 (quantize_ngrammer_embedding_weights_spec
                         lm_dot_product 0 _ (VCfg 8) PTQ INFERENCE sample_wp
                         eq_refl eq_refl)) 8 _ eq_refl eq_refl).
Defined.

(** ** C5 *)

Lemma assert_bits_fails (num_bits : Z) s :
  num_bits <> 2%Z -> num_bits <> 4%Z -> num_bits <> 8%Z ->
  assert_ (existsb (Z.eqb num_bits) [2; 4; 8]%Z) s = (Raise AssertionError, s).
Proof.
  intros H2 H4 H8. cbn [existsb].
  destruct (Z.eqb_spec num_bits 2); [contradiction|].
  destruct (Z.eqb_spec num_bits 4); [contradiction|].
  destruct (Z.eqb_spec num_bits 8); [contradiction|].
  reflexivity.
Qed.

Lemma assert_bits_passes (num_bits : Z) s :
  num_bits = 2%Z \/ num_bits = 4%Z \/ num_bits = 8%Z ->
  assert_ (existsb (Z.eqb num_bits) [2; 4; 8]%Z) s = (Ok tt, s).
Proof. intros [->|[->| ->]]; reflexivity. Qed.

(** C5.  With a bit width other than 2, 4 or 8, the [task] of a class wrapped
    by [for_transformer] or [for_diffusion] raises [AssertionError] as soon as
    the wrapped class's [task] has returned: the store is the one that call
    left, no quantization has been applied. *)
Theorem task_rejects_unsupported_bit_width
    find target num_bits qt m use_symmetric rank wqo qes transposed qng
    linear_only dtype ckpt block_size (super_task : M value) s task_p s1 :
  num_bits <> 2%Z -> num_bits <> 4%Z -> num_bits <> 8%Z ->
  super_task s = (Ok task_p, s1) ->
  for_transformer_task find num_bits qt m use_symmetric rank wqo qes
    transposed qng linear_only dtype ckpt block_size super_task s
  = (Raise AssertionError, s1) /\
  for_diffusion_task find target num_bits qt m use_symmetric dtype wqo ckpt
    super_task s
  = (Raise AssertionError, s1).
Proof.
  intros H2 H4 H8 Hsuper. split.
  - unfold for_transformer_task.
    rewrite (bind_ok _ _ _ _ _ Hsuper).
    now rewrite (bind_raise _ _ _ _ _ (assert_bits_fails _ s1 H2 H4 H8)).
  - unfold for_diffusion_task.
    rewrite (bind_ok _ _ _ _ _ Hsuper).
    now rewrite (bind_raise _ _ _ _ _ (assert_bits_fails _ s1 H2 H4 H8)).
Qed.

Lemma task_rejects_unsupported_bit_width_witness :
  let s := lm_dot_product in
  (6 <> 2)%Z /\ (6 <> 4)%Z /\ (6 <> 8)%Z /\
  ret (VCfg 0) s = (Ok (VCfg 0), s) /\
  for_transformer_task (find_target_tpl 100) 6 FQ TRAINING true (-1) true
    false false false false jnp_int8 false 0 (ret (VCfg 0)) s
  = (Raise AssertionError, s) /\
  for_diffusion_task (find_target_tpl 100) layers_transformers_Transformer 6
    FQ TRAINING true jnp_int8 true false (ret (VCfg 0)) s
  = (Raise AssertionError, s).
Proof.
  cbv zeta. split; [lia|]. split; [lia|]. split; [lia|].
  split; [reflexivity|].
  apply (task_rejects_unsupported_bit_width (find_target_tpl 100)
           layers_transformers_Transformer 6 FQ TRAINING true (-1) true false
           false false false jnp_int8 false 0 (ret (VCfg 0)) lm_dot_product
           (VCfg 0) lm_dot_product); [lia|lia|lia|reflexivity].
Defined.

(** ** Whole passes: what every created template carries *)

Lemma rewritten_refl P s : rewritten P s s.
Proof.
  repeat split.
  - exists []. now rewrite app_nil_r.
  - lia.
  - intros r c H. eauto.
  - intros r c Hr H. apply lookup_lt_Some in H. lia.
Qed.

Lemma rewritten_trans P s s1 s2 :
  rewritten P s s1 -> rewritten P s1 s2 -> rewritten P s s2.
Proof.
  intros ([l1 Hq1] & Hlen1 & Hold1 & Hnew1) ([l2 Hq2] & Hlen2 & Hold2 & Hnew2).
  repeat split.
  - exists (l1 ++ l2). now rewrite Hq2, Hq1, app_assoc.
  - lia.
  - intros r c Hr. destruct (Hold1 r c Hr) as (c1 & Hr1 & Hc1 & Hqz1).
    destruct (Hold2 r c1 Hr1) as (c2 & Hr2 & Hc2 & Hqz2).
    exists c2. repeat split; congruence.
  - intros r c Hr Hc.
    destruct (decide (r < length (cfgs s1))) as [Hlt|Hge].
    + destruct (lookup_lt_is_Some_2 (cfgs s1) r Hlt) as [c1 Hr1].
      destruct (Hold2 r c1 Hr1) as (c2 & Hr2 & Hc2 & Hqz2).
      assert (c2 = c) by congruence. subst c2.
      destruct (Hnew1 r c1 Hr Hr1) as (q & qp & Hq & Hqlen & Hqp & HP).
      exists q, qp. repeat split; try congruence.
      rewrite Hq2. now apply lookup_app_l_Some.
    + destruct (Hnew2 r c ltac:(lia) Hc) as (q & qp & Hq & Hqlen & Hqp & HP).
      exists q, qp. repeat split; auto.
      rewrite Hq1, length_app in Hqlen. lia.
Qed.

Lemma sound_ret {A} P (a : A) : sound P (ret a).
Proof. intros s. split; [apply rewritten_refl|exact I]. Qed.

Lemma sound_raise {A} P e : e <> AssertionError -> sound P (@raise A e).
Proof.
  intros He s. split; [apply rewritten_refl|]. cbn. now destruct e.
Qed.

Lemma sound_bind {A B} P (m : M A) (k : A -> M B) :
  sound P m -> (forall a, sound P (k a)) -> sound P (bind m k).
Proof.
  intros Hm Hk s. unfold bind. specialize (Hm s).
  destruct (m s) as [[a|e] s1]; cbn [fst snd] in *.
  - destruct Hm as [Hm _]. destruct (Hk a s1) as [Hk1 Hk2].
    split; [eapply rewritten_trans; eauto|exact Hk2].
  - destruct Hm as [Hm1 Hm2]. split; [exact Hm1|]. now destruct e.
Qed.

Lemma sound_read {A} P (m : M A) :
  (forall s, snd (m s) = s) ->
  (forall s, no_assertion (fst (m s))) ->
  sound P m.
Proof.
  intros Hs He s. rewrite Hs. split; [apply rewritten_refl|apply He].
Qed.

Lemma sound_getattr P tpl name : sound P (getattr tpl name).
Proof.
  apply sound_read; intros s; unfold getattr;
    destruct tpl; try (cbn; auto; fail);
    destruct (cfgs s !! r) as [c|]; try (cbn; auto; fail);
    destruct (assoc name (args c)); cbn; auto.
Qed.

Lemma sound_hasattr P tpl name : sound P (hasattr tpl name).
Proof.
  apply sound_read; intros s; unfold hasattr;
    destruct (getattr tpl name s) as [[]]; cbn; auto.
Qed.

Lemma sound_get_cls P tpl : sound P (get_cls tpl).
Proof.
  apply sound_read; intros s; unfold get_cls;
    destruct tpl; try (cbn; auto; fail);
    destruct (cfgs s !! r) as [c|]; cbn; auto.
Qed.

Lemma sound_find {A} P (f : store -> A) : sound P (fun s => (Ok (f s), s)).
Proof. apply sound_read; intros s; cbn; auto. Qed.

(** Replacing a template by one of the same class and [quantization]. *)
Lemma rewritten_update P s r c c' :
  cfgs s !! r = Some c ->
  cls c' = cls c -> quantization c' = quantization c ->
  rewritten P s {| cfgs := <[r := c']> (cfgs s); quants := quants s |}.
Proof.
  intros Hr Hc Hq. repeat split; cbn [cfgs quants].
  - exists []. now rewrite app_nil_r.
  - rewrite length_insert. lia.
  - intros r0 c0 Hr0. destruct (decide (r0 = r)) as [->|Hne].
    + exists c'. rewrite list_lookup_insert_eq by len_solve.
      assert (c0 = c) by congruence. subst c0. auto.
    + exists c0. rewrite list_lookup_insert_ne by congruence. auto.
  - intros r0 c0 Hge H0. apply lookup_lt_Some in H0.
    rewrite length_insert in H0. lia.
Qed.

Lemma sound_setattr P tpl name x : sound P (setattr tpl name x).
Proof.
  intros s. unfold setattr.
  destruct tpl; try (split; [apply rewritten_refl|exact I]).
  destruct (cfgs s !! r) as [c|] eqn:Hr;
    [|split; [apply rewritten_refl|exact I]].
  split; [|exact I]. cbn [snd].
  now apply (rewritten_update P s r c).
Qed.

Lemma sound_copy_fields_from P self source :
  sound P (copy_fields_from self source).
Proof.
  intros s. unfold copy_fields_from.
  destruct self; try (split; [apply rewritten_refl|exact I]).
  destruct source; try (split; [apply rewritten_refl|exact I]).
  destruct (cfgs s !! r) as [c|] eqn:Hr;
    [|split; [apply rewritten_refl|exact I]].
  destruct (cfgs s !! r0) as [c0|] eqn:Hr0;
    [|split; [apply rewritten_refl|exact I]].
  split; [|exact I]. cbn [snd].
  now apply (rewritten_update P s r c).
Qed.

(** Creating a template together with its [QuantizationParams]. *)
Lemma sound_new {A} (P : pyclass -> QuantizationParams -> Prop) c qp kw
    (k : value -> M A) :
  P c qp ->
  (forall v, sound P (k v)) ->
  sound P (let* q := new_QuantizationParams qp in
           let* new := pax_fiddle_Config c q kw in
           k new).
Proof.
  intros HP Hk s. unfold bind, new_QuantizationParams, pax_fiddle_Config.
  cbn [cfgs quants].
  match goal with
  | |- context [k ?v ?s1] => destruct (Hk v s1) as [Hk1 Hk2]; set (s1' := s1) in *
  end.
  split; [|exact Hk2].
  eapply rewritten_trans; [|exact Hk1]. subst s1'.
  repeat split; cbn [cfgs quants].
  - eauto.
  - rewrite length_app. lia.
  - intros r c0 Hr. exists c0. rewrite lookup_app_l by len_solve. auto.
  - intros r c0 Hge Hr.
    assert (r = length (cfgs s)).
    { apply lookup_lt_Some in Hr. rewrite length_app in Hr. cbn in Hr. lia. }
    subst r. rewrite lookup_app_r, Nat.sub_diag in Hr by lia.
    injection Hr as <-. exists (length (quants s)), qp. cbn.
    repeat split; auto.
    rewrite lookup_app_r, Nat.sub_diag by lia. reflexivity.
Qed.

Lemma sound_when P b (m : M unit) : sound P m -> sound P (when b m).
Proof. intros Hm. destruct b; [exact Hm|apply sound_ret]. Qed.

Lemma sound_for_each {A} P (xs : list A) body :
  (forall x, sound P (body x)) -> sound P (for_each xs body).
Proof.
  intros Hb. induction xs as [|x xs IH]; cbn [for_each].
  - apply sound_ret.
  - apply sound_bind; auto.
Qed.

Lemma rewritten_weaken (P Q : pyclass -> QuantizationParams -> Prop) s s' :
  (forall c qp, P c qp -> Q c qp) -> rewritten P s s' -> rewritten Q s s'.
Proof.
  intros HPQ (H1 & H2 & H3 & H4). repeat split; auto.
  intros r c Hr Hc. destruct (H4 r c Hr Hc) as (q & qp & ? & ? & ? & ?).
  exists q, qp. auto.
Qed.

Lemma sound_alloc (P : pyclass -> QuantizationParams -> Prop) c qp kw :
  P c qp ->
  sound P (let* q := new_QuantizationParams qp in pax_fiddle_Config c q kw).
Proof.
  intros HP s. split; [|exact I].
  destruct (sound_new P c qp kw (fun v => ret v) HP
              (fun v => sound_ret P v) s) as [H _].
  exact H.
Qed.

Ltac sound_step :=
  first
    [ apply sound_ret
    | apply sound_getattr
    | apply sound_hasattr
    | apply sound_get_cls
    | apply sound_setattr
    | apply sound_copy_fields_from
    | apply sound_find
    | apply sound_raise; discriminate
    | apply sound_when
    | apply sound_for_each; intros ?
    | apply sound_alloc; reflexivity
    | apply sound_new; [reflexivity|intros ?]
    | apply sound_bind; [|intros ?] ].

Lemma sound_dpa qt m wp act tpl :
  sound (pass_params qt m act wp)
    (quantize_dot_product_attention_layer_weights tpl qt m wp act).
Proof.
  unfold quantize_dot_product_attention_layer_weights. repeat sound_step.
Qed.

Lemma sound_mq qt m wp act tpl :
  sound (pass_params qt m act wp)
    (quantize_mq_dot_product_attention_layer_weights tpl qt m wp act).
Proof.
  unfold quantize_mq_dot_product_attention_layer_weights. repeat sound_step.
Qed.

Lemma sound_attention qt m wp act tpl :
  sound (pass_params qt m act wp)
    (quantize_attention_layer_weights tpl qt m wp act).
Proof.
  unfold quantize_attention_layer_weights.
  apply sound_bind; [apply sound_getattr|intros v].
  apply sound_bind; [apply sound_get_cls|intros c].
  destruct (issubclass _ _).
  - apply sound_bind; [apply sound_getattr|intros v']. apply sound_dpa.
  - apply sound_bind; [apply sound_getattr|intros v'].
    apply sound_bind; [apply sound_get_cls|intros c'].
    destruct (str_contains _ _).
    + apply sound_bind; [apply sound_getattr|intros v'']. apply sound_mq.
    + repeat sound_step.
Qed.

Lemma sound_ff qt m wp act rank tpl :
  sound (pass_params qt m act wp)
    (quantize_transformer_feed_forward_layer_weights tpl qt m wp act rank).
Proof.
  unfold quantize_transformer_feed_forward_layer_weights. repeat sound_step.
Qed.

Lemma sound_transformer qt m wp act linear_only rank tpl :
  sound (pass_params qt m act wp)
    (quantize_transformer_layer_weights tpl qt m wp act linear_only rank).
Proof.
  unfold quantize_transformer_layer_weights.
  apply sound_bind; [apply sound_when, sound_attention|intros _].
  apply sound_bind; [apply sound_getattr|intros v]. apply sound_ff.
Qed.

Lemma sound_softmax qt m wp act transposed tpl :
  sound (pass_params qt m act wp)
    (_quantize_embedding_softmax_layer_weights tpl qt m wp transposed).
Proof.
  unfold _quantize_embedding_softmax_layer_weights.
  apply sound_bind; [apply sound_getattr|intros v].
  apply sound_bind; [apply sound_get_cls|intros c].
  destruct (issubclass _ _); [|repeat sound_step].
  apply sound_bind; [destruct transposed; apply sound_alloc; reflexivity|].
  intros new. repeat sound_step.
Qed.

Lemma sound_ngrammer qt m wp act tpl :
  sound (pass_params qt m act wp)
    (_quantize_ngrammer_embedding_weights tpl qt m wp).
Proof.
  unfold _quantize_ngrammer_embedding_weights.
  apply sound_bind; [apply sound_getattr|intros v].
  destruct v; try apply sound_ret;
    (apply sound_bind; [apply sound_get_cls|intros c];
     destruct (issubclass _ layers_ngrammer_Ngrammer);
     [|destruct (issubclass _ layers_ngrammer_VQNgrammer)];
     repeat sound_step).
Qed.

Lemma sound_set_transformer_quantization find config qt m num_bits
    linear_only use_symmetric rank wqo qes transposed qng dtype block_size
    packed container :
  sound
    (pass_params qt m (act_quantization_params_of wqo num_bits)
       (transformer_weight_params num_bits use_symmetric dtype block_size
          packed container))
    (set_transformer_quantization find config qt m num_bits linear_only
       use_symmetric rank wqo qes transposed qng dtype block_size packed
       container).
Proof.
  unfold set_transformer_quantization. cbv zeta.
  apply sound_bind; [apply sound_find|intros tpls].
  apply sound_bind;
    [apply sound_for_each; intros t; apply sound_transformer|intros _].
  apply sound_when.
  apply sound_bind; [apply sound_find|intros lms].
  apply sound_for_each. intros lm.
  apply sound_bind; [apply sound_when, sound_softmax|intros _].
  apply sound_when, sound_ngrammer.
Qed.

Lemma sound_set_diffusion_quantization find config target qt m num_bits
    use_symmetric wqo dtype :
  sound
    (fun c qp =>
       c = quantization_Conv2D /\
       qp = qparams qt m (act_quantization_params_of wqo num_bits)
              (diffusion_weight_params num_bits use_symmetric dtype))
    (set_diffusion_quantization find config target qt m num_bits
       use_symmetric wqo dtype).
Proof.
  unfold set_diffusion_quantization. cbv zeta.
  apply sound_bind; [apply sound_find|intros tpls].
  apply sound_for_each. intros t.
  apply sound_bind; [apply sound_hasattr|intros b].
  apply sound_when. apply sound_new; [split; reflexivity|intros v].
  apply sound_setattr.
Qed.

(** [set_diffusion_quantization] always returns. *)
Lemma for_each_ok {A} (xs : list A) body :
  (forall x s, fst (body x s) = Ok tt) ->
  forall s, fst (for_each xs body s) = Ok tt.
Proof.
  intros Hb. induction xs as [|x xs IH]; intros s; [reflexivity|].
  rewrite for_each_cons. specialize (Hb x s).
  destruct (body x s) as [[[]|e] s1]; cbn in Hb; [apply IH|discriminate].
Qed.

Lemma set_diffusion_quantization_ok find config target qt m num_bits
    use_symmetric wqo dtype s :
  fst (set_diffusion_quantization find config target qt m num_bits
         use_symmetric wqo dtype s) = Ok tt.
Proof.
  unfold set_diffusion_quantization. cbv zeta. unfold bind at 1.
  apply for_each_ok. intros x s0. unfold bind at 1, hasattr.
  destruct (getattr x "conv_tpl" s0) as [[v|e] s1] eqn:Hget;
    [|reflexivity].
  cbn [when]. unfold getattr in Hget.
  destruct x; try discriminate.
  destruct (cfgs s0 !! r) as [c|] eqn:Hr; [|discriminate].
  now rewrite (install_run s0 r c "conv_tpl" quantization_Conv2D [] _ Hr).
Qed.

(** ** The bit width does not decide whether a pass raises *)

Lemma sim_ret {A} (a : A) : sim (ret a) (ret a).
Proof. intros s s' H. auto. Qed.

Lemma sim_raise {A} e : sim (@raise A e) (raise e).
Proof. intros s s' H. auto. Qed.

Lemma sim_bind {A B} (m m' : M A) (k k' : A -> M B) :
  sim m m' -> (forall a, sim (k a) (k' a)) -> sim (bind m k) (bind m' k').
Proof.
  intros Hm Hk s s' Hs. unfold bind. destruct (Hm s s' Hs) as [Ho Hs1].
  destruct (m s) as [[a|e] s1], (m' s') as [[a'|e'] s1'];
    cbn [fst snd] in *; try discriminate.
  - injection Ho as <-. now apply Hk.
  - injection Ho as <-. auto.
Qed.

Lemma sim_getattr tpl name : sim (getattr tpl name) (getattr tpl name).
Proof.
  intros s s' [Hc Hl]. unfold getattr. rewrite <- Hc.
  destruct tpl; try (split; [reflexivity|split; assumption]).
  destruct (cfgs s !! r) as [c|];
    [|split; [reflexivity|split; assumption]].
  destruct (assoc name (args c)); split; try reflexivity; split; assumption.
Qed.

Lemma sim_hasattr tpl name : sim (hasattr tpl name) (hasattr tpl name).
Proof.
  intros s s' Hs. unfold hasattr.
  destruct (sim_getattr tpl name s s' Hs) as [Ho _].
  destruct (getattr tpl name s) as [[]], (getattr tpl name s') as [[]];
    cbn in Ho; try discriminate; auto.
Qed.

Lemma sim_get_cls tpl : sim (get_cls tpl) (get_cls tpl).
Proof.
  intros s s' [Hc Hl]. unfold get_cls. rewrite <- Hc.
  destruct tpl; try (split; [reflexivity|split; assumption]).
  destruct (cfgs s !! r) as [c|]; split; try reflexivity; split; assumption.
Qed.

Lemma sim_setattr tpl name x : sim (setattr tpl name x) (setattr tpl name x).
Proof.
  intros s s' [Hc Hl]. unfold setattr. rewrite <- Hc.
  destruct tpl; try (split; [reflexivity|split; assumption]).
  destruct (cfgs s !! r) as [c|]; split; try reflexivity; split;
    cbn; congruence.
Qed.

Lemma sim_copy_fields_from self source :
  sim (copy_fields_from self source) (copy_fields_from self source).
Proof.
  intros s s' [Hc Hl]. unfold copy_fields_from. rewrite <- Hc.
  destruct self; try (split; [reflexivity|split; assumption]).
  destruct source; try (split; [reflexivity|split; assumption]).
  destruct (cfgs s !! r) as [c|];
    [|split; [reflexivity|split; assumption]].
  destruct (cfgs s !! r0) as [c0|]; split; try reflexivity; split;
    cbn; congruence.
Qed.

Lemma sim_find {A} (f : list config -> A) :
  sim (fun s => (Ok (f (cfgs s)), s)) (fun s => (Ok (f (cfgs s)), s)).
Proof. intros s s' [Hc Hl]. cbn. rewrite Hc. repeat split; auto. Qed.

Lemma sim_new_QuantizationParams qp qp' :
  sim (new_QuantizationParams qp) (new_QuantizationParams qp').
Proof.
  intros s s' [Hc Hl]. unfold new_QuantizationParams.
  cbn [fst snd cfgs quants]. rewrite Hl. repeat split; auto.
  cbn [cfgs quants]. rewrite !length_app. cbn. lia.
Qed.

Lemma sim_pax_fiddle_Config c q kw :
  sim (pax_fiddle_Config c q kw) (pax_fiddle_Config c q kw).
Proof.
  intros s s' [Hc Hl]. unfold pax_fiddle_Config. cbn.
  rewrite Hc. repeat split; auto.
Qed.

Lemma sim_when b (m m' : M unit) : sim m m' -> sim (when b m) (when b m').
Proof. intros H. destruct b; [exact H|apply sim_ret]. Qed.

Lemma sim_for_each {A} (xs : list A) body body' :
  (forall x, sim (body x) (body' x)) ->
  sim (for_each xs body) (for_each xs body').
Proof.
  intros Hb. induction xs as [|x xs IH]; cbn [for_each].
  - apply sim_ret.
  - apply sim_bind; auto.
Qed.

Ltac sim_step :=
  first
    [ apply sim_ret
    | apply sim_raise
    | apply sim_getattr
    | apply sim_hasattr
    | apply sim_get_cls
    | apply sim_setattr
    | apply sim_copy_fields_from
    | apply sim_new_QuantizationParams
    | apply sim_pax_fiddle_Config
    | apply sim_when
    | apply sim_for_each; intros ?
    | apply sim_bind; [|intros ?] ].

Lemma sim_attention qt m wp act wp' act' tpl :
  sim (quantize_attention_layer_weights tpl qt m wp act)
      (quantize_attention_layer_weights tpl qt m wp' act').
Proof.
  unfold quantize_attention_layer_weights,
    quantize_dot_product_attention_layer_weights,
    quantize_mq_dot_product_attention_layer_weights.
  apply sim_bind; [apply sim_getattr|intros v].
  apply sim_bind; [apply sim_get_cls|intros c].
  destruct (issubclass _ _); [repeat sim_step|].
  apply sim_bind; [apply sim_getattr|intros v'].
  apply sim_bind; [apply sim_get_cls|intros c'].
  destruct (str_contains _ _); repeat sim_step.
Qed.

Lemma sim_transformer qt m wp act wp' act' linear_only rank tpl :
  sim (quantize_transformer_layer_weights tpl qt m wp act linear_only rank)
      (quantize_transformer_layer_weights tpl qt m wp' act' linear_only rank).
Proof.
  unfold quantize_transformer_layer_weights,
    quantize_transformer_feed_forward_layer_weights.
  apply sim_bind; [apply sim_when, sim_attention|intros _].
  repeat sim_step.
Qed.

Lemma sim_softmax qt m wp wp' transposed tpl :
  sim (_quantize_embedding_softmax_layer_weights tpl qt m wp transposed)
      (_quantize_embedding_softmax_layer_weights tpl qt m wp' transposed).
Proof.
  unfold _quantize_embedding_softmax_layer_weights.
  apply sim_bind; [apply sim_getattr|intros v].
  apply sim_bind; [apply sim_get_cls|intros c].
  destruct (issubclass _ _); [|apply sim_raise].
  apply sim_bind; [destruct transposed; repeat sim_step|intros new].
  repeat sim_step.
Qed.

Lemma sim_ngrammer qt m wp wp' tpl :
  sim (_quantize_ngrammer_embedding_weights tpl qt m wp)
      (_quantize_ngrammer_embedding_weights tpl qt m wp').
Proof.
  unfold _quantize_ngrammer_embedding_weights.
  apply sim_bind; [apply sim_getattr|intros v].
  destruct v; try apply sim_ret;
    (apply sim_bind; [apply sim_get_cls|intros c];
     destruct (issubclass _ layers_ngrammer_Ngrammer);
     [|destruct (issubclass _ layers_ngrammer_VQNgrammer)];
     repeat sim_step).
Qed.

Lemma sim_set_transformer_quantization find config qt m num_bits num_bits'
    linear_only use_symmetric rank wqo qes transposed qng dtype block_size
    packed container :
  sim (set_transformer_quantization find config qt m num_bits linear_only
         use_symmetric rank wqo qes transposed qng dtype block_size packed
         container)
      (set_transformer_quantization find config qt m num_bits' linear_only
         use_symmetric rank wqo qes transposed qng dtype block_size packed
         container).
Proof.
  unfold set_transformer_quantization. cbv zeta.
  apply sim_bind;
    [apply (sim_find (fun cs => find cs config
                                  layers_transformers_Transformer))
    |intros tpls].
  apply sim_bind;
    [apply sim_for_each; intros t; apply sim_transformer|intros _].
  apply sim_when.
  apply sim_bind;
    [apply (sim_find (fun cs => find cs config layers_TransformerLm))
    |intros lms].
  apply sim_for_each. intros lm.
  apply sim_bind; [apply sim_when, sim_softmax|intros _].
  apply sim_when, sim_ngrammer.
Qed.

Lemma shape_eq_refl s : shape_eq s s.
Proof. split; reflexivity. Qed.

(** ** C6 *)

Lemma act_quantization_params_of_is_Some wqo num_bits :
  is_Some (act_quantization_params_of wqo num_bits) <-> wqo = false.
Proof.
  destruct wqo; cbn; split; intros H; try discriminate; eauto.
  now destruct H.
Qed.

(** C6 (as amended).  Every template created by
    [set_transformer_quantization] or [set_diffusion_quantization] carries a
    [QuantizationParams] object of its own, created by the same call.  For the
    attention projections, the feed-forward linear template and the
    convolution template, it has activation parameters if and only if
    [weight_quant_only] is false; for the embedding-softmax and ngrammer
    templates it never has any. *)
Theorem replacement_act_params
    find config target qt m num_bits linear_only use_symmetric rank wqo qes
    transposed qng dtype block_size packed container s :
  let s_tr :=
    snd (set_transformer_quantization find config qt m num_bits linear_only
           use_symmetric rank wqo qes transposed qng dtype block_size packed
           container s) in
  let s_df :=
    snd (set_diffusion_quantization find config target qt m num_bits
           use_symmetric wqo dtype s) in
  (forall r c,
     length (cfgs s) <= r -> cfgs s_tr !! r = Some c ->
     exists q qp,
       quantization c = Some q /\ length (quants s) <= q /\
       quants s_tr !! q = Some qp /\
       if is_embedding_class (cls c) then act_params qp = None
       else (is_Some (act_params qp) <-> wqo = false)) /\
  (forall r c,
     length (cfgs s) <= r -> cfgs s_df !! r = Some c ->
     exists q qp,
       quantization c = Some q /\ length (quants s) <= q /\
       quants s_df !! q = Some qp /\
       cls c = quantization_Conv2D /\
       (is_Some (act_params qp) <-> wqo = false)).
Proof.
  cbv zeta. split.
  - destruct (sound_set_transformer_quantization find config qt m num_bits
                linear_only use_symmetric rank wqo qes transposed qng dtype
                block_size packed container s) as [(_ & _ & _ & Hnew) _].
    intros r c Hr Hc.
    destruct (Hnew r c Hr Hc) as (q & qp & Hq & Hlen & Hqp & HP).
    exists q, qp. repeat split; auto.
    unfold pass_params in HP. subst qp. cbn [act_params qparams].
    destruct (is_embedding_class (cls c)); [reflexivity|].
    apply act_quantization_params_of_is_Some.
  - destruct (sound_set_diffusion_quantization find config target qt m
                num_bits use_symmetric wqo dtype s)
      as [(_ & _ & _ & Hnew) _].
    intros r c Hr Hc.
    destruct (Hnew r c Hr Hc) as (q & qp & Hq & Hlen & Hqp & Hcls & HP).
    exists q, qp. repeat split; auto; subst qp; cbn [act_params qparams];
      apply act_quantization_params_of_is_Some.
Qed.

Lemma replacement_act_params_witness :
  let s := lm_dot_product in
  let s_tr :=
    snd (set_transformer_quantization (find_target_tpl 100) (VCfg 0) PTQ
           INFERENCE 8 false true (-1) false true false false jnp_int8 0 true
           jnp_int32 s) in
  let linear :=
    {| cls := quantization_Linear; quantization := Some 2;
       args := [("rank", VInt (-1))] |} in
  length (cfgs s) <= 12 /\
  cfgs s_tr !! 12 = Some linear /\
  exists q qp,
    quantization linear = Some q /\ length (quants s) <= q /\
    quants s_tr !! q = Some qp /\
    (is_Some (act_params qp) <-> false = false).
Proof.
  cbv zeta. split; [vm_compute; lia|]. split; [vm_compute; reflexivity|].
  destruct (replacement_act_params (find_target_tpl 100) (VCfg 0)
              layers_transformers_Transformer PTQ INFERENCE 8 false true (-1)
              false true false false jnp_int8 0 true jnp_int32 lm_dot_product)
    as [Htr _].
  exact (Htr 12 _ ltac:(vm_compute; lia) ltac:(vm_compute; reflexivity)).
Defined.

(** C6, counterexample.  With [weight_quant_only] false and the embedding
    softmax quantized, the softmax template that the pass installs carries a
    [QuantizationParams] object without activation parameters. *)
Lemma replacement_act_params_counterexample :
  let weight_quant_only := false in
  let run :=
    set_transformer_quantization (find_target_tpl 100) (VCfg 0) PTQ INFERENCE
      8 false true (-1) weight_quant_only true false false jnp_int8 0 true
      jnp_int32 lm_dot_product in
  fst run = Ok tt /\
  exists r c q qp,
    child (snd run) 0 "softmax_tpl" = Some r /\
    cfgs (snd run) !! r = Some c /\
    cls c = quantization_SharedEmbeddingSoftmax /\
    quantization c = Some q /\
    quants (snd run) !! q = Some qp /\
    act_params qp = None /\
    ~ (is_Some (act_params qp) <-> weight_quant_only = false).
Proof.
  cbv zeta. split; [reflexivity|].
  eexists _, _, _, _.
  split; [vm_compute; reflexivity|].
  split; [vm_compute; reflexivity|].
  split; [reflexivity|]. split; [reflexivity|].
  split; [vm_compute; reflexivity|]. split; [reflexivity|].
  cbn. intros [_ H]. destruct (H eq_refl) as [x Hx]. discriminate Hx.
Qed.

(** ** C10 *)

(** C10.  Called directly, [set_transformer_quantization] and
    [set_diffusion_quantization] take any integer as [num_bits]: they never
    fail an assertion, whether they raise does not depend on the number
    ([set_diffusion_quantization] never raises), and every
    [QuantizationParams] they create has that number as the precision of its
    weight parameters and of its activation parameters, which are there when
    [weight_quant_only] is false and the template is not an embedding one.
    The wrappers made by [for_transformer] and [for_diffusion] are where a
    number other than 2, 4 or 8 is refused. *)
Theorem bit_width_checked_by_wrappers_only
    find config target qt m (num_bits : Z) linear_only use_symmetric rank wqo
    qes transposed qng dtype block_size packed container ckpt s :
  let run_tr n :=
    set_transformer_quantization find config qt m n linear_only
      use_symmetric rank wqo qes transposed qng dtype block_size packed
      container s in
  let run_df n :=
    set_diffusion_quantization find config target qt m n use_symmetric wqo
      dtype s in
  let stores_bits (s' : store) :=
    forall r c,
      length (cfgs s) <= r -> cfgs s' !! r = Some c ->
      exists q qp wp,
        quantization c = Some q /\ quants s' !! q = Some qp /\
        weight_params qp = Some wp /\
        WeightQuantizationParams.precision wp = num_bits /\
        (act_params qp = None \/
         act_params qp
         = Some {| ActQuantizationParams.precision := num_bits |}) /\
        (wqo = false -> is_embedding_class (cls c) = false ->
         act_params qp
         = Some {| ActQuantizationParams.precision := num_bits |}) in
  no_assertion (fst (run_tr num_bits)) /\
  (forall n, fst (run_tr num_bits) = fst (run_tr n)) /\
  stores_bits (snd (run_tr num_bits)) /\
  fst (run_df num_bits) = Ok tt /\
  stores_bits (snd (run_df num_bits)) /\
  (num_bits <> 2%Z -> num_bits <> 4%Z -> num_bits <> 8%Z ->
   forall (super_task : M value) s0 task_p,
     super_task s0 = (Ok task_p, s) ->
     for_transformer_task find num_bits qt m use_symmetric rank wqo qes
       transposed qng linear_only dtype ckpt block_size super_task s0
     = (Raise AssertionError, s) /\
     for_diffusion_task find target num_bits qt m use_symmetric dtype wqo
       ckpt super_task s0
     = (Raise AssertionError, s)).
Proof.
  cbv zeta.
  destruct (sound_set_transformer_quantization find config qt m num_bits
              linear_only use_symmetric rank wqo qes transposed qng dtype
              block_size packed container s) as [(_ & _ & _ & Hnew) Hno].
  destruct (sound_set_diffusion_quantization find config target qt m
              num_bits use_symmetric wqo dtype s)
    as [(_ & _ & _ & Hnew') _].
  split; [exact Hno|]. split; [|split; [|split; [|split]]].
  - intros n.
    apply (sim_set_transformer_quantization find config qt m num_bits n
             linear_only use_symmetric rank wqo qes transposed qng dtype
             block_size packed container s s (shape_eq_refl s)).
  - intros r c Hr Hc.
    destruct (Hnew r c Hr Hc) as (q & qp & Hq & Hlen & Hqp & HP).
    unfold pass_params in HP. subst qp.
    eexists q, _, _. split; [exact Hq|]. split; [exact Hqp|].
    split; [reflexivity|]. split; [reflexivity|]. cbn [act_params qparams].
    split.
    + destruct (is_embedding_class (cls c)); [now left|].
      destruct wqo; [now left|now right].
    + now intros -> ->.
  - apply set_diffusion_quantization_ok.
  - intros r c Hr Hc.
    destruct (Hnew' r c Hr Hc) as (q & qp & Hq & Hlen & Hqp & Hcls & HP).
    subst qp. eexists q, _, _. split; [exact Hq|]. split; [exact Hqp|].
    split; [reflexivity|]. split; [reflexivity|]. cbn [act_params qparams].
    split.
    + destruct wqo; [now left|now right].
    + now intros -> _.
  - intros H2 H4 H8 super_task s0 task_p Hsuper. split.
    + unfold for_transformer_task.
      rewrite (bind_ok _ _ _ _ _ Hsuper).
      now rewrite (bind_raise _ _ _ _ _ (assert_bits_fails _ s H2 H4 H8)).
    + unfold for_diffusion_task.
      rewrite (bind_ok _ _ _ _ _ Hsuper).
      now rewrite (bind_raise _ _ _ _ _ (assert_bits_fails _ s H2 H4 H8)).
Qed.

Lemma bit_width_checked_by_wrappers_only_witness :
  let s := lm_dot_product in
  let run_tr n :=
    set_transformer_quantization (find_target_tpl 100) (VCfg 0) PTQ INFERENCE
      n false true (-1) false false false false jnp_int8 0 true jnp_int32 s in
  fst (run_tr 6%Z) = Ok tt /\
  (exists qp wp,
     quants (snd (run_tr 6%Z)) !! 0 = Some qp /\
     weight_params qp = Some wp /\
     WeightQuantizationParams.precision wp = 6%Z /\
     act_params qp = Some {| ActQuantizationParams.precision := 6 |}) /\
  (6 <> 2)%Z /\ (6 <> 4)%Z /\ (6 <> 8)%Z /\
  for_transformer_task (find_target_tpl 100) 6 PTQ INFERENCE true (-1) false
    false false false false jnp_int8 false 0 (ret (VCfg 0)) s
  = (Raise AssertionError, s).
Proof.
  cbv zeta.
  destruct (bit_width_checked_by_wrappers_only (find_target_tpl 100) (VCfg 0)
              layers_transformers_Transformer PTQ INFERENCE 6 false true (-1)
              false false false false jnp_int8 0 true jnp_int32 false
              lm_dot_product)
    as (_ & Hsame & _ & _ & _ & Hwrap).
  split; [rewrite (Hsame 8%Z); reflexivity|].
  split; [eexists _, _; repeat split; reflexivity|].
  split; [lia|]. split; [lia|]. split; [lia|].
  apply (Hwrap ltac:(lia) ltac:(lia) ltac:(lia) (ret (VCfg 0))
           lm_dot_product (VCfg 0) eq_refl).
Defined.

(** ** [set_inference_mode] *)

Lemma fmap_with_mode_idem (o : option QuantizationParams) :
  with_mode INFERENCE <$> (with_mode INFERENCE <$> o)
  = with_mode INFERENCE <$> o.
Proof. now destruct o. Qed.

Lemma marks_none cs Q : marks (fun _ => False) cs Q Q.
Proof. split; [now left|]. intros r c q []. Qed.

Lemma marks_ext (R R' : ref -> Prop) cs Q Q' :
  (forall r, R r <-> R' r) -> marks R cs Q Q' -> marks R' cs Q Q'.
Proof.
  intros HR [HA HB]. split.
  - intros q. destruct (HA q) as [H|[(r & c & Hr & Hc & Hq) H]]; [now left|].
    right. split; [|exact H]. exists r, c. split; [now apply HR|auto].
  - intros r c q Hr. apply HB. now apply HR.
Qed.

Lemma marks_comp (R1 R2 : ref -> Prop) cs Q Q1 Q2 :
  marks R1 cs Q Q1 -> marks R2 cs Q1 Q2 ->
  marks (fun r => R1 r \/ R2 r) cs Q Q2.
Proof.
  intros [HA1 HB1] [HA2 HB2]. split.
  - intros q.
    destruct (HA2 q) as [H2|[(r & c & Hr & Hc & Hq) H2]];
      destruct (HA1 q) as [H1|[(r1 & c1 & Hr1 & Hc1 & Hq1) H1]].
    + left. congruence.
    + right. split; [exists r1, c1; auto|congruence].
    + right. split; [exists r, c; auto|congruence].
    + right. split; [exists r, c; auto|].
      rewrite H2, H1. apply fmap_with_mode_idem.
  - intros r c q [Hr|Hr] Hc Hq.
    + pose proof (HB1 r c q Hr Hc Hq) as H1.
      destruct (HA2 q) as [H2|[_ H2]]; rewrite H2, H1; auto.
      apply fmap_with_mode_idem.
    + pose proof (HB2 r c q Hr Hc Hq) as H2.
      destruct (HA1 q) as [H1|[_ H1]]; rewrite H2, H1; auto.
      apply fmap_with_mode_idem.
Qed.

Lemma set_mode_cfgs e s :
  cfgs (set_quantization_mode_inference e s) = cfgs s.
Proof.
  destruct e; try reflexivity. cbn.
  destruct (cfgs s !! r) as [c|]; [|reflexivity].
  now destruct (quantization c).
Qed.

Lemma set_mode_marks e s :
  marks (fun r => r ∈ direct [e]) (cfgs s) (quants s)
    (quants (set_quantization_mode_inference e s)).
Proof.
  assert (Hnone : marks (fun r => r ∈ direct [e]) (cfgs s) (quants s)
                    (quants s) ->
                  forall s', quants s' = quants s ->
                  marks (fun r => r ∈ direct [e]) (cfgs s) (quants s)
                    (quants s')) by (intros H s' ->; exact H).
  destruct e; cbn [set_quantization_mode_inference];
    try (eapply marks_ext; [|apply marks_none];
         intros r0; cbn; rewrite elem_of_nil; tauto).
  destruct (cfgs s !! r) as [c|] eqn:Hr.
  - destruct (quantization c) as [q|] eqn:Hq.
    + cbn [quants]. split.
      * intros q0. destruct (decide (q0 = q)) as [->|Hne].
        -- right. split; [|apply list_lookup_alter_eq].
           exists r, c. cbn. rewrite list_elem_of_singleton. auto.
        -- left. now apply list_lookup_alter_ne.
      * intros r0 c0 q0 Hr0 Hc0 Hq0. cbn in Hr0.
        apply list_elem_of_singleton in Hr0. subst r0.
        assert (c0 = c) by congruence. subst c0.
        assert (q0 = q) by congruence. subst q0.
        apply list_lookup_alter_eq.
    + split; [now left|].
      intros r0 c0 q0 Hr0 Hc0 Hq0. cbn in Hr0.
      apply list_elem_of_singleton in Hr0. subst r0. congruence.
  - split; [now left|].
    intros r0 c0 q0 Hr0 Hc0 Hq0. cbn in Hr0.
    apply list_elem_of_singleton in Hr0. subst r0. congruence.
Qed.

Lemma direct_cons e ps r :
  r ∈ direct (e :: ps) <-> r ∈ direct [e] \/ r ∈ direct ps.
Proof.
  unfold direct. cbn [omap list_omap].
  destruct e; cbn; rewrite ?elem_of_nil, ?elem_of_cons, ?elem_of_nil; tauto.
Qed.

(** The [for] loop over the elements of one popped value. *)
Lemma fold_visit_spec params :
  forall s stk,
    let st := fold_left visit params (s, stk) in
    cfgs (fst st) = cfgs s /\
    marks (fun r => r ∈ direct params) (cfgs s) (quants s)
      (quants (fst st)) /\
    exists pushed,
      snd st = pushed ++ stk /\
      forall a,
        a ∈ pushed <->
        exists r c, r ∈ direct params /\ cfgs s !! r = Some c /\
                    a ∈ ordered_arguments_values c.
Proof.
  induction params as [|e ps IH]; intros s stk; cbn [fold_left].
  - cbv zeta. cbn [fst snd]. split; [reflexivity|]. split.
    + eapply marks_ext; [|apply marks_none].
      intros r. cbn. rewrite elem_of_nil. tauto.
    + exists []. split; [reflexivity|]. intros a. rewrite elem_of_nil.
      split; [tauto|]. intros (r & c & Hr & _). cbn in Hr.
      now apply elem_of_nil in Hr.
  - set (st1 := visit (s, stk) e).
    assert (Hst1 : cfgs (fst st1) = cfgs s /\
                   quants (fst st1)
                   = quants (set_quantization_mode_inference e s) /\
                   exists pushed1,
                     snd st1 = pushed1 ++ stk /\
                     forall a,
                       a ∈ pushed1 <->
                       exists r c, r ∈ direct [e] /\ cfgs s !! r = Some c /\
                                   a ∈ ordered_arguments_values c).
    { subst st1. unfold visit. cbv zeta. cbn [fst snd].
      destruct e;
        try (cbn [fst snd]; split; [apply set_mode_cfgs|];
             split; [reflexivity|]; exists []; split; [reflexivity|];
             intros a; rewrite elem_of_nil; split; [tauto|];
             intros (r0 & c0 & Hr0 & _); cbn in Hr0;
             now apply elem_of_nil in Hr0).
      rewrite (set_mode_cfgs (VCfg r) s).
      destruct (cfgs s !! r) as [c|] eqn:Hr; cbn [fst snd].
      - split; [apply set_mode_cfgs|]. split; [reflexivity|].
        exists (reverse (ordered_arguments_values c)). split; [reflexivity|].
        intros a. rewrite elem_of_reverse. split.
        + intros Ha. exists r, c. cbn. rewrite list_elem_of_singleton. auto.
        + intros (r0 & c0 & Hr0 & Hc0 & Ha). cbn in Hr0.
          apply list_elem_of_singleton in Hr0. subst r0. congruence.
      - split; [apply set_mode_cfgs|]. split; [reflexivity|].
        exists []. split; [reflexivity|]. intros a. rewrite elem_of_nil.
        split; [tauto|]. intros (r0 & c0 & Hr0 & Hc0 & _). cbn in Hr0.
        apply list_elem_of_singleton in Hr0. subst r0. congruence. }
    destruct Hst1 as (Hc1 & Hq1 & pushed1 & Hs1 & Hp1).
    destruct st1 as [s1 stk1]. cbn [fst snd] in *.
    destruct (IH s1 stk1) as (Hc2 & Hm2 & pushed2 & Hs2 & Hp2).
    cbv zeta. split; [congruence|]. split.
    + rewrite Hc1 in Hm2.
      pose proof (set_mode_marks e s) as Hm1. rewrite <- Hq1 in Hm1.
      eapply marks_ext; [|exact (marks_comp _ _ _ _ _ _ Hm1 Hm2)].
      intros r. cbn beta. symmetry. apply direct_cons.
    + exists (pushed2 ++ pushed1). split.
      * rewrite Hs2, Hs1. now rewrite app_assoc.
      * intros a. rewrite elem_of_app, Hp2, Hp1. rewrite Hc1. split.
        -- intros [(r & c & Hr & H)|(r & c & Hr & H)]; exists r, c;
             (split; [apply direct_cons; auto|exact H]).
        -- intros (r & c & Hr & H). apply direct_cons in Hr.
           destruct Hr as [Hr|Hr]; [right|left]; exists r, c; auto.
Qed.

(** The [while] loop. *)
Lemma loop_spec fuel :
  forall s wl s',
    set_inference_mode_loop fuel s wl = Some s' ->
    cfgs s' = cfgs s /\
    marks (reach_wl (cfgs s) wl) (cfgs s) (quants s) (quants s').
Proof.
  induction fuel as [|fuel IH]; intros s wl s' Hrun; [discriminate|].
  destruct wl as [|p rest]; cbn [set_inference_mode_loop] in Hrun.
  - injection Hrun as <-. split; [reflexivity|].
    eapply marks_ext; [|apply marks_none].
    intros r. split; [tauto|]. intros (v & Hv & _).
    now apply elem_of_nil in Hv.
  - destruct (fold_visit_spec (as_params p) s rest)
      as (Hc & Hm & pushed & Hs & Hp).
    cbv zeta in Hc, Hm, Hs.
    destruct (IH _ _ _ Hrun) as [Hc' Hm'].
    rewrite Hc in Hc', Hm'. split; [exact Hc'|].
    eapply marks_ext; [|exact (marks_comp _ _ _ _ _ _ Hm Hm')].
    intros r. cbn beta. rewrite Hs. split.
    + intros [Hr|(v & Hv & Hr)].
      * exists p. split; [apply elem_of_cons; now left|].
        now apply reach_here.
      * apply elem_of_app in Hv. destruct Hv as [Hv|Hv].
        -- apply Hp in Hv. destruct Hv as (r0 & c0 & Hr0 & Hc0 & Ha).
           exists p. split; [apply elem_of_cons; now left|].
           eapply reach_arg; eauto.
        -- exists v. split; [apply elem_of_cons; now right|exact Hr].
    + intros (v & Hv & Hr). apply elem_of_cons in Hv.
      destruct Hv as [->|Hv].
      * inversion Hr as [v r1 Hin|v r0 c0 a r1 Hr0 Hc0 Ha Hreach]; subst.
        -- now left.
        -- right. exists a. split; [|exact Hreach].
           apply elem_of_app. left. apply Hp. eauto.
      * right. exists v. split; [|exact Hr]. apply elem_of_app. now right.
Qed.

Lemma loop_mono fuel :
  forall s wl s',
    set_inference_mode_loop fuel s wl = Some s' ->
    forall fuel', fuel <= fuel' ->
    set_inference_mode_loop fuel' s wl = Some s'.
Proof.
  induction fuel as [|fuel IH]; intros s wl s' Hrun fuel' Hle;
    [discriminate|].
  destruct fuel' as [|fuel']; [lia|].
  destruct wl as [|p rest]; cbn [set_inference_mode_loop] in *.
  - exact Hrun.
  - apply (IH _ _ _ Hrun). lia.
Qed.

Lemma visit_app s stk extra e :
  visit (s, stk ++ extra) e
  = (fst (visit (s, stk) e), snd (visit (s, stk) e) ++ extra).
Proof.
  unfold visit. cbv zeta. cbn [fst snd].
  destruct e; try reflexivity.
  destruct (cfgs _ !! r); cbn [fst snd]; [|reflexivity].
  now rewrite app_assoc.
Qed.

Lemma fold_visit_app params :
  forall s stk extra,
    fold_left visit params (s, stk ++ extra)
    = (fst (fold_left visit params (s, stk)),
       snd (fold_left visit params (s, stk)) ++ extra).
Proof.
  induction params as [|e ps IH]; intros s stk extra; cbn [fold_left].
  - reflexivity.
  - rewrite visit_app. destruct (visit (s, stk) e) as [s1 stk1].
    cbn [fst snd]. apply IH.
Qed.

(** What is below the values being processed waits until they are done. *)
Lemma loop_app f1 :
  forall s wl1 s1 f2 wl2 s2,
    set_inference_mode_loop f1 s wl1 = Some s1 ->
    set_inference_mode_loop f2 s1 wl2 = Some s2 ->
    set_inference_mode_loop (f1 + f2) s (wl1 ++ wl2) = Some s2.
Proof.
  induction f1 as [|f1 IH]; intros s wl1 s1 f2 wl2 s2 H1 H2; [discriminate|].
  destruct wl1 as [|p rest].
  - cbn in H1. injection H1 as <-. cbn [app].
    apply (loop_mono _ _ _ _ H2). lia.
  - cbn [set_inference_mode_loop] in H1.
    cbn [app Nat.add set_inference_mode_loop].
    rewrite fold_visit_app. cbn [fst snd]. eapply IH; eauto.
Qed.

Lemma loop_terminates cs rk :
  ranked cs rk ->
  forall d wl,
    Forall (bounded rk d) wl ->
    forall s, cfgs s = cs ->
    exists fuel s', set_inference_mode_loop fuel s wl = Some s'.
Proof.
  intros Hrk d. induction d as [|d IHd]; intros wl;
    induction wl as [|p rest IHwl]; intros Hb s Hs;
    try (exists 1, s; reflexivity).
  - (* rank 0: nothing to push *)
    apply Forall_cons in Hb. destruct Hb as [Hp Hrest].
    destruct (fold_visit_spec (as_params p) s [])
      as (Hc & _ & pushed & Hpush & Hin). cbv zeta in Hc, Hpush.
    assert (pushed = []).
    { destruct pushed as [|a pushed]; [reflexivity|].
      destruct (proj1 (Hin a)) as (r & c & Hr & _);
        [apply elem_of_cons; now left|].
      specialize (Hp r Hr). lia. }
    subst pushed. cbn [app] in Hpush.
    destruct (IHwl Hrest (fst (fold_left visit (as_params p) (s, [])))
                ltac:(congruence)) as (f2 & s2 & H2).
    exists (2 + f2), s2.
    apply (loop_app 2 s [p] (fst (fold_left visit (as_params p) (s, [])))
             f2 rest s2); [|exact H2].
    cbn [set_inference_mode_loop]. now rewrite Hpush.
  - apply Forall_cons in Hb. destruct Hb as [Hp Hrest].
    destruct (fold_visit_spec (as_params p) s [])
      as (Hc & _ & pushed & Hpush & Hin). cbv zeta in Hc, Hpush.
    rewrite app_nil_r in Hpush.
    assert (Hpushed : Forall (bounded rk d) pushed).
    { apply Forall_forall. intros a Ha.
      destruct (proj1 (Hin a) Ha) as (r & c & Hr & Hc0 & Harg).
      intros r' Hr'. specialize (Hp r Hr).
      rewrite Hs in Hc0.
      pose proof (Hrk r c a r' Hc0 Harg Hr'). lia. }
    destruct (IHd pushed Hpushed
                (fst (fold_left visit (as_params p) (s, [])))
                ltac:(congruence)) as (f1 & s1 & H1).
    destruct (loop_spec _ _ _ _ H1) as [Hc1 _].
    destruct (IHwl Hrest s1 ltac:(congruence)) as (f2 & s2 & H2).
    exists (S f1 + f2), s2.
    apply (loop_app (S f1) s [p] s1 f2 rest s2); [|exact H2].
    cbn [set_inference_mode_loop]. now rewrite Hpush.
Qed.

Lemma check_ranked_from_sound rk cs :
  forall i,
    check_ranked_from rk i cs = true ->
    forall r c a r',
      cs !! r = Some c ->
      a ∈ ordered_arguments_values c ->
      r' ∈ elem_cfgs a ->
      rk r' < rk (i + r).
Proof.
  induction cs as [|c0 cs IH]; intros i Hchk r c a r' Hr Ha Hr';
    [discriminate|].
  cbn [check_ranked_from] in Hchk. apply andb_true_iff in Hchk.
  destruct Hchk as [Hhere Hrest].
  destruct r as [|r]; cbn in Hr.
  - injection Hr as <-. rewrite Nat.add_0_r.
    rewrite forallb_forall in Hhere.
    specialize (Hhere a (proj1 (list_elem_of_In _ _) Ha)).
    rewrite forallb_forall in Hhere.
    specialize (Hhere r' (proj1 (list_elem_of_In _ _) Hr')).
    now apply Nat.ltb_lt in Hhere.
  - replace (i + S r) with (S i + r) by lia. eapply IH; eauto.
Qed.

Lemma check_ranked_sound rk cs :
  check_ranked_from rk 0 cs = true -> ranked cs rk.
Proof.
  intros H r c a r' Hr Ha Hr'.
  exact (check_ranked_from_sound rk cs 0 H r c a r' Hr Ha Hr').
Qed.

Lemma marks_length R cs Q Q' : marks R cs Q Q' -> length Q' = length Q.
Proof.
  intros [HA _].
  destruct (Nat.lt_trichotomy (length Q') (length Q)) as [H|[H|H]];
    [|exact H|].
  - destruct (lookup_lt_is_Some_2 Q (length Q') H) as [x Hx].
    pose proof (lookup_ge_None_2 Q' (length Q') (Nat.le_refl _)) as Hn.
    destruct (HA (length Q')) as [HQ|[_ HQ]]; rewrite Hn, Hx in HQ;
      discriminate.
  - destruct (lookup_lt_is_Some_2 Q' (length Q) H) as [x Hx].
    pose proof (lookup_ge_None_2 Q (length Q) (Nat.le_refl _)) as Hn.
    destruct (HA (length Q)) as [HQ|[_ HQ]]; rewrite Hn, Hx in HQ;
      discriminate.
Qed.

Lemma bounded_exists rk v : exists d, bounded rk d v.
Proof.
  unfold bounded. induction (elem_cfgs v) as [|r l IH].
  - exists 0. intros r Hr. now apply elem_of_nil in Hr.
  - destruct IH as [d Hd]. exists (Nat.max d (S (rk r))).
    intros r0 Hr0. apply elem_of_cons in Hr0. destruct Hr0 as [->|Hr0].
    + lia.
    + specialize (Hd r0 Hr0). lia.
Qed.

Lemma reach_wl_single cs v r : reach_wl cs [v] r <-> reach cs v r.
Proof.
  split.
  - intros (v' & Hv & Hr). apply list_elem_of_singleton in Hv. now subst.
  - intros Hr. exists v. split; [apply list_elem_of_singleton|]; auto.
Qed.

Lemma set_inference_mode_run s config rk :
  ranked (cfgs s) rk ->
  exists fuel s',
    set_inference_mode fuel config s = Some s' /\
    cfgs s' = cfgs s /\
    marks (reach (cfgs s) config) (cfgs s) (quants s) (quants s').
Proof.
  intros Hrk. destruct (bounded_exists rk config) as [d Hd].
  assert (Hwl : Forall (bounded rk d) [config])
    by (constructor; [exact Hd|constructor]).
  destruct (loop_terminates (cfgs s) rk Hrk d [config] Hwl s eq_refl)
    as (fuel & s' & Hrun).
  exists fuel, s'. split; [exact Hrun|].
  destruct (loop_spec _ _ _ _ Hrun) as [Hc Hm]. split; [exact Hc|].
  eapply marks_ext; [|exact Hm]. intros r. apply reach_wl_single.
Qed.

Lemma omap_chars (l : list ascii) :
  omap (fun e => match e with VCfg r => Some r | _ => None end)
    (map (fun a => VStr (String a EmptyString)) l) = [].
Proof. induction l as [|a l IH]; [reflexivity|exact IH]. Qed.

(** The walk opens a value exactly as the data model reads it. *)
Lemma holds_elem_cfgs v r : holds v r <-> r ∈ elem_cfgs v.
Proof.
  unfold elem_cfgs. split.
  - intros [r0|l r0 Hin]; cbn [as_params].
    + apply list_elem_of_singleton. reflexivity.
    + apply list_elem_of_omap. exists (VCfg r0). split; [exact Hin|reflexivity].
  - destruct v as [| | |str|r0|l|dct]; cbn [as_params]; intros H;
      try (apply elem_of_nil in H; contradiction).
    + rewrite omap_chars in H. now apply elem_of_nil in H.
    + apply list_elem_of_singleton in H. subst. constructor.
    + apply list_elem_of_omap in H as (e & He & Hr).
      destruct e; try discriminate. injection Hr as ->. now constructor.
Qed.

Lemma arg_value c name a :
  (name, a) ∈ args c -> a ∈ ordered_arguments_values c.
Proof.
  intros H. unfold ordered_arguments_values.
  apply list_elem_of_fmap. exists (name, a). auto.
Qed.

Lemma value_arg c a :
  a ∈ ordered_arguments_values c -> exists name, (name, a) ∈ args c.
Proof.
  unfold ordered_arguments_values. intros H.
  apply list_elem_of_fmap in H as ([name a'] & -> & Hin). now exists name.
Qed.

Lemma in_graph_reach cs v r : in_graph cs v r <-> reach cs v r.
Proof.
  split.
  - induction 1 as [root r Hh|root r0 c0 name a r Hh Hc Ha _ IH].
    + apply reach_here. now apply holds_elem_cfgs.
    + eapply reach_arg; [apply holds_elem_cfgs; exact Hh|exact Hc| |exact IH].
      eapply arg_value; eauto.
  - induction 1 as [v r Hin|v r0 c0 a r Hin Hc Ha _ IH].
    + apply in_graph_root. now apply holds_elem_cfgs.
    + destruct (value_arg _ _ Ha) as [name Hname].
      eapply in_graph_arg; [apply holds_elem_cfgs; exact Hin|exact Hc| |exact IH].
      exact Hname.
Qed.

Lemma no_cycle_ranked cs rk : no_cycle cs rk <-> ranked cs rk.
Proof.
  split.
  - intros H r c a r' Hc Ha Hr'.
    destruct (value_arg _ _ Ha) as [name Hname].
    apply (H r c name a r' Hc Hname). now apply holds_elem_cfgs.
  - intros H r c name a r' Hc Ha Hr'.
    apply (H r c a r' Hc); [eapply arg_value; eauto|].
    now apply holds_elem_cfgs.
Qed.

(** C7.  On a configuration graph without cycles, [set_inference_mode]
    returns.  It leaves every template as it is.  For every template of the
    graph under [config] (the templates that [config] and, in turn, the
    arguments of these templates hold, as a template or as an element of a
    sequence) that carries a [quantization] argument, the
    [QuantizationParams] object it carries ends with mode [INFERENCE] and
    with its quantization type, weight parameters and activation parameters
    as they were; any [QuantizationParams] object that no such template
    carries is left as it is.  Running it again gives the same store. *)
Theorem set_inference_mode_spec s config rk :
  no_cycle (cfgs s) rk ->
  exists fuel0 s',
    (forall fuel,
       fuel0 <= fuel -> set_inference_mode fuel config s = Some s') /\
    cfgs s' = cfgs s /\
    length (quants s') = length (quants s) /\
    (forall r c q qp,
       in_graph (cfgs s) config r ->
       cfgs s !! r = Some c -> quantization c = Some q ->
       quants s !! q = Some qp ->
       quants s' !! q
       = Some {| quantization_type := quantization_type qp;
                 mode := INFERENCE;
                 act_params := act_params qp;
                 weight_params := weight_params qp |}) /\
    (forall q,
       ~ (exists r c,
            in_graph (cfgs s) config r /\
            cfgs s !! r = Some c /\ quantization c = Some q) ->
       quants s' !! q = quants s !! q) /\
    (forall fuel,
       fuel0 <= fuel -> set_inference_mode fuel config s' = Some s').
Proof.
  intros Hnc. pose proof (proj1 (no_cycle_ranked _ _) Hnc) as Hrk.
  destruct (set_inference_mode_run s config rk Hrk)
    as (f1 & s' & Hrun1 & Hc1 & Hm1).
  assert (Hrk' : ranked (cfgs s') rk) by now rewrite Hc1.
  destruct (set_inference_mode_run s' config rk Hrk')
    as (f2 & s'' & Hrun2 & Hc2 & Hm2).
  rewrite Hc1 in Hm2.
  assert (Hsame : s'' = s').
  { destruct s'' as [cs'' Q''], s' as [cs' Q']. cbn [cfgs quants] in *.
    f_equal; [congruence|]. apply list_eq. intros q.
    destruct Hm2 as [HA2 _]. destruct Hm1 as [_ HB1].
    destruct (HA2 q) as [H|[(r & c & Hr & Hc & Hq) H]]; [exact H|].
    rewrite H, (HB1 r c q Hr Hc Hq). apply fmap_with_mode_idem. }
  subst s''.
  exists (Nat.max f1 f2), s'. split; [|split; [|split; [|split; [|split]]]].
  - intros fuel Hle. apply (loop_mono _ _ _ _ Hrun1). lia.
  - exact Hc1.
  - eapply marks_length; eauto.
  - intros r c q qp Hin Hc Hq Hqp. destruct Hm1 as [_ HB].
    rewrite (HB r c q (proj1 (in_graph_reach _ _ _) Hin) Hc Hq), Hqp.
    reflexivity.
  - intros q Hnot. destruct Hm1 as [HA _].
    destruct (HA q) as [H|[(r & c & Hr & Hc & Hq) _]]; [exact H|].
    exfalso. apply Hnot. exists r, c.
    split; [now apply in_graph_reach|auto].
  - intros fuel Hle. apply (loop_mono _ _ _ _ Hrun2). lia.
Qed.

Lemma set_inference_mode_spec_witness :
  no_cycle (cfgs lm_quantized) lm_quantized_rank /\
  in_graph (cfgs lm_quantized) (VCfg 0) 10 /\
  (quantization <$> cfgs lm_quantized !! 10) = Some (Some 0) /\
  (mode <$> quants lm_quantized !! 0) = Some TRAINING /\
  exists fuel0 s',
    (forall fuel,
       fuel0 <= fuel -> set_inference_mode fuel (VCfg 0) lm_quantized
                        = Some s') /\
    cfgs s' = cfgs lm_quantized /\
    quants s' !! 0
    = Some {| quantization_type := FQ; mode := INFERENCE;
              act_params := None;
              weight_params :=
                Some {| WeightQuantizationParams.precision := 8;
                        WeightQuantizationParams.use_symmetric := true;
                        WeightQuantizationParams.dtype := jnp_int8;
                        WeightQuantizationParams.block_size := Some 0%Z;
                        WeightQuantizationParams.use_int4_packed_weights :=
                          Some true;
                        WeightQuantizationParams.int4_packed_weights_container_dtype
                          := Some jnp_int32 |} |} /\
    (forall fuel,
       fuel0 <= fuel -> set_inference_mode fuel (VCfg 0) s' = Some s').
Proof.
  assert (Hnc : no_cycle (cfgs lm_quantized) lm_quantized_rank)
    by (apply no_cycle_ranked, check_ranked_sound; vm_compute; reflexivity).
  assert (Hin : in_graph (cfgs lm_quantized) (VCfg 0) 10).
  { (* the language model, its stack, the block in the sequence of the
       stack, the attention template of the block, its projection *)
    eapply (in_graph_arg _ (VCfg 0) 0 _ "stacked_transformer_tpl" (VCfg 1));
      [constructor|vm_compute; reflexivity|apply list_elem_of_In; cbn; auto|].
    eapply (in_graph_arg _ (VCfg 1) 1 _ "transformer_layer_params_tpl"
              (VSeq [VCfg 2]));
      [constructor|vm_compute; reflexivity|apply list_elem_of_In; cbn; auto|].
    eapply (in_graph_arg _ (VSeq [VCfg 2]) 2 _ "tr_atten_tpl" (VCfg 3));
      [constructor; apply list_elem_of_singleton; reflexivity
      |vm_compute; reflexivity|apply list_elem_of_In; cbn; auto|].
    eapply (in_graph_arg _ (VCfg 3) 3 _ "proj_tpl" (VCfg 10));
      [constructor|vm_compute; reflexivity|apply list_elem_of_In; cbn; auto|].
    apply in_graph_root. constructor. }
  split; [exact Hnc|]. split; [exact Hin|].
  split; [vm_compute; reflexivity|]. split; [vm_compute; reflexivity|].
  destruct (set_inference_mode_spec lm_quantized (VCfg 0) lm_quantized_rank
              Hnc) as (fuel0 & s' & Hrun & Hc & _ & Hset & _ & Hidem).
  exists fuel0, s'. split; [exact Hrun|]. split; [exact Hc|].
  split; [|exact Hidem].
  apply (Hset 10
           {| cls := quantization_attentions_AttentionProjection;
              quantization := Some 0; args := [] |}
           0 (qparams FQ TRAINING None
                (transformer_weight_params 8 true jnp_int8 0 true jnp_int32))
           Hin);
    vm_compute; reflexivity.
Defined.

(** The same walk, evaluated: every quantized template of the sample model
    is switched to [INFERENCE] and a second run changes nothing. *)
Example set_inference_mode_sample :
  exists s',
    set_inference_mode 40 (VCfg 0) lm_quantized = Some s' /\
    map mode (quants lm_quantized)
    = [TRAINING; TRAINING; TRAINING; TRAINING; TRAINING] /\
    map mode (quants s')
    = [INFERENCE; INFERENCE; INFERENCE; INFERENCE; INFERENCE] /\
    set_inference_mode 40 (VCfg 0) s' = Some s'.
Proof.
  eexists. split; [vm_compute; reflexivity|].
  split; [vm_compute; reflexivity|].
  split; vm_compute; reflexivity.
Qed.

(** ** C9: building a template graph *)

Lemma grows_refl st : grows st st.
Proof. split; [exists []; now rewrite app_nil_r|auto]. Qed.

Lemma grows_trans st st1 st2 : grows st st1 -> grows st1 st2 -> grows st st2.
Proof.
  intros [[l1 H1] Hc1] [[l2 H2] Hc2]. split; [|auto].
  exists (l1 ++ l2). now rewrite H2, H1, app_assoc.
Qed.

Lemma field_of_grows m m' a f :
  (forall r o, cache_lookup r m = Some o -> cache_lookup r m' = Some o) ->
  field_of m a f -> field_of m' a f.
Proof.
  intros Hm. destruct a, f; cbn; auto.
  intros H. induction H; constructor; auto.
Qed.

Lemma fields_of_grows m m' l fs :
  (forall r o, cache_lookup r m = Some o -> cache_lookup r m' = Some o) ->
  fields_of m l fs -> fields_of m' l fs.
Proof.
  intros Hm H. induction H as [|ka kf l fs [Hk Hf] _ IH]; constructor; auto.
  split; [exact Hk|]. eapply field_of_grows; eauto.
Qed.

Lemma built_from_refl g rk b rs st : cache_ok g b st -> built_from g rk b rs st st.
Proof.
  intros Hok. split; [exact Hok|]. split; [apply grows_refl|].
  intros r' Hn [o Ho]. congruence.
Qed.

Lemma built_from_trans g rk b rs1 rs2 st st1 st2 :
  built_from g rk b rs1 st st1 -> built_from g rk b rs2 st1 st2 ->
  built_from g rk b (rs1 ++ rs2) st st2.
Proof.
  intros (Hok1 & Hg1 & Hn1) (Hok2 & Hg2 & Hn2).
  split; [exact Hok2|]. split; [eapply grows_trans; eauto|].
  intros r' Hnone Hsome.
  destruct (cache_lookup r' (built st1)) as [o|] eqn:H1.
  - destruct (Hn1 r' Hnone ltac:(eauto)) as (r & Hr & Hle).
    exists r. split; [apply elem_of_app; now left|exact Hle].
  - destruct (Hn2 r' H1 Hsome) as (r & Hr & Hle).
    exists r. split; [apply elem_of_app; now right|exact Hle].
Qed.

Lemma built_from_weaken g rk b rs rs' st st' :
  (forall r, r ∈ rs -> r ∈ rs') ->
  built_from g rk b rs st st' -> built_from g rk b rs' st st'.
Proof.
  intros Hsub (Hok & Hg & Hn). split; [exact Hok|]. split; [exact Hg|].
  intros r' H1 H2. destruct (Hn r' H1 H2) as (r & Hr & Hle). eauto.
Qed.

Section BuildArgsSpec.

Variable g : list node.
Variable rk : ref -> nat.
Variable b : nat.
Variable build_rec : ref -> build_state -> option (oref * build_state).

Hypothesis build_rec_spec :
  forall r st o st',
    cache_ok g b st ->
    build_rec r st = Some (o, st') ->
    built_from g rk b [r] st st' /\ cache_lookup r (built st') = Some o.

Lemma build_nodes_spec rs :
  forall st os st',
    cache_ok g b st ->
    build_nodes build_rec rs st = Some (os, st') ->
    built_from g rk b rs st st' /\
    Forall2 (fun r o => cache_lookup r (built st') = Some o) rs os.
Proof.
  induction rs as [|r rs IH]; intros st os st' Hok Hrun;
    cbn [build_nodes] in Hrun.
  - injection Hrun as <- <-. split; [now apply built_from_refl|constructor].
  - destruct (build_rec r st) as [[o st1]|] eqn:Hr; [|discriminate].
    destruct (build_nodes build_rec rs st1) as [[os' st2]|] eqn:Hrs;
      [|discriminate].
    injection Hrun as <- <-.
    destruct (build_rec_spec r st o st1 Hok Hr) as [Hb1 Ho].
    destruct (IH st1 os' st2 (proj1 Hb1) Hrs) as [Hb2 Hos].
    split.
    + exact (built_from_trans _ _ _ [r] rs _ _ _ Hb1 Hb2).
    + constructor; [|exact Hos].
      destruct Hb2 as (_ & [_ Hc] & _). auto.
Qed.

Lemma build_arg_spec a st f st' :
  cache_ok g b st ->
  build_arg build_rec a st = Some (f, st') ->
  built_from g rk b (arg_nodes a) st st' /\ field_of (built st') a f.
Proof.
  intros Hok Hrun. destruct a as [p|r|rs|r]; cbn [build_arg] in Hrun.
  - injection Hrun as <- <-. split; [now apply built_from_refl|reflexivity].
  - destruct (build_rec r st) as [[o st1]|] eqn:Hr; [|discriminate].
    injection Hrun as <- <-.
    exact (build_rec_spec r st o st1 Hok Hr).
  - destruct (build_nodes build_rec rs st) as [[os st1]|] eqn:Hrs;
      [|discriminate].
    injection Hrun as <- <-.
    exact (build_nodes_spec rs st os st1 Hok Hrs).
  - injection Hrun as <- <-. split; [now apply built_from_refl|reflexivity].
Qed.

Lemma build_args_spec l :
  forall st fs st',
    cache_ok g b st ->
    build_args build_rec l st = Some (fs, st') ->
    built_from g rk b (flat_map (fun ka => arg_nodes (snd ka)) l) st st' /\
    fields_of (built st') l fs.
Proof.
  induction l as [|[k a] l IH]; intros st fs st' Hok Hrun;
    cbn [build_args] in Hrun.
  - injection Hrun as <- <-. split; [now apply built_from_refl|constructor].
  - destruct (build_arg build_rec a st) as [[f st1]|] eqn:Ha; [|discriminate].
    destruct (build_args build_rec l st1) as [[fs' st2]|] eqn:Hl;
      [|discriminate].
    injection Hrun as <- <-.
    destruct (build_arg_spec a st f st1 Hok Ha) as [Hb1 Hf].
    destruct (IH st1 fs' st2 (proj1 Hb1) Hl) as [Hb2 Hfs].
    split.
    + cbn [flat_map snd]. eapply built_from_trans; eauto.
    + constructor; [|exact Hfs]. split; [reflexivity|]. cbn [snd].
      destruct Hb2 as (_ & [_ Hc] & _). eapply field_of_grows; eauto.
Qed.

End BuildArgsSpec.

Lemma cache_lookup_cons r o m r' :
  cache_lookup r' ((r, o) :: m)
  = if Nat.eqb r r' then Some o else cache_lookup r' m.
Proof. reflexivity. Qed.

Lemma build_node_spec g rk b :
  buildable g rk ->
  forall d r st o st',
    cache_ok g b st ->
    build_node d g r st = Some (o, st') ->
    built_from g rk b [r] st st' /\ cache_lookup r (built st') = Some o.
Proof.
  intros Hg d. induction d as [|d IH]; intros r st o st' Hok Hrun;
    [discriminate|].
  cbn [build_node] in Hrun.
  destruct (cache_lookup r (built st)) as [o0|] eqn:Hhit.
  { injection Hrun as <- <-. split; [now apply built_from_refl|exact Hhit]. }
  destruct (g !! r) as [n|] eqn:Hn; [|discriminate].
  destruct (build_args (build_node d g) (arguments n) st) as [[fs st1]|]
    eqn:Hargs; [|discriminate].
  injection Hrun as <- <-.
  destruct (build_args_spec g rk b (build_node d g) IH (arguments n) st fs st1
              Hok Hargs) as [(Hok1 & Hgr1 & Hnew1) Hfs].
  (* the node itself was not built on the way *)
  assert (Hmiss : cache_lookup r (built st1) = None).
  { destruct (cache_lookup r (built st1)) as [o1|] eqn:H1; [|reflexivity].
    destruct (Hnew1 r Hhit ltac:(eauto)) as (r0 & Hr0 & Hle).
    apply list_elem_of_In, in_flat_map in Hr0.
    destruct Hr0 as ([k a] & Hka & Hin).
    destruct (Hg r n k a r0 Hn (proj2 (list_elem_of_In _ _) Hka)
                (proj2 (list_elem_of_In _ _) Hin)) as [Hlt _].
    lia. }
  assert (Hmono : forall r0 o0,
            cache_lookup r0 (built st1) = Some o0 ->
            cache_lookup r0 ((r, length (heap st1)) :: built st1) = Some o0).
  { intros r0 o0 H0. rewrite cache_lookup_cons.
    destruct (Nat.eqb_spec r r0) as [->|_]; [congruence|exact H0]. }
  destruct Hok1 as [Hb1 Hc1].
  split; [split; [|split]|].
  - (* cache_ok *)
    split; cbn [heap built]; [rewrite length_app; lia|].
    intros r0 o0 H0. rewrite cache_lookup_cons in H0.
    destruct (Nat.eqb_spec r r0) as [->|Hne].
    + injection H0 as <-. split; [exact Hb1|].
      exists n, {| itype := target n; fields := fs |}.
      split; [exact Hn|]. split.
      * rewrite lookup_app_r by lia. now rewrite Nat.sub_diag.
      * split; [reflexivity|]. cbn [fields].
        eapply fields_of_grows; [exact Hmono|exact Hfs].
    + destruct (Hc1 r0 o0 H0) as (Hle & n0 & i0 & Hn0 & Hi0 & Hty & Hf0).
      split; [exact Hle|]. exists n0, i0. split; [exact Hn0|].
      split; [now apply lookup_app_l_Some|]. split; [exact Hty|].
      eapply fields_of_grows; [exact Hmono|exact Hf0].
  - (* grows *)
    eapply grows_trans; [exact Hgr1|]. split; cbn [heap built]; eauto.
  - (* only the node and what is below it has been added *)
    cbn [built]. intros r' Hnone Hsome. rewrite cache_lookup_cons in Hsome.
    destruct (Nat.eqb_spec r r') as [->|Hne].
    + exists r'. split; [apply list_elem_of_singleton; reflexivity|lia].
    + destruct (Hnew1 r' Hnone Hsome) as (r0 & Hr0 & Hle).
      apply list_elem_of_In, in_flat_map in Hr0.
      destruct Hr0 as ([k a] & Hka & Hin).
      destruct (Hg r n k a r0 Hn (proj2 (list_elem_of_In _ _) Hka)
                  (proj2 (list_elem_of_In _ _) Hin)) as [Hlt _].
      exists r. split; [apply list_elem_of_singleton; reflexivity|lia].
  - cbn [built]. rewrite cache_lookup_cons. now rewrite Nat.eqb_refl.
Qed.

(** Enough depth, and the build returns. *)
Lemma build_nodes_total (build_rec : ref -> build_state ->
                                     option (oref * build_state)) rs :
  (forall r, r ∈ rs -> forall st, is_Some (build_rec r st)) ->
  forall st, is_Some (build_nodes build_rec rs st).
Proof.
  induction rs as [|r rs IH]; intros Hrec st; cbn [build_nodes]; [eauto|].
  destruct (Hrec r ltac:(apply elem_of_cons; now left) st) as [[o st1] ->].
  destruct (IH (fun r0 H => Hrec r0 ltac:(apply elem_of_cons; now right))
              st1) as [[os st2] ->].
  eauto.
Qed.

Lemma build_args_total (build_rec : ref -> build_state ->
                                    option (oref * build_state)) l :
  (forall k a r, (k, a) ∈ l -> r ∈ arg_nodes a ->
                 forall st, is_Some (build_rec r st)) ->
  forall st, is_Some (build_args build_rec l st).
Proof.
  induction l as [|[k a] l IH]; intros Hrec st; cbn [build_args]; [eauto|].
  assert (Ha : is_Some (build_arg build_rec a st)).
  { destruct a as [p|r|rs|r]; cbn [build_arg]; eauto.
    - destruct (Hrec k (ANode r) r ltac:(apply elem_of_cons; now left)
                  ltac:(apply list_elem_of_singleton; reflexivity) st)
        as [[o st1] ->]. eauto.
    - destruct (build_nodes_total build_rec rs
                  (fun r0 H => Hrec k (ANodes rs) r0
                                 ltac:(apply elem_of_cons; now left) H) st)
        as [[os st1] ->]. eauto. }
  destruct Ha as [[f st1] ->].
  destruct (IH (fun k0 a0 r0 H => Hrec k0 a0 r0
                                    ltac:(apply elem_of_cons; now right))
              st1) as [[fs st2] ->].
  eauto.
Qed.

Lemma build_node_total g rk :
  buildable g rk ->
  forall d r st,
    rk r < d -> is_Some (g !! r) -> is_Some (build_node d g r st).
Proof.
  intros Hg d. induction d as [|d IH]; intros r st Hlt [n Hn]; [lia|].
  cbn [build_node].
  destruct (cache_lookup r (built st)); [eauto|]. rewrite Hn.
  destruct (build_args_total (build_node d g) (arguments n)
              (fun k a r' Hka Hr' st0 =>
                 IH r' st0
                   ltac:(pose proof (proj1 (Hg r n k a r' Hn Hka Hr')); lia)
                   (proj2 (Hg r n k a r' Hn Hka Hr'))) st)
    as [[fs st1] ->].
  eauto.
Qed.

(** Two lists related to a common one. *)
Lemma Forall2_common {A B C} (P : A -> B -> Prop) (Q : A -> C -> Prop)
    (R : B -> C -> Prop) l l1 l2 :
  Forall2 P l l1 -> Forall2 Q l l2 ->
  (forall x y z, x ∈ l -> P x y -> Q x z -> R y z) ->
  Forall2 R l1 l2.
Proof.
  intros H1. revert l2. induction H1 as [|x y l l1 Hxy _ IH]; intros l2 H2 HR.
  - inversion H2. constructor.
  - inversion H2 as [|x' z l' l2' Hxz H2']; subst. constructor.
    + apply (HR x); auto. apply elem_of_cons. now left.
    + apply IH; auto. intros x0 y0 z0 Hin. apply HR.
      apply elem_of_cons. now right.
Qed.

(** Two builds of the same node give instances that are equal by value. *)
Lemma builds_same_value g rk b1 b2 st1 st2 :
  buildable g rk -> cache_ok g b1 st1 -> cache_ok g b2 st2 ->
  forall d r o1 o2,
    rk r < d ->
    cache_lookup r (built st1) = Some o1 ->
    cache_lookup r (built st2) = Some o2 ->
    same_value (heap st1) (heap st2) o1 o2.
Proof.
  intros Hg [_ Hc1] [_ Hc2] d.
  induction d as [|d IH]; intros r o1 o2 Hlt H1 H2; [lia|].
  destruct (Hc1 r o1 H1) as (_ & n & i1 & Hn & Hi1 & Hty1 & Hf1).
  destruct (Hc2 r o2 H2) as (_ & n' & i2 & Hn' & Hi2 & Hty2 & Hf2).
  assert (n' = n) by congruence. subst n'.
  apply (same_value_intro _ _ o1 o2 i1 i2 Hi1 Hi2); [congruence|].
  apply (Forall2_common _ _ _ (arguments n) _ _ Hf1 Hf2).
  intros [k a] [k1 f1] [k2 f2] Hin [Hk1 Hfa1] [Hk2 Hfa2].
  cbn [fst snd] in *. split; [congruence|].
  destruct a as [p|r'|rs|r']; destruct f1, f2; cbn in Hfa1, Hfa2;
    try contradiction.
  - subst. constructor.
  - constructor.
    apply (IH r'); auto.
    destruct (Hg r n k (ANode r') r' Hn Hin
                ltac:(apply list_elem_of_singleton; reflexivity)) as [H _].
    lia.
  - constructor.
    apply (Forall2_common _ _ _ rs _ _ Hfa1 Hfa2).
    intros r' a' b' Hr' Ha' Hb'. apply (IH r'); auto.
    destruct (Hg r n k (ANodes rs) r' Hn Hin Hr') as [H _]. lia.
  - subst. constructor.
Qed.

(** Instances are never modified: what is equal by value stays so when the
    second heap grows. *)
Lemma Forall2_field_of_objs m a f o :
  field_of m a f -> o ∈ field_objs f ->
  exists r, r ∈ arg_nodes a /\ cache_lookup r m = Some o.
Proof.
  destruct a as [p|r|rs|r], f as [p'|o'|os|r']; cbn; try contradiction;
    try (intros _ H; now apply elem_of_nil in H).
  - intros H Ho. apply list_elem_of_singleton in Ho. subst o'.
    exists r. split; [apply list_elem_of_singleton; reflexivity|exact H].
  - intros H. induction H as [|r o' rs os Hro _ IH]; intros Ho.
    + now apply elem_of_nil in Ho.
    + apply elem_of_cons in Ho. destruct Ho as [->|Ho].
      * exists r. split; [apply elem_of_cons; now left|exact Hro].
      * destruct (IH Ho) as (r0 & Hr0 & H0).
        exists r0. split; [apply elem_of_cons; now right|exact H0].
Qed.

Lemma fields_of_elem m l fs k f :
  fields_of m l fs -> (k, f) ∈ fs ->
  exists a, (k, a) ∈ l /\ field_of m a f.
Proof.
  intros H. induction H as [|[k0 a0] [k1 f1] l fs [Hk Hf] _ IH]; intros Hin.
  - now apply elem_of_nil in Hin.
  - apply elem_of_cons in Hin. destruct Hin as [Heq|Hin].
    + injection Heq as -> ->. cbn [fst snd] in *. subst k0.
      exists a0. split; [apply elem_of_cons; now left|exact Hf].
    + destruct (IH Hin) as (a & Ha & Hfa).
      exists a. split; [apply elem_of_cons; now right|exact Hfa].
Qed.

(** The nested sub-instances of a cached instance are cached instances. *)
Lemma sub_instance_cached g b st o x :
  cache_ok g b st ->
  sub_instance (heap st) o x ->
  (exists r, cache_lookup r (built st) = Some o) ->
  exists rx, cache_lookup rx (built st) = Some x.
Proof.
  intros [_ Hc] Hsub. induction Hsub as [o|o i k f o' x Hi Hkf Ho' _ IH];
    intros [r Hr]; [eauto|].
  apply IH.
  destruct (Hc r o Hr) as (_ & n & i' & Hn & Hi' & _ & Hf).
  assert (i' = i) by congruence. subst i'.
  destruct (fields_of_elem _ _ _ k f Hf Hkf) as (a & _ & Hfa).
  destruct (Forall2_field_of_objs _ _ _ _ Hfa Ho') as (r' & _ & Hr').
  eauto.
Qed.

Lemma cached_range g b st r o :
  cache_ok g b st -> cache_lookup r (built st) = Some o ->
  b <= o < length (heap st).
Proof.
  intros [_ Hc] Hr. destruct (Hc r o Hr) as (Hle & n & i & _ & Hi & _).
  apply lookup_lt_Some in Hi. lia.
Qed.

Lemma cache_ok_start g h : cache_ok g (length h) {| heap := h; built := [] |}.
Proof. split; [cbn; lia|]. intros r o H. discriminate H. Qed.

Lemma cache_ok_heap_grows g b st l :
  cache_ok g b st ->
  cache_ok g b {| heap := heap st ++ l; built := built st |}.
Proof.
  intros [Hb Hc]. split; cbn [heap built]; [rewrite length_app; lia|].
  intros r o Hr. destruct (Hc r o Hr) as (Hle & n & i & Hn & Hi & Hty & Hf).
  split; [exact Hle|]. exists n, i. split; [exact Hn|].
  split; [now apply lookup_app_l_Some|]. auto.
Qed.

Lemma fields_of_arg m l fs k a :
  fields_of m l fs -> (k, a) ∈ l ->
  exists f, (k, f) ∈ fs /\ field_of m a f.
Proof.
  intros H. induction H as [|[k0 a0] [k1 f1] l fs [Hk Hf] _ IH]; intros Hin.
  - now apply elem_of_nil in Hin.
  - apply elem_of_cons in Hin. destruct Hin as [Heq|Hin].
    + injection Heq as -> ->. cbn [fst snd] in *. subst k1.
      exists f1. split; [apply elem_of_cons; now left|exact Hf].
    + destruct (IH Hin) as (f & Hfin & Hfa).
      exists f. split; [apply elem_of_cons; now right|exact Hfa].
Qed.

(** C9.  On a template graph without cycles, [build] returns.  Building the
    same node twice gives two instances that are equal by value and not
    identical, and no sub-instance of the one is a sub-instance of the other.
    Within one build, every instance is made from its node's arguments under
    one build cache, so that two argument slots naming the same node hold the
    same instance; the instances the two builds make for one node are
    different. *)
Theorem build_twice g rk r h0 d :
  buildable g rk -> is_Some (g !! r) -> rk r < d ->
  exists o1 st1 o2 st2,
    build d g r h0 = Some (o1, st1) /\
    build d g r (heap st1) = Some (o2, st2) /\
    o1 <> o2 /\
    same_value (heap st2) (heap st2) o1 o2 /\
    (forall x1 x2,
       sub_instance (heap st2) o1 x1 -> sub_instance (heap st2) o2 x2 ->
       x1 <> x2) /\
    (forall rn a b,
       cache_lookup rn (built st1) = Some a ->
       cache_lookup rn (built st2) = Some b -> a <> b) /\
    (forall m o,
       (m = built st1 /\ o = o1) \/ (m = built st2 /\ o = o2) ->
       forall x i,
         sub_instance (heap st2) o x -> heap st2 !! x = Some i ->
         exists rx n,
           g !! rx = Some n /\ cache_lookup rx m = Some x /\
           itype i = target n /\ fields_of m (arguments n) (fields i)).
Proof.
  intros Hg Hr Hd. unfold build.
  destruct (build_node_total g rk Hg d r {| heap := h0; built := [] |} Hd Hr)
    as [[o1 st1] Hrun1].
  destruct (build_node_total g rk Hg d r
              {| heap := heap st1; built := [] |} Hd Hr)
    as [[o2 st2] Hrun2].
  exists o1, st1, o2, st2. split; [exact Hrun1|]. split; [exact Hrun2|].
  destruct (build_node_spec g rk (length h0) Hg d r _ o1 st1
              (cache_ok_start g h0) Hrun1) as [(Hok1 & _ & _) Ho1].
  destruct (build_node_spec g rk (length (heap st1)) Hg d r _ o2 st2
              (cache_ok_start g (heap st1)) Hrun2)
    as [(Hok2 & [[l Hheap] _] & _) Ho2].
  cbn [heap] in Hheap.
  (* the first build, seen in the final heap *)
  assert (Hok1' : cache_ok g (length h0)
                    {| heap := heap st2; built := built st1 |}).
  { rewrite Hheap. now apply cache_ok_heap_grows. }
  assert (Hrange1 : forall rn a,
            cache_lookup rn (built st1) = Some a -> a < length (heap st1)).
  { intros rn a Ha. apply (cached_range _ _ _ _ _ Hok1 Ha). }
  assert (Hrange2 : forall rn a,
            cache_lookup rn (built st2) = Some a -> length (heap st1) <= a).
  { intros rn a Ha. apply (cached_range _ _ _ _ _ Hok2 Ha). }
  assert (Hsub1 : forall x,
            sub_instance (heap st2) o1 x ->
            exists rx, cache_lookup rx (built st1) = Some x).
  { intros x Hx.
    apply (sub_instance_cached g (length h0)
             {| heap := heap st2; built := built st1 |} o1 x Hok1' Hx).
    eauto. }
  assert (Hsub2 : forall x,
            sub_instance (heap st2) o2 x ->
            exists rx, cache_lookup rx (built st2) = Some x).
  { intros x Hx.
    apply (sub_instance_cached g (length (heap st1)) st2 o2 x Hok2 Hx).
    eauto. }
  split; [|split; [|split; [|split]]].
  - pose proof (Hrange1 _ _ Ho1). pose proof (Hrange2 _ _ Ho2). lia.
  - apply (builds_same_value g rk _ _
             {| heap := heap st2; built := built st1 |} st2 Hg Hok1' Hok2
             d r o1 o2 Hd Ho1 Ho2).
  - intros x1 x2 H1 H2.
    destruct (Hsub1 x1 H1) as [r1 Hr1]. destruct (Hsub2 x2 H2) as [r2 Hr2].
    pose proof (Hrange1 _ _ Hr1). pose proof (Hrange2 _ _ Hr2). lia.
  - intros rn a b Ha Hb.
    pose proof (Hrange1 _ _ Ha). pose proof (Hrange2 _ _ Hb). lia.
  - intros m o [[-> ->]|[-> ->]] x i Hx Hi.
    + destruct (Hsub1 x Hx) as [rx Hrx].
      destruct (proj2 Hok1' rx x Hrx) as (_ & n & i' & Hn & Hi' & Hty & Hf).
      cbn [heap built] in *. assert (i' = i) by congruence. subst i'.
      exists rx, n. auto.
    + destruct (Hsub2 x Hx) as [rx Hrx].
      destruct (proj2 Hok2 rx x Hrx) as (_ & n & i' & Hn & Hi' & Hty & Hf).
      assert (i' = i) by congruence. subst i'.
      exists rx, n. auto.
Qed.

Lemma check_buildable_from_sound rk size g :
  forall i,
    check_buildable_from rk size i g = true ->
    forall r n k a r',
      g !! r = Some n -> (k, a) ∈ arguments n -> r' ∈ arg_nodes a ->
      rk r' < rk (i + r) /\ r' < size.
Proof.
  induction g as [|n0 g IH]; intros i Hchk r n k a r' Hr Hka Hr';
    [discriminate|].
  cbn [check_buildable_from] in Hchk. apply andb_true_iff in Hchk.
  destruct Hchk as [Hhere Hrest].
  destruct r as [|r]; cbn in Hr.
  - injection Hr as <-. rewrite Nat.add_0_r.
    rewrite forallb_forall in Hhere.
    specialize (Hhere (k, a) (proj1 (list_elem_of_In _ _) Hka)).
    rewrite forallb_forall in Hhere.
    specialize (Hhere r' (proj1 (list_elem_of_In _ _) Hr')).
    apply andb_true_iff in Hhere. destruct Hhere as [H1 H2].
    apply Nat.ltb_lt in H1, H2. auto.
  - replace (i + S r) with (S i + r) by lia. eapply IH; eauto.
Qed.

Lemma check_buildable_sound rk g :
  check_buildable_from rk (length g) 0 g = true -> buildable g rk.
Proof.
  intros H r n k a r' Hr Hka Hr'.
  destruct (check_buildable_from_sound rk (length g) g 0 H r n k a r' Hr Hka
              Hr') as [H1 H2].
  split; [exact H1|]. now apply lookup_lt_is_Some_2.
Qed.

Lemma fleet_buildable : buildable fleet_graph fleet_rank.
Proof. apply check_buildable_sound. vm_compute. reflexivity. Qed.

(** The vehicle template of the fleet, built twice as [Fleet.setup] does. *)
Lemma build_twice_witness :
  buildable fleet_graph fleet_rank /\
  is_Some (fleet_graph !! 1) /\ fleet_rank 1 < 2 /\
  exists o1 st1 o2 st2,
    build 2 fleet_graph 1 [] = Some (o1, st1) /\
    build 2 fleet_graph 1 (heap st1) = Some (o2, st2) /\
    o1 <> o2 /\
    same_value (heap st2) (heap st2) o1 o2 /\
    (forall x1 x2,
       sub_instance (heap st2) o1 x1 -> sub_instance (heap st2) o2 x2 ->
       x1 <> x2).
Proof.
  split; [exact fleet_buildable|]. split; [cbn; eauto|]. split; [cbn; lia|].
  destruct (build_twice fleet_graph fleet_rank 1 [] 2 fleet_buildable
              ltac:(cbn; eauto) ltac:(cbn; lia))
    as (o1 & st1 & o2 & st2 & H1 & H2 & Hne & Hsame & Hsub & _).
  exists o1, st1, o2, st2. auto.
Defined.

(** The same two builds, evaluated: each vehicle has one [Person] instance,
    shared by its [owner] and [driver] slots, and the two vehicles have
    different ones. *)
Example build_vehicle_twice :
  match build 2 fleet_graph 1 [] with
  | Some (o1, st1) =>
      match build 2 fleet_graph 1 (heap st1) with
      | Some (o2, st2) =>
          o1 = 1 /\ o2 = 3 /\
          (fields <$> heap st2 !! o1)
          = Some [("wheel_tpl", FTemplate 3); ("num_wheels", FPrim (PInt 4));
                  ("owner", FObj 0); ("driver", FObj 0)] /\
          (fields <$> heap st2 !! o2)
          = Some [("wheel_tpl", FTemplate 3); ("num_wheels", FPrim (PInt 4));
                  ("owner", FObj 2); ("driver", FObj 2)] /\
          heap st2 !! 0 = heap st2 !! 2
      | None => False
      end
  | None => False
  end.
Proof. vm_compute. repeat split. Qed.

(** * Further properties of the rewriting passes *)


Lemma for_each_unchanged {A} (xs : list A) body s :
  Forall (fun x => body x s = (Ok tt, s)) xs ->
  for_each xs body s = (Ok tt, s).
Proof.
  induction 1 as [|x xs Hx _ IH]; [reflexivity|].
  rewrite for_each_cons, Hx. exact IH.
Qed.

Lemma set_diffusion_quantization_unfold find config target qt m num_bits
    use_symmetric wqo dtype s :
  set_diffusion_quantization find config target qt m num_bits use_symmetric
    wqo dtype s
  = for_each (find (cfgs s) config target)
      (fun diffusion_tpl =>
         let* has_conv := hasattr diffusion_tpl "conv_tpl" in
         when has_conv
           (let* q := new_QuantizationParams
              (qparams qt m (act_quantization_params_of wqo num_bits)
                 (diffusion_weight_params num_bits use_symmetric dtype)) in
            let* conv := pax_fiddle_Config quantization_Conv2D q [] in
            setattr diffusion_tpl "conv_tpl" conv)) s.
Proof. reflexivity. Qed.

(** X1.  [set_transformer_quantization] on a configuration in which the
    search finds no transformer block and, when one of the two embedding
    options is on, no language model either, returns normally and leaves the
    store exactly as it was: nothing is created and nothing is assigned. *)
Theorem set_transformer_quantization_nothing_matched
    find config qt m num_bits linear_only use_symmetric rank wqo qes
    transposed qng dtype block_size packed container s :
  find (cfgs s) config layers_transformers_Transformer = [] ->
  (qes || qng = true -> find (cfgs s) config layers_TransformerLm = []) ->
  set_transformer_quantization find config qt m num_bits linear_only
    use_symmetric rank wqo qes transposed qng dtype block_size packed
    container s
  = (Ok tt, s).
Proof.
  intros Htr Hlm. rewrite set_transformer_quantization_unfold. cbv zeta.
  rewrite Htr. cbn [for_each ret].
  destruct (qes || qng); [|reflexivity].
  cbn [when]. now rewrite Hlm.
Qed.

Lemma set_transformer_quantization_nothing_matched_witness :
  find_target_tpl 100 (cfgs lm_dot_product) (VCfg 5)
    layers_transformers_Transformer = [] /\
  find_target_tpl 100 (cfgs lm_dot_product) (VCfg 5) layers_TransformerLm
  = [] /\
  set_transformer_quantization (find_target_tpl 100) (VCfg 5) PTQ INFERENCE 8
    false true (-1) true true false true jnp_int8 0 true jnp_int32
    lm_dot_product
  = (Ok tt, lm_dot_product).
Proof.
  split; [vm_compute; reflexivity|].
  split; [vm_compute; reflexivity|].
  apply set_transformer_quantization_nothing_matched.
  - vm_compute; reflexivity.
  - intros _. vm_compute; reflexivity.
Defined.

(** X2.  [set_diffusion_quantization] skips a matched template that has no
    [conv_tpl] attribute: when none of the matched templates has one, the
    call returns normally and the store is exactly as it was. *)
Theorem set_diffusion_quantization_skips_without_conv_tpl
    find config target qt m num_bits use_symmetric wqo dtype s :
  Forall (fun tpl => hasattr tpl "conv_tpl" s = (Ok false, s))
    (find (cfgs s) config target) ->
  set_diffusion_quantization find config target qt m num_bits use_symmetric
    wqo dtype s
  = (Ok tt, s).
Proof.
  intros H. rewrite set_diffusion_quantization_unfold.
  apply for_each_unchanged.
  eapply Forall_impl; [exact H|].
  intros tpl Htpl. cbv beta. now rewrite (bind_ok _ _ _ _ _ Htpl).
Qed.

Lemma set_diffusion_quantization_skips_without_conv_tpl_witness :
  find_target_tpl 100 (cfgs lm_dot_product) (VCfg 0)
    layers_transformers_Transformer = [VCfg 2] /\
  hasattr (VCfg 2) "conv_tpl" lm_dot_product = (Ok false, lm_dot_product) /\
  set_diffusion_quantization (find_target_tpl 100) (VCfg 0)
    layers_transformers_Transformer PTQ INFERENCE 8 true true jnp_int8
    lm_dot_product
  = (Ok tt, lm_dot_product).
Proof.
  split; [vm_compute; reflexivity|].
  split; [vm_compute; reflexivity|].
  apply set_diffusion_quantization_skips_without_conv_tpl.
  change (find_target_tpl 100 (cfgs lm_dot_product) (VCfg 0)
            layers_transformers_Transformer) with [VCfg 2].
  constructor; [vm_compute; reflexivity|constructor].
Defined.


Lemma install_frame s parent cp name c kw qp r cr :
  r <> parent -> cfgs s !! r = Some cr ->
  cfgs (install s parent cp name c kw qp) !! r = Some cr.
Proof.
  intros Hne Hr. rewrite install_lookup_other; [exact Hr|exact Hne|].
  now apply lookup_lt_Some in Hr.
Qed.

Lemma install_quants_frame s parent cp name c kw qp q x :
  quants s !! q = Some x ->
  quants (install s parent cp name c kw qp) !! q = Some x.
Proof.
  intros Hq. rewrite install_lookup_quant_old; [exact Hq|].
  now apply lookup_lt_Some in Hq.
Qed.

(** The store after two successive assignments of new templates to
    arguments of one parent. *)
Lemma install_twice_frame s a ca n1 c1 kw1 qp1 n2 c2 kw2 qp2 :
  cfgs s !! a = Some ca ->
  let s' := install (install s a ca n1 c1 kw1 qp1) a
              (set_arg n1 (VCfg (length (cfgs s))) ca) n2 c2 kw2 qp2 in
  (forall r c, r <> a -> cfgs s !! r = Some c -> cfgs s' !! r = Some c) /\
  cfgs s' !! a
  = Some (set_arg n2 (VCfg (S (length (cfgs s))))
            (set_arg n1 (VCfg (length (cfgs s))) ca)) /\
  (forall q qp, quants s !! q = Some qp -> quants s' !! q = Some qp) /\
  length (cfgs s') = 2 + length (cfgs s) /\
  length (quants s') = 2 + length (quants s).
Proof.
  intros Ha s'.
  pose proof (install_lookup_parent s a ca n1 c1 kw1 qp1 Ha) as Ha1.
  split; [|split; [|split; [|split]]].
  - intros r c Hne Hr. unfold s'.
    apply install_frame; [exact Hne|]. now apply install_frame.
  - unfold s'. rewrite (install_lookup_parent _ _ _ _ _ _ _ Ha1).
    now rewrite install_length_cfgs.
  - intros q qp Hq. unfold s'. now do 2 apply install_quants_frame.
  - unfold s'. rewrite !install_length_cfgs. reflexivity.
  - unfold s'. rewrite !install_length_quants. reflexivity.
Qed.

Lemma attention_recognized_run s tr ctr a ca qt m wp act :
  cfgs s !! tr = Some ctr ->
  assoc "tr_atten_tpl" (args ctr) = Some (VCfg a) ->
  cfgs s !! a = Some ca ->
  issubclass (cls ca) layers_attentions_DotProductAttention
  || str_contains "MultiQueryDotProductAttention" (cls_name (cls ca)) = true ->
  exists n2 cB,
    (n2 = "combined_qkv_proj_tpl" \/ n2 = "headless_proj_tpl") /\
    quantize_attention_layer_weights (VCfg tr) qt m wp act s
    = (Ok tt,
       install
         (install s a ca "proj_tpl"
            quantization_attentions_AttentionProjection []
            (qparams qt m act wp)) a
         (set_arg "proj_tpl" (VCfg (length (cfgs s))) ca) n2 cB []
         (qparams qt m act wp)).
Proof.
  intros Htr Hat Ha Hrec.
  rewrite (attention_run s tr ctr a ca qt m wp act Htr Hat Ha).
  destruct (issubclass (cls ca) layers_attentions_DotProductAttention).
  - eexists _, _. split; [left; reflexivity|]. now apply dpa_run.
  - cbn in Hrec. rewrite Hrec.
    eexists _, _. split; [right; reflexivity|]. now apply mq_run.
Qed.

(** X6.  On a transformer block whose attention template is of a
    recognised class, [quantize_attention_layer_weights] returns normally and
    changes the attention template only, by assigning to its projection
    arguments: every other template is as it was, the attention template
    keeps its class, its [quantization] argument and all its other
    arguments, the existing [QuantizationParams] objects are as they were,
    and exactly two templates and two [QuantizationParams] objects are
    created. *)
Theorem quantize_attention_layer_weights_frame
    s tr ctr a ca qt m wp act :
  cfgs s !! tr = Some ctr ->
  assoc "tr_atten_tpl" (args ctr) = Some (VCfg a) ->
  cfgs s !! a = Some ca ->
  issubclass (cls ca) layers_attentions_DotProductAttention
  || str_contains "MultiQueryDotProductAttention" (cls_name (cls ca)) = true ->
  exists s' ca',
    quantize_attention_layer_weights (VCfg tr) qt m wp act s = (Ok tt, s') /\
    (forall r c, r <> a -> cfgs s !! r = Some c -> cfgs s' !! r = Some c) /\
    cfgs s' !! a = Some ca' /\
    cls ca' = cls ca /\ quantization ca' = quantization ca /\
    (forall n,
       n <> "proj_tpl" -> n <> "combined_qkv_proj_tpl" ->
       n <> "headless_proj_tpl" ->
       assoc n (args ca') = assoc n (args ca)) /\
    (forall q qp, quants s !! q = Some qp -> quants s' !! q = Some qp) /\
    length (cfgs s') = 2 + length (cfgs s) /\
    length (quants s') = 2 + length (quants s).
Proof.
  intros Htr Hat Ha Hrec.
  destruct (attention_recognized_run s tr ctr a ca qt m wp act Htr Hat Ha Hrec)
    as (n2 & cB & Hn2 & Hrun).
  destruct (install_twice_frame s a ca "proj_tpl"
              quantization_attentions_AttentionProjection []
              (qparams qt m act wp) n2 cB [] (qparams qt m act wp) Ha)
    as (Hother & Hself & Hq & Hlc & Hlq).
  eexists _, _. split; [exact Hrun|].
  split; [exact Hother|]. split; [exact Hself|].
  split; [reflexivity|]. split; [reflexivity|].
  split; [|split; [exact Hq|split; [exact Hlc|exact Hlq]]].
  intros n H1 H2 H3. cbn [args set_arg].
  rewrite assoc_set_ne by (destruct Hn2 as [->| ->]; congruence).
  now rewrite assoc_set_ne by congruence.
Qed.

Lemma quantize_attention_layer_weights_frame_witness :
  let s := lm_dot_product in
  exists s' ca',
    quantize_attention_layer_weights (VCfg 2) PTQ INFERENCE sample_wp None s
    = (Ok tt, s') /\
    cfgs s' !! 4 = cfgs s !! 4 /\
    cfgs s' !! 3 = Some ca' /\
    assoc "num_heads" (args ca') = Some (VInt 8) /\
    length (cfgs s') = 12.
Proof.
  cbv zeta.
  destruct (quantize_attention_layer_weights_frame lm_dot_product 2
              {| cls := layers_transformers_Transformer; quantization := None;
                 args := [("tr_atten_tpl", VCfg 3);
                          ("tr_fflayer_tpl", VCfg 5)] |}
              3
              {| cls := layers_attentions_DotProductAttention;
                 quantization := None;
                 args := [("num_heads", VInt 8); ("proj_tpl", VCfg 4)] |}
              PTQ INFERENCE sample_wp None)
    as (s' & ca' & Hrun & Hother & Hself & _ & _ & Hargs & _ & Hlen & _);
    [reflexivity|reflexivity|reflexivity|vm_compute; reflexivity|].
  exists s', ca'. split; [exact Hrun|].
  split; [apply Hother; [lia|reflexivity]|].
  split; [exact Hself|].
  split; [rewrite Hargs; [reflexivity|discriminate..]|].
  exact Hlen.
Defined.

(** X7.  The attention template is rewritten in place: when two
    transformer blocks share one attention template, quantizing the
    attention of the first makes the second see the quantized projection
    too. *)
Theorem shared_attention_template_quantized_for_all
    s tr ctr tr2 ctr2 a ca qt m wp act :
  cfgs s !! tr = Some ctr ->
  assoc "tr_atten_tpl" (args ctr) = Some (VCfg a) ->
  cfgs s !! tr2 = Some ctr2 ->
  assoc "tr_atten_tpl" (args ctr2) = Some (VCfg a) ->
  cfgs s !! a = Some ca ->
  issubclass (cls ca) layers_attentions_DotProductAttention
  || str_contains "MultiQueryDotProductAttention" (cls_name (cls ca)) = true ->
  exists s',
    quantize_attention_layer_weights (VCfg tr) qt m wp act s = (Ok tt, s') /\
    child s' tr2 "tr_atten_tpl" = Some a /\
    installed s s' a "proj_tpl" quantization_attentions_AttentionProjection []
      (qparams qt m act wp).
Proof.
  intros Htr Hat Htr2 Hat2 Ha Hrec.
  destruct (attention_recognized_run s tr ctr a ca qt m wp act Htr Hat Ha Hrec)
    as (n2 & cB & Hn2 & Hrun).
  eexists. split; [exact Hrun|]. split.
  - destruct (install_twice_lookup_old s a ca "proj_tpl"
                quantization_attentions_AttentionProjection []
                (qparams qt m act wp) n2 cB [] (qparams qt m act wp) tr2 ctr2
                Ha Htr2) as (c' & Hc' & Hargs).
    unfold child. rewrite Hc', Hargs, Hat2; [reflexivity|discriminate|].
    destruct Hn2 as [->| ->]; discriminate.
  - apply (install_twice_installed s a ca "proj_tpl"
             quantization_attentions_AttentionProjection
             (qparams qt m act wp) n2 cB (qparams qt m act wp) Ha).
    destruct Hn2 as [->| ->]; discriminate.
Qed.


(** X10.  What the two passes never do: [set_transformer_quantization] and
    [set_diffusion_quantization], whether they return or raise, leave every
    existing [QuantizationParams] object as it was, remove no template, and
    leave every existing template with its class and its [quantization]
    argument. *)
Theorem passes_keep_existing_objects
    find config target qt m num_bits linear_only use_symmetric rank wqo qes
    transposed qng dtype block_size packed container s s' :
  s' = snd (set_transformer_quantization find config qt m num_bits
              linear_only use_symmetric rank wqo qes transposed qng dtype
              block_size packed container s) \/
  s' = snd (set_diffusion_quantization find config target qt m num_bits
              use_symmetric wqo dtype s) ->
  (forall q qp, quants s !! q = Some qp -> quants s' !! q = Some qp) /\
  length (cfgs s) <= length (cfgs s') /\
  (forall r c,
     cfgs s !! r = Some c ->
     exists c', cfgs s' !! r = Some c' /\ cls c' = cls c /\
                quantization c' = quantization c).
Proof.
  intros Hs'.
  assert (exists P, rewritten P s s') as [P (Hq & Hlen & Hold & _)].
  { destruct Hs' as [-> | ->]; eexists.
    - apply sound_set_transformer_quantization.
    - apply sound_set_diffusion_quantization. }
  split; [|split; [exact Hlen|exact Hold]].
  intros q qp Hlook. destruct Hq as [l ->].
  now apply lookup_app_l_Some.
Qed.

Lemma passes_keep_existing_objects_witness :
  let s := lm_quantized in
  let s' :=
    snd (set_transformer_quantization (find_target_tpl 100) (VCfg 0) PTQ
           INFERENCE 4 false true (-1) true false false false jnp_int8 0 true
           jnp_int32 s) in
  (mode <$> quants s !! 0) = Some TRAINING /\
  (mode <$> quants s' !! 0) = Some TRAINING /\
  length (quants s) < length (quants s').
Proof.
  cbv zeta.
  split; [vm_compute; reflexivity|].
  split; [|vm_compute; lia].
  destruct (quants lm_quantized !! 0) as [qp|] eqn:Hq;
    [|vm_compute in Hq; discriminate].
  destruct (passes_keep_existing_objects (find_target_tpl 100) (VCfg 0)
              layers_transformers_Transformer PTQ INFERENCE 4 false true (-1)
              true false false false jnp_int8 0 true jnp_int32 lm_quantized _
              (or_introl eq_refl)) as (Hkeep & _).
  rewrite (Hkeep 0 qp Hq).
  assert (Hm : (mode <$> quants lm_quantized !! 0) = Some TRAINING)
    by (vm_compute; reflexivity).
  rewrite Hq in Hm. exact Hm.
Defined.


Lemma paired_refl s : paired s s.
Proof.
  split; [exists 0; lia|]. split; [eauto|].
  intros i c H. apply lookup_lt_Some in H. lia.
Qed.

Lemma paired_trans s s1 s2 : paired s s1 -> paired s1 s2 -> paired s s2.
Proof.
  intros ((n1 & Hc1 & Hq1) & Hold1 & Hnew1) ((n2 & Hc2 & Hq2) & Hold2 & Hnew2).
  split; [exists (n1 + n2); lia|]. split.
  - intros r c Hr. destruct (Hold1 r c Hr) as (c1 & Hr1 & Hz1).
    destruct (Hold2 r c1 Hr1) as (c2 & Hr2 & Hz2).
    exists c2. split; congruence.
  - intros i c Hc. destruct (decide (i < n1)) as [Hlt|Hge].
    + destruct (lookup_lt_is_Some_2 (cfgs s1) (length (cfgs s) + i)
                  ltac:(lia)) as [c1 Hr1].
      destruct (Hold2 _ c1 Hr1) as (c2 & Hr2 & Hz2).
      assert (c2 = c) by congruence. subst c2.
      rewrite Hz2. now apply Hnew1.
    + replace (length (cfgs s) + i) with (length (cfgs s1) + (i - n1)) in Hc
        by lia.
      rewrite (Hnew2 _ c Hc). f_equal. lia.
Qed.

Lemma pairing_ret {A} (a : A) : pairing (ret a).
Proof. intros s. apply paired_refl. Qed.

Lemma pairing_raise {A} e : pairing (@raise A e).
Proof. intros s. apply paired_refl. Qed.

Lemma pairing_bind {A B} (m : M A) (k : A -> M B) :
  pairing m -> (forall a, pairing (k a)) -> pairing (bind m k).
Proof.
  intros Hm Hk s. unfold bind. specialize (Hm s).
  destruct (m s) as [[a|e] s1]; cbn [snd] in *; [|exact Hm].
  eapply paired_trans; [exact Hm|apply Hk].
Qed.

Lemma pairing_read {A} (m : M A) : (forall s, snd (m s) = s) -> pairing m.
Proof. intros Hs s. rewrite Hs. apply paired_refl. Qed.

Lemma getattr_store tpl name s : snd (getattr tpl name s) = s.
Proof.
  unfold getattr. destruct tpl; try reflexivity.
  destruct (cfgs s !! r) as [c|]; [|reflexivity].
  now destruct (assoc name (args c)).
Qed.

Lemma hasattr_store tpl name s : snd (hasattr tpl name s) = s.
Proof. unfold hasattr. now destruct (getattr tpl name s) as [[]]. Qed.

Lemma get_cls_store tpl s : snd (get_cls tpl s) = s.
Proof.
  unfold get_cls. destruct tpl; try reflexivity.
  now destruct (cfgs s !! r).
Qed.

Lemma paired_update s r c c' :
  cfgs s !! r = Some c ->
  quantization c' = quantization c ->
  paired s {| cfgs := <[r := c']> (cfgs s); quants := quants s |}.
Proof.
  intros Hr Hq. split; [|split]; cbn [cfgs quants].
  - exists 0. rewrite length_insert. lia.
  - intros r0 c0 Hr0. destruct (decide (r0 = r)) as [->|Hne].
    + exists c'. rewrite list_lookup_insert_eq
        by (now apply lookup_lt_Some in Hr).
      assert (c0 = c) by congruence. subst c0. auto.
    + exists c0. rewrite list_lookup_insert_ne by congruence. auto.
  - intros i c0 H0. apply lookup_lt_Some in H0.
    rewrite length_insert in H0. lia.
Qed.

Lemma pairing_setattr tpl name x : pairing (setattr tpl name x).
Proof.
  intros s. unfold setattr.
  destruct tpl; try apply paired_refl.
  destruct (cfgs s !! r) as [c|] eqn:Hr; [|apply paired_refl].
  cbn [snd]. now apply (paired_update s r c).
Qed.

Lemma pairing_copy_fields_from self source :
  pairing (copy_fields_from self source).
Proof.
  intros s. unfold copy_fields_from.
  destruct self; try apply paired_refl.
  destruct source; try apply paired_refl.
  destruct (cfgs s !! r) as [c|] eqn:Hr; [|apply paired_refl].
  destruct (cfgs s !! r0) as [c0|] eqn:Hr0; [|apply paired_refl].
  cbn [snd]. now apply (paired_update s r c).
Qed.

Lemma pairing_new {A} c qp kw (k : value -> M A) :
  (forall v, pairing (k v)) ->
  pairing (let* q := new_QuantizationParams qp in
           let* new := pax_fiddle_Config c q kw in
           k new).
Proof.
  intros Hk s. unfold bind, new_QuantizationParams, pax_fiddle_Config.
  cbn [cfgs quants].
  match goal with
  | |- context [k ?v ?s1] => pose proof (Hk v s1) as Hk1; set (s1' := s1) in *
  end.
  eapply paired_trans; [|exact Hk1]. subst s1'.
  split; [|split]; cbn [cfgs quants].
  - exists 1. rewrite !length_app. cbn. lia.
  - intros r c0 Hr. exists c0.
    rewrite lookup_app_l by (now apply lookup_lt_Some in Hr). auto.
  - intros i c0 Hr.
    assert (i = 0).
    { apply lookup_lt_Some in Hr. rewrite length_app in Hr. cbn in Hr. lia. }
    subst i. rewrite Nat.add_0_r in *.
    rewrite lookup_app_r, Nat.sub_diag in Hr by lia.
    injection Hr as <-. reflexivity.
Qed.

Lemma pairing_alloc c qp kw :
  pairing (let* q := new_QuantizationParams qp in pax_fiddle_Config c q kw).
Proof.
  intros s.
  exact (pairing_new c qp kw (fun v => ret v) (fun v => pairing_ret v) s).
Qed.

Lemma pairing_when b (m : M unit) : pairing m -> pairing (when b m).
Proof. intros Hm. destruct b; [exact Hm|apply pairing_ret]. Qed.

Lemma pairing_for_each {A} (xs : list A) body :
  (forall x, pairing (body x)) -> pairing (for_each xs body).
Proof.
  intros Hb. induction xs as [|x xs IH]; cbn [for_each].
  - apply pairing_ret.
  - apply pairing_bind; auto.
Qed.

Ltac pairing_step :=
  first
    [ apply pairing_ret
    | apply pairing_raise
    | apply pairing_read; intros ?; apply getattr_store
    | apply pairing_read; intros ?; apply hasattr_store
    | apply pairing_read; intros ?; apply get_cls_store
    | apply pairing_read; intros ?; reflexivity
    | apply pairing_setattr
    | apply pairing_copy_fields_from
    | apply pairing_when
    | apply pairing_for_each; intros ?
    | apply pairing_alloc
    | apply pairing_new; intros ?
    | apply pairing_bind; [|intros ?] ].

Lemma pairing_attention qt m wp act tpl :
  pairing (quantize_attention_layer_weights tpl qt m wp act).
Proof.
  unfold quantize_attention_layer_weights,
    quantize_dot_product_attention_layer_weights,
    quantize_mq_dot_product_attention_layer_weights.
  apply pairing_bind; [pairing_step|intros v].
  apply pairing_bind; [pairing_step|intros c].
  destruct (issubclass _ _); [repeat pairing_step|].
  apply pairing_bind; [pairing_step|intros v'].
  apply pairing_bind; [pairing_step|intros c'].
  destruct (str_contains _ _); repeat pairing_step.
Qed.

Lemma pairing_transformer qt m wp act linear_only rank tpl :
  pairing
    (quantize_transformer_layer_weights tpl qt m wp act linear_only rank).
Proof.
  unfold quantize_transformer_layer_weights,
    quantize_transformer_feed_forward_layer_weights.
  apply pairing_bind; [apply pairing_when, pairing_attention|intros _].
  repeat pairing_step.
Qed.

Lemma pairing_softmax qt m wp transposed tpl :
  pairing (_quantize_embedding_softmax_layer_weights tpl qt m wp transposed).
Proof.
  unfold _quantize_embedding_softmax_layer_weights.
  apply pairing_bind; [pairing_step|intros v].
  apply pairing_bind; [pairing_step|intros c].
  destruct (issubclass _ _); [|repeat pairing_step].
  apply pairing_bind; [destruct transposed; apply pairing_alloc|].
  intros new. repeat pairing_step.
Qed.

Lemma pairing_ngrammer qt m wp tpl :
  pairing (_quantize_ngrammer_embedding_weights tpl qt m wp).
Proof.
  unfold _quantize_ngrammer_embedding_weights.
  apply pairing_bind; [pairing_step|intros v].
  destruct v; try apply pairing_ret;
    (apply pairing_bind; [pairing_step|intros c];
     destruct (issubclass _ layers_ngrammer_Ngrammer);
     [|destruct (issubclass _ layers_ngrammer_VQNgrammer)];
     repeat pairing_step).
Qed.

Lemma pairing_set_transformer_quantization find config qt m num_bits
    linear_only use_symmetric rank wqo qes transposed qng dtype block_size
    packed container :
  pairing
    (set_transformer_quantization find config qt m num_bits linear_only
       use_symmetric rank wqo qes transposed qng dtype block_size packed
       container).
Proof.
  unfold set_transformer_quantization. cbv zeta.
  apply pairing_bind; [apply pairing_read; reflexivity|intros tpls].
  apply pairing_bind;
    [apply pairing_for_each; intros t; apply pairing_transformer|intros _].
  apply pairing_when.
  apply pairing_bind; [apply pairing_read; reflexivity|intros lms].
  apply pairing_for_each. intros lm.
  apply pairing_bind; [apply pairing_when, pairing_softmax|intros _].
  apply pairing_when, pairing_ngrammer.
Qed.

Lemma pairing_set_diffusion_quantization find config target qt m num_bits
    use_symmetric wqo dtype :
  pairing
    (set_diffusion_quantization find config target qt m num_bits
       use_symmetric wqo dtype).
Proof.
  unfold set_diffusion_quantization. cbv zeta.
  apply pairing_bind; [apply pairing_read; reflexivity|intros tpls].
  apply pairing_for_each. intros t.
  apply pairing_bind;
    [apply pairing_read; intros ?; apply hasattr_store|intros b].
  apply pairing_when. apply pairing_new. intros v. apply pairing_setattr.
Qed.

Lemma paired_injective s s' r1 r2 c1 c2 :
  paired s s' ->
  length (cfgs s) <= r1 -> length (cfgs s) <= r2 ->
  cfgs s' !! r1 = Some c1 -> cfgs s' !! r2 = Some c2 ->
  quantization c1 = quantization c2 -> r1 = r2.
Proof.
  intros (_ & _ & Hnew) H1 H2 Hc1 Hc2 Hq.
  replace r1 with (length (cfgs s) + (r1 - length (cfgs s))) in Hc1 by lia.
  replace r2 with (length (cfgs s) + (r2 - length (cfgs s))) in Hc2 by lia.
  apply Hnew in Hc1, Hc2. rewrite Hc1, Hc2 in Hq. injection Hq. lia.
Qed.

(** X12.  Each template created by a pass has a [QuantizationParams]
    object of its own: no two templates created by
    [set_transformer_quantization] (or by [set_diffusion_quantization]) have
    the same object as their [quantization] argument, and the pass creates
    exactly as many objects as templates. *)
Theorem created_templates_own_their_params
    find config target qt m num_bits linear_only use_symmetric rank wqo qes
    transposed qng dtype block_size packed container s s' :
  s' = snd (set_transformer_quantization find config qt m num_bits
              linear_only use_symmetric rank wqo qes transposed qng dtype
              block_size packed container s) \/
  s' = snd (set_diffusion_quantization find config target qt m num_bits
              use_symmetric wqo dtype s) ->
  (forall r1 r2 c1 c2,
     length (cfgs s) <= r1 -> length (cfgs s) <= r2 ->
     cfgs s' !! r1 = Some c1 -> cfgs s' !! r2 = Some c2 ->
     quantization c1 = quantization c2 -> r1 = r2) /\
  length (cfgs s') - length (cfgs s) = length (quants s') - length (quants s).
Proof.
  intros Hs'.
  assert (paired s s') as Hp.
  { destruct Hs' as [-> | ->].
    - apply pairing_set_transformer_quantization.
    - apply pairing_set_diffusion_quantization. }
  split.
  - intros r1 r2 c1 c2. now apply paired_injective.
  - destruct Hp as ((n & Hc & Hq) & _). lia.
Qed.

Lemma created_templates_own_their_params_witness :
  let s := lm_dot_product in
  let s' :=
    snd (set_transformer_quantization (find_target_tpl 100) (VCfg 0) PTQ
           INFERENCE 8 false true (-1) true true false true jnp_int8 0 true
           jnp_int32 s) in
  length (cfgs s) = 10 /\ length (cfgs s') = 15 /\
  length (quants s') - length (quants s) = 5 /\
  forall r1 r2 c1 c2,
    10 <= r1 -> 10 <= r2 ->
    cfgs s' !! r1 = Some c1 -> cfgs s' !! r2 = Some c2 ->
    quantization c1 = quantization c2 -> r1 = r2.
Proof.
  cbv zeta.
  split; [reflexivity|]. split; [vm_compute; reflexivity|].
  split; [vm_compute; reflexivity|].
  exact (proj1 (created_templates_own_their_params (find_target_tpl 100)
                  (VCfg 0) layers_transformers_Transformer PTQ INFERENCE 8
                  false true (-1) true true false true jnp_int8 0 true
                  jnp_int32 lm_dot_product _ (or_introl eq_refl))).
Defined.

(** X11.  Every template created by [set_transformer_quantization]
    carries a [QuantizationParams] object whose quantization type, mode and
    weight parameters are those of the call, all six weight fields included;
    those created by [set_diffusion_quantization] carry the quantization
    type, mode, precision, symmetry and dtype of the call and leave the
    block size and the int4 packing fields unset. *)
Theorem created_params_are_as_passed
    find config target qt m num_bits linear_only use_symmetric rank wqo qes
    transposed qng dtype block_size packed container s :
  let s_tr :=
    snd (set_transformer_quantization find config qt m num_bits linear_only
           use_symmetric rank wqo qes transposed qng dtype block_size packed
           container s) in
  let s_df :=
    snd (set_diffusion_quantization find config target qt m num_bits
           use_symmetric wqo dtype s) in
  (forall r c,
     length (cfgs s) <= r -> cfgs s_tr !! r = Some c ->
     exists q qp,
       quantization c = Some q /\ quants s_tr !! q = Some qp /\
       quantization_type qp = qt /\ mode qp = m /\
       weight_params qp
       = Some {| WeightQuantizationParams.precision := num_bits;
                 WeightQuantizationParams.use_symmetric := use_symmetric;
                 WeightQuantizationParams.dtype := dtype;
                 WeightQuantizationParams.block_size := Some block_size;
                 WeightQuantizationParams.use_int4_packed_weights :=
                   Some packed;
                 WeightQuantizationParams.int4_packed_weights_container_dtype
                   := Some container |}) /\
  (forall r c,
     length (cfgs s) <= r -> cfgs s_df !! r = Some c ->
     exists q qp,
       quantization c = Some q /\ quants s_df !! q = Some qp /\
       quantization_type qp = qt /\ mode qp = m /\
       weight_params qp
       = Some {| WeightQuantizationParams.precision := num_bits;
                 WeightQuantizationParams.use_symmetric := use_symmetric;
                 WeightQuantizationParams.dtype := dtype;
                 WeightQuantizationParams.block_size := None;
                 WeightQuantizationParams.use_int4_packed_weights := None;
                 WeightQuantizationParams.int4_packed_weights_container_dtype
                   := None |}).
Proof.
  cbv zeta. split; intros r c Hr Hc.
  - destruct (sound_set_transformer_quantization find config qt m num_bits
                linear_only use_symmetric rank wqo qes transposed qng dtype
                block_size packed container s) as [(_ & _ & _ & Hnew) _].
    destruct (Hnew r c Hr Hc) as (q & qp & Hq & _ & Hqp & HP).
    exists q, qp. unfold pass_params in HP. subst qp.
    repeat split; assumption.
  - destruct (sound_set_diffusion_quantization find config target qt m
                num_bits use_symmetric wqo dtype s)
      as [(_ & _ & _ & Hnew) _].
    destruct (Hnew r c Hr Hc) as (q & qp & Hq & _ & Hqp & _ & HP).
    exists q, qp. subst qp. repeat split; assumption.
Qed.

(** ** The wrappers *)

Lemma checkpoint_rules_models_false task_p s :
  checkpoint_rules_models false task_p s = (Ok [], s).
Proof. reflexivity. Qed.

Lemma map_M_read {A B} (f : A -> M B) xs ys s :
  Forall2 (fun x y => f x s = (Ok y, s)) xs ys ->
  map_M f xs s = (Ok ys, s).
Proof.
  induction 1 as [|x y xs ys Hx _ IH]; [reflexivity|].
  cbn [map_M]. rewrite (bind_ok _ _ _ _ _ Hx), (bind_ok _ _ _ _ _ IH).
  reflexivity.
Qed.

Lemma hasattr_of_getattr tpl name s v :
  getattr tpl name s = (Ok v, s) -> hasattr tpl name s = (Ok true, s).
Proof. unfold hasattr. now intros ->. Qed.

Lemma checkpoint_rules_models_absent task_p s :
  hasattr task_p "train" s = (Ok false, s) \/
  (exists train,
     getattr task_p "train" s = (Ok train, s) /\
     hasattr train "init_from_checkpoint_rules" s = (Ok false, s)) ->
  checkpoint_rules_models true task_p s = (Ok [], s).
Proof.
  unfold checkpoint_rules_models. intros [H|(train & Ht & Hr)].
  - now rewrite (bind_ok _ _ _ _ _ H).
  - rewrite (bind_ok _ _ _ _ _ (hasattr_of_getattr _ _ _ _ Ht)).
    rewrite (bind_ok _ _ _ _ _ Ht).
    now rewrite (bind_ok _ _ _ _ _ Hr).
Qed.

Lemma checkpoint_rules_models_present task_p s train items models :
  getattr task_p "train" s = (Ok train, s) ->
  getattr train "init_from_checkpoint_rules" s = (Ok (VDict items), s) ->
  Forall2
    (fun item model =>
       exists ckpt_task_p,
         getattr (snd item) "task_p" s = (Ok ckpt_task_p, s) /\
         getattr ckpt_task_p "model" s = (Ok model, s))
    items models ->
  checkpoint_rules_models true task_p s = (Ok models, s).
Proof.
  intros Ht Hr Hitems. unfold checkpoint_rules_models.
  rewrite (bind_ok _ _ _ _ _ (hasattr_of_getattr _ _ _ _ Ht)).
  rewrite (bind_ok _ _ _ _ _ Ht).
  rewrite (bind_ok _ _ _ _ _ (hasattr_of_getattr _ _ _ _ Hr)).
  rewrite (bind_ok _ _ _ _ _ Ht).
  rewrite (bind_ok _ _ _ _ _ Hr).
  apply map_M_read.
  eapply Forall2_impl; [exact Hitems|].
  intros item model (tp & Htp & Hm). cbv beta.
  now rewrite (bind_ok _ _ _ _ _ Htp).
Qed.

(** The common shape of the two [Wrapper.task] methods. *)
Lemma wrapper_task_run (pass : value -> M unit) (num_bits : Z) ckpt
    (super_task : M value) s task_p s1 model more :
  num_bits = 2%Z \/ num_bits = 4%Z \/ num_bits = 8%Z ->
  super_task s = (Ok task_p, s1) ->
  getattr task_p "model" s1 = (Ok model, s1) ->
  checkpoint_rules_models ckpt task_p s1 = (Ok more, s1) ->
  (let* task_p := super_task in
   assert_ (existsb (Z.eqb num_bits) [2; 4; 8]%Z) ;;;
   let* model := getattr task_p "model" in
   let* more := checkpoint_rules_models ckpt task_p in
   for_each (model :: more) pass ;;;
   ret task_p) s
  = match for_each (model :: more) pass s1 with
    | (Ok _, s2) => (Ok task_p, s2)
    | (Raise e, s2) => (Raise e, s2)
    end.
Proof.
  intros Hbits Hsuper Hmodel Hmore.
  rewrite (bind_ok _ _ _ _ _ Hsuper).
  rewrite (bind_ok _ _ _ _ _ (assert_bits_passes num_bits s1 Hbits)).
  rewrite (bind_ok _ _ _ _ _ Hmodel).
  rewrite (bind_ok _ _ _ _ _ Hmore).
  unfold bind at 1.
  now destruct (for_each (model :: more) pass s1) as [[[]|e] s2].
Qed.

Lemma for_each_single {A} (x : A) body s :
  for_each [x] body s = body x s.
Proof.
  rewrite for_each_cons. now destruct (body x s) as [[[]|e] s1].
Qed.

(** X13.  With a supported bit width and the checkpoint-rules option off,
    [Wrapper.task] of [for_transformer] is the wrapped [task] followed by
    [set_transformer_quantization] on [task_p.model] with the wrapper's
    arguments (int4 packing on, [int32] container): it returns the
    [task_p] of the wrapped [task] when the pass returns, and raises what the
    pass raises.  The same holds for [for_diffusion] and
    [set_diffusion_quantization]. *)
Theorem wrapper_task_runs_pass_on_model
    find target num_bits qt m use_symmetric rank wqo qes transposed qng
    linear_only dtype block_size (super_task : M value) s task_p s1 model :
  num_bits = 2%Z \/ num_bits = 4%Z \/ num_bits = 8%Z ->
  super_task s = (Ok task_p, s1) ->
  getattr task_p "model" s1 = (Ok model, s1) ->
  for_transformer_task find num_bits qt m use_symmetric rank wqo qes
    transposed qng linear_only dtype false block_size super_task s
  = match
      set_transformer_quantization find model qt m num_bits linear_only
        use_symmetric rank wqo qes transposed qng dtype block_size true
        jnp_int32 s1
    with
    | (Ok _, s2) => (Ok task_p, s2)
    | (Raise e, s2) => (Raise e, s2)
    end /\
  for_diffusion_task find target num_bits qt m use_symmetric dtype wqo false
    super_task s
  = match
      set_diffusion_quantization find model target qt m num_bits
        use_symmetric wqo dtype s1
    with
    | (Ok _, s2) => (Ok task_p, s2)
    | (Raise e, s2) => (Raise e, s2)
    end.
Proof.
  intros Hbits Hsuper Hmodel. split.
  - unfold for_transformer_task.
    rewrite (wrapper_task_run _ num_bits false super_task s task_p s1 model []
               Hbits Hsuper Hmodel (checkpoint_rules_models_false _ _)).
    now rewrite for_each_single.
  - unfold for_diffusion_task.
    rewrite (wrapper_task_run _ num_bits false super_task s task_p s1 model []
               Hbits Hsuper Hmodel (checkpoint_rules_models_false _ _)).
    now rewrite for_each_single.
Qed.

Lemma wrapper_task_runs_pass_on_model_witness :
  let s := sample_task false in
  exists s2,
    for_transformer_task (find_target_tpl 100) 4 FQ TRAINING true (-1) true
      false false false false jnp_int8 false 0 (ret (VCfg 10)) s
    = (Ok (VCfg 10), s2) /\
    set_transformer_quantization (find_target_tpl 100) (VCfg 0) FQ TRAINING 4
      false true (-1) true false false false jnp_int8 0 true jnp_int32 s
    = (Ok tt, s2) /\
    length (quants s2) = 3.
Proof.
  cbv zeta.
  destruct (wrapper_task_runs_pass_on_model (find_target_tpl 100)
              layers_transformers_Transformer 4 FQ TRAINING true (-1) true
              false false false false jnp_int8 0 (ret (VCfg 10))
              (sample_task false) (VCfg 10) (sample_task false) (VCfg 0))
    as [Htr _]; [lia|reflexivity|reflexivity|].
  rewrite Htr.
  assert (Hlen :
    length (quants (snd (set_transformer_quantization (find_target_tpl 100)
                           (VCfg 0) FQ TRAINING 4 false true (-1) true false
                           false false jnp_int8 0 true jnp_int32
                           (sample_task false)))) = 3)
    by (vm_compute; reflexivity).
  assert (Hok :
    fst (set_transformer_quantization (find_target_tpl 100) (VCfg 0) FQ
           TRAINING 4 false true (-1) true false false false jnp_int8 0 true
           jnp_int32 (sample_task false)) = Ok tt)
    by (vm_compute; reflexivity).
  destruct (set_transformer_quantization _ _ _ _ _ _ _ _ _ _ _ _ _ _ _ _ _)
    as [[[]|e] s2]; cbn [fst snd] in Hlen, Hok; [|discriminate Hok].
  exists s2. split; [reflexivity|]. split; [reflexivity|exact Hlen].
Defined.

(** X14.  The checkpoint-rules option has no effect on a task without
    rules: when [task_p] has no [train] attribute, or [task_p.train] has no
    [init_from_checkpoint_rules], [Wrapper.task] with the option on behaves
    exactly as with the option off, for both wrappers. *)
Theorem checkpoint_rules_option_needs_rules
    find target num_bits qt m use_symmetric rank wqo qes transposed qng
    linear_only dtype block_size (super_task : M value) s task_p s1 :
  super_task s = (Ok task_p, s1) ->
  hasattr task_p "train" s1 = (Ok false, s1) \/
  (exists train,
     getattr task_p "train" s1 = (Ok train, s1) /\
     hasattr train "init_from_checkpoint_rules" s1 = (Ok false, s1)) ->
  for_transformer_task find num_bits qt m use_symmetric rank wqo qes
    transposed qng linear_only dtype true block_size super_task s
  = for_transformer_task find num_bits qt m use_symmetric rank wqo qes
      transposed qng linear_only dtype false block_size super_task s /\
  for_diffusion_task find target num_bits qt m use_symmetric dtype wqo true
    super_task s
  = for_diffusion_task find target num_bits qt m use_symmetric dtype wqo false
      super_task s.
Proof.
  intros Hsuper Habsent.
  pose proof (checkpoint_rules_models_absent task_p s1 Habsent) as Hnone.
  assert (Hsame : forall pass : value -> M unit,
    (let* model := getattr task_p "model" in
     let* more := checkpoint_rules_models true task_p in
     for_each (model :: more) pass ;;; ret task_p) s1
    = (let* model := getattr task_p "model" in
       let* more := checkpoint_rules_models false task_p in
       for_each (model :: more) pass ;;; ret task_p) s1).
  { intros pass.
    pose proof (getattr_store task_p "model" s1) as Hst.
    destruct (getattr task_p "model" s1) as [[model|e] s1'] eqn:Hg;
      cbn in Hst; subst s1'.
    - rewrite !(bind_ok _ _ _ _ _ Hg).
      rewrite (bind_ok _ _ _ _ _ Hnone).
      now rewrite (bind_ok _ _ _ _ _ (checkpoint_rules_models_false _ _)).
    - now rewrite !(bind_raise _ _ _ _ _ Hg). }
  assert (Hassert : forall k k' : M value,
    k s1 = k' s1 ->
    (assert_ (existsb (Z.eqb num_bits) [2; 4; 8]%Z) ;;; k) s1
    = (assert_ (existsb (Z.eqb num_bits) [2; 4; 8]%Z) ;;; k') s1).
  { intros k k' Hk. unfold bind, assert_.
    destruct (existsb _ _); [exact Hk|reflexivity]. }
  split.
  - unfold for_transformer_task.
    rewrite !(bind_ok _ _ _ _ _ Hsuper). apply Hassert, Hsame.
  - unfold for_diffusion_task.
    rewrite !(bind_ok _ _ _ _ _ Hsuper). apply Hassert, Hsame.
Qed.

Lemma checkpoint_rules_option_needs_rules_witness :
  let s := sample_task false in
  hasattr (VCfg 10) "train" s = (Ok false, s) /\
  for_transformer_task (find_target_tpl 100) 8 FQ TRAINING true (-1) true
    false false false false jnp_int8 true 0 (ret (VCfg 10)) s
  = for_transformer_task (find_target_tpl 100) 8 FQ TRAINING true (-1) true
      false false false false jnp_int8 false 0 (ret (VCfg 10)) s.
Proof.
  cbv zeta. split; [reflexivity|].
  apply (checkpoint_rules_option_needs_rules (find_target_tpl 100)
           layers_transformers_Transformer 8 FQ TRAINING true (-1) true false
           false false false jnp_int8 0 (ret (VCfg 10)) (sample_task false)
           (VCfg 10) (sample_task false)); [reflexivity|].
  left. reflexivity.
Defined.

(** X15.  With the checkpoint-rules option on and rules present,
    [Wrapper.task] first collects [task_p.model] and the [task_p.model] of
    every rule, in the order of the dictionary, and then runs the pass on
    each of them in that order; it returns the [task_p] of the wrapped
    [task], or raises what the first failing pass raises. *)
Theorem wrapper_task_quantizes_checkpoint_rule_models
    find target num_bits qt m use_symmetric rank wqo qes transposed qng
    linear_only dtype block_size (super_task : M value) s task_p s1 model
    train items models :
  num_bits = 2%Z \/ num_bits = 4%Z \/ num_bits = 8%Z ->
  super_task s = (Ok task_p, s1) ->
  getattr task_p "model" s1 = (Ok model, s1) ->
  getattr task_p "train" s1 = (Ok train, s1) ->
  getattr train "init_from_checkpoint_rules" s1 = (Ok (VDict items), s1) ->
  Forall2
    (fun item model =>
       exists ckpt_task_p,
         getattr (snd item) "task_p" s1 = (Ok ckpt_task_p, s1) /\
         getattr ckpt_task_p "model" s1 = (Ok model, s1))
    items models ->
  for_transformer_task find num_bits qt m use_symmetric rank wqo qes
    transposed qng linear_only dtype true block_size super_task s
  = match
      for_each (model :: models)
        (fun model =>
           set_transformer_quantization find model qt m num_bits linear_only
             use_symmetric rank wqo qes transposed qng dtype block_size true
             jnp_int32) s1
    with
    | (Ok _, s2) => (Ok task_p, s2)
    | (Raise e, s2) => (Raise e, s2)
    end /\
  for_diffusion_task find target num_bits qt m use_symmetric dtype wqo true
    super_task s
  = match
      for_each (model :: models)
        (fun model =>
           set_diffusion_quantization find model target qt m num_bits
             use_symmetric wqo dtype) s1
    with
    | (Ok _, s2) => (Ok task_p, s2)
    | (Raise e, s2) => (Raise e, s2)
    end.
Proof.
  intros Hbits Hsuper Hmodel Htrain Hrules Hitems.
  pose proof (checkpoint_rules_models_present task_p s1 train items models
                Htrain Hrules Hitems) as Hmore.
  split.
  - unfold for_transformer_task.
    exact (wrapper_task_run _ num_bits true super_task s task_p s1 model
             models Hbits Hsuper Hmodel Hmore).
  - unfold for_diffusion_task.
    exact (wrapper_task_run _ num_bits true super_task s task_p s1 model
             models Hbits Hsuper Hmodel Hmore).
Qed.

Lemma wrapper_task_quantizes_checkpoint_rule_models_witness :
  let s := sample_task true in
  let run :=
    for_transformer_task (find_target_tpl 100) 8 FQ TRAINING true (-1) true
      false false false false jnp_int8 true 0 (ret (VCfg 10)) s in
  run
  = match
      for_each [VCfg 0; VCfg 14]
        (fun model =>
           set_transformer_quantization (find_target_tpl 100) model FQ
             TRAINING 8 false true (-1) true false false false jnp_int8 0
             true jnp_int32) s
    with
    | (Ok _, s2) => (Ok (VCfg 10), s2)
    | (Raise e, s2) => (Raise e, s2)
    end /\
  fst run = Ok (VCfg 10) /\
  (cls <$> (child (snd run) 17 "linear_tpl" ≫= fun r => cfgs (snd run) !! r))
  = Some quantization_Linear.
Proof.
  cbv zeta. split; [|split; vm_compute; reflexivity].
  apply (wrapper_task_quantizes_checkpoint_rule_models (find_target_tpl 100)
           layers_transformers_Transformer 8 FQ TRAINING true (-1) true false
           false false false jnp_int8 0 (ret (VCfg 10)) (sample_task true)
           (VCfg 10) (sample_task true) (VCfg 0) (VCfg 11)
           [("/checkpoints/teacher", VCfg 12)] [VCfg 14]);
    [lia|reflexivity|reflexivity|reflexivity|reflexivity|].
  constructor; [|constructor].
  exists (VCfg 13). split; reflexivity.
Defined.

(** ** Dispatch on the class name *)

Lemma prefix_app_true n post : String.prefix n (n +:+ post) = true.
Proof.
  induction n as [|a n IH]; [now destruct post|].
  change (String a n +:+ post) with (String a (n +:+ post)).
  cbn [String.prefix].
  destruct (Ascii.ascii_dec a a); [exact IH|congruence].
Qed.

Lemma prefix_true_inv n : forall h,
  String.prefix n h = true -> exists post, h = n +:+ post.
Proof.
  induction n as [|a n IH]; intros h H; [now exists h|].
  destruct h as [|b h]; [discriminate|]. cbn in H.
  destruct (Ascii.ascii_dec a b) as [->|]; [|discriminate].
  destruct (IH h H) as [post ->]. now exists post.
Qed.

Lemma str_contains_unfold n h :
  str_contains n h
  = String.prefix n h
    || match h with
       | EmptyString => false
       | String _ rest => str_contains n rest
       end.
Proof. now destruct h. Qed.

Lemma str_contains_iff n h :
  str_contains n h = true <-> exists pre post, h = pre +:+ n +:+ post.
Proof.
  split.
  - induction h as [|b h IH]; rewrite str_contains_unfold; intros H.
    + rewrite orb_false_r in H. apply prefix_true_inv in H as [post ->].
      now exists EmptyString, post.
    + apply orb_true_iff in H as [H|H].
      * apply prefix_true_inv in H as [post ->]. now exists EmptyString, post.
      * destruct (IH H) as (pre & post & ->).
        now exists (String b pre), post.
  - intros (pre & post & ->). induction pre as [|b pre IH].
    + change (EmptyString +:+ n +:+ post) with (n +:+ post).
      now rewrite str_contains_unfold, prefix_app_true.
    + change (String b pre +:+ n +:+ post)
        with (String b (pre +:+ n +:+ post)).
      rewrite str_contains_unfold, IH. apply orb_true_r.
Qed.

(** X9.  For an attention class that is not a subclass of
    [DotProductAttention], [quantize_attention_layer_weights] looks at the
    class name only: if the name has [MultiQueryDotProductAttention] as a
    substring (whatever comes before or after it, whatever the module), the
    template is rewritten as multi-query attention; if not, the [ValueError]
    is raised and nothing changes. *)
Theorem attention_dispatch_by_class_name s tr ctr a ca qt m wp act :
  cfgs s !! tr = Some ctr ->
  assoc "tr_atten_tpl" (args ctr) = Some (VCfg a) ->
  cfgs s !! a = Some ca ->
  issubclass (cls ca) layers_attentions_DotProductAttention = false ->
  let run := quantize_attention_layer_weights (VCfg tr) qt m wp act s in
  ((exists pre post,
      cls_name (cls ca) = pre +:+ "MultiQueryDotProductAttention" +:+ post) ->
   exists s',
     run = (Ok tt, s') /\
     installed s s' a "proj_tpl"
       quantization_attentions_AttentionProjection []
       (qparams qt m act wp) /\
     installed s s' a "headless_proj_tpl"
       quantization_multi_query_attention_OneHeadedAttentionProjection []
       (qparams qt m act wp)) /\
  (~ (exists pre post,
        cls_name (cls ca) = pre +:+ "MultiQueryDotProductAttention" +:+ post) ->
   run = (Raise (unsupported_attention (cls ca)), s)).
Proof.
  intros Htr Hat Ha Hsub run. unfold run.
  rewrite (attention_run s tr ctr a ca qt m wp act Htr Hat Ha), Hsub.
  split.
  - intros Hname. apply str_contains_iff in Hname. rewrite Hname.
    rewrite (mq_run s a ca qt m wp act Ha).
    eexists. split; [reflexivity|].
    now apply install_twice_installed.
  - intros Hname.
    destruct (str_contains _ _) eqn:Hc; [|reflexivity].
    exfalso. apply Hname. now apply str_contains_iff.
Qed.

Lemma attention_dispatch_by_class_name_witness :
  let my_attention :=
    {| qualname := "my_project.layers.FastMultiQueryDotProductAttentionV2";
       cls_name := "FastMultiQueryDotProductAttentionV2";
       bases := ["praxis.base_layer.BaseLayer"] |} in
  let s := sample_lm my_attention layers_SharedEmbeddingSoftmax VNone
             layers_ngrammer_Ngrammer in
  issubclass my_attention layers_attentions_DotProductAttention = false /\
  exists s',
    quantize_attention_layer_weights (VCfg 2) PTQ INFERENCE sample_wp None s
    = (Ok tt, s') /\
    installed s s' 3 "headless_proj_tpl"
      quantization_multi_query_attention_OneHeadedAttentionProjection []
      (qparams PTQ INFERENCE None sample_wp).
Proof.
  cbv zeta. split; [reflexivity|].
  destruct (attention_dispatch_by_class_name
              (sample_lm
                 {| qualname :=
                      "my_project.layers.FastMultiQueryDotProductAttentionV2";
                    cls_name := "FastMultiQueryDotProductAttentionV2";
                    bases := ["praxis.base_layer.BaseLayer"] |}
                 layers_SharedEmbeddingSoftmax VNone layers_ngrammer_Ngrammer)
              2
              {| cls := layers_transformers_Transformer; quantization := None;
                 args := [("tr_atten_tpl", VCfg 3);
                          ("tr_fflayer_tpl", VCfg 5)] |}
              3
              {| cls :=
                   {| qualname :=
                        "my_project.layers.FastMultiQueryDotProductAttentionV2";
                      cls_name := "FastMultiQueryDotProductAttentionV2";
                      bases := ["praxis.base_layer.BaseLayer"] |};
                 quantization := None;
                 args := [("num_heads", VInt 8); ("proj_tpl", VCfg 4)] |}
              PTQ INFERENCE sample_wp None)
    as [Hmq _]; [reflexivity|reflexivity|reflexivity|reflexivity|].
  destruct Hmq as (s' & Hrun & _ & Hhead).
  { exists "Fast"%string, "V2"%string. reflexivity. }
  exists s'. split; [exact Hrun|exact Hhead].
Defined.

(** ** Failure in the middle of a pass *)

(** X5.  [set_transformer_quantization] stops at the first matched
    transformer block whose attention class is not recognised (and
    [linear_only] is off): it raises the [ValueError] for that class, the
    blocks matched before it stay rewritten, and neither the feed-forward
    layer of that block, nor any later block, nor any embedding is
    touched: the store is the one left by the blocks before it. *)
Theorem set_transformer_quantization_stops_at_unsupported_attention
    find config qt m num_bits use_symmetric rank wqo qes transposed qng dtype
    block_size packed container s done tr rest s1 ctr a ca :
  find (cfgs s) config layers_transformers_Transformer
  = done ++ VCfg tr :: rest ->
  for_each done
    (fun t =>
       quantize_transformer_layer_weights t qt m
         (transformer_weight_params num_bits use_symmetric dtype block_size
            packed container)
         (act_quantization_params_of wqo num_bits) false rank) s
  = (Ok tt, s1) ->
  cfgs s1 !! tr = Some ctr ->
  assoc "tr_atten_tpl" (args ctr) = Some (VCfg a) ->
  cfgs s1 !! a = Some ca ->
  issubclass (cls ca) layers_attentions_DotProductAttention = false ->
  str_contains "MultiQueryDotProductAttention" (cls_name (cls ca)) = false ->
  set_transformer_quantization find config qt m num_bits false use_symmetric
    rank wqo qes transposed qng dtype block_size packed container s
  = (Raise (unsupported_attention (cls ca)), s1).
Proof.
  intros Hfind Hdone Htr Hat Ha Hsub Hname.
  rewrite set_transformer_quantization_unfold. cbv zeta.
  rewrite Hfind, for_each_app, Hdone, for_each_cons.
  assert (Hraise :
    quantize_transformer_layer_weights (VCfg tr) qt m
      (transformer_weight_params num_bits use_symmetric dtype block_size
         packed container)
      (act_quantization_params_of wqo num_bits) false rank s1
    = (Raise (unsupported_attention (cls ca)), s1)).
  { unfold quantize_transformer_layer_weights. cbn [negb when].
    apply bind_raise.
    rewrite (attention_run s1 tr ctr a ca _ _ _ _ Htr Hat Ha).
    now rewrite Hsub, Hname. }
  now rewrite Hraise.
Qed.

Lemma set_transformer_quantization_stops_at_unsupported_attention_witness :
  let s := two_block_stack 8 in
  let run :=
    set_transformer_quantization (find_target_tpl 100) (VCfg 0) PTQ INFERENCE
      8 false true (-1) true true false false jnp_int8 0 true jnp_int32 s in
  find_target_tpl 100 (cfgs s) (VCfg 0) layers_transformers_Transformer
  = [VCfg 1; VCfg 2] /\
  fst run = Raise (unsupported_attention LinearAttention) /\
  (cls <$> (child (snd run) 5 "linear_tpl" ≫= fun r => cfgs (snd run) !! r))
  = Some quantization_Linear /\
  child (snd run) 7 "linear_tpl" = None.
Proof.
  cbv zeta. split; [vm_compute; reflexivity|].
  set (s1 :=
    snd (for_each [VCfg 1]
           (fun t =>
              quantize_transformer_layer_weights t PTQ INFERENCE
                (transformer_weight_params 8 true jnp_int8 0 true jnp_int32)
                (act_quantization_params_of true 8) false (-1))
           (two_block_stack 8))).
  rewrite (set_transformer_quantization_stops_at_unsupported_attention
             (find_target_tpl 100) (VCfg 0) PTQ INFERENCE 8 true (-1) true
             true false false jnp_int8 0 true jnp_int32 (two_block_stack 8)
             [VCfg 1] 2 [] s1
             {| cls := layers_transformers_Transformer; quantization := None;
                args := [("tr_atten_tpl", VCfg 8);
                         ("tr_fflayer_tpl", VCfg 6)] |}
             8
             {| cls := LinearAttention; quantization := None;
                args := [("num_heads", VInt 8)] |});
    [|vm_compute; reflexivity..].
  split; [reflexivity|]. split; vm_compute; reflexivity.
Defined.

Lemma shared_attention_template_quantized_for_all_witness :
  let s := two_block_stack 3 in
  child s 1 "tr_atten_tpl" = Some 3 /\
  child s 2 "tr_atten_tpl" = Some 3 /\
  exists s',
    quantize_attention_layer_weights (VCfg 1) PTQ INFERENCE sample_wp None s
    = (Ok tt, s') /\
    child s' 2 "tr_atten_tpl" = Some 3 /\
    installed s s' 3 "proj_tpl" quantization_attentions_AttentionProjection []
      (qparams PTQ INFERENCE None sample_wp).
Proof.
  cbv zeta. split; [reflexivity|]. split; [reflexivity|].
  apply (shared_attention_template_quantized_for_all (two_block_stack 3) 1
           {| cls := layers_transformers_Transformer; quantization := None;
              args := [("tr_atten_tpl", VCfg 3); ("tr_fflayer_tpl", VCfg 4)] |}
           2
           {| cls := layers_transformers_Transformer; quantization := None;
              args := [("tr_atten_tpl", VCfg 3); ("tr_fflayer_tpl", VCfg 6)] |}
           3
           {| cls := layers_attentions_DotProductAttention;
              quantization := None; args := [("num_heads", VInt 8)] |});
    reflexivity.
Defined.

(** X8.  The embedding softmax is replaced by assigning a new template
    to the language model, not by changing the old template: when two
    language models share one softmax template,
    [_quantize_embedding_softmax_layer_weights] on the first gives it a new
    template, while the second still refers to the old one, which is as it
    was, as is every template other than the first language model. *)
Theorem shared_softmax_template_replaced_for_one
    s lm clm lm2 clm2 old cold qt m wp transposed :
  cfgs s !! lm = Some clm ->
  assoc "softmax_tpl" (args clm) = Some (VCfg old) ->
  cfgs s !! old = Some cold ->
  issubclass (cls cold) layers_SharedEmbeddingSoftmax = true ->
  cfgs s !! lm2 = Some clm2 ->
  assoc "softmax_tpl" (args clm2) = Some (VCfg old) ->
  lm2 <> lm -> old <> lm ->
  exists s' new,
    _quantize_embedding_softmax_layer_weights (VCfg lm) qt m wp transposed s
    = (Ok tt, s') /\
    child s' lm "softmax_tpl" = Some new /\
    new <> old /\
    child s' lm2 "softmax_tpl" = Some old /\
    cfgs s' !! old = Some cold /\
    (forall r c, r <> lm -> cfgs s !! r = Some c -> cfgs s' !! r = Some c).
Proof.
  intros Hlm Hsm Hold Hsub Hlm2 Hsm2 Hne2 Hneo.
  rewrite (softmax_run s lm clm old cold qt m wp transposed Hlm Hsm Hold), Hsub.
  eexists _, (length (cfgs s)). split; [reflexivity|].
  split; [|split; [|split; [|split]]].
  - unfold child. rewrite (install_lookup_parent _ _ _ _ _ _ _ Hlm).
    cbn [args set_arg]. now rewrite assoc_set_eq.
  - apply lookup_lt_Some in Hold. lia.
  - unfold child. rewrite (install_frame _ _ _ _ _ _ _ _ _ Hne2 Hlm2).
    now rewrite Hsm2.
  - now apply install_frame.
  - intros r c Hr Hc. now apply install_frame.
Qed.

Lemma shared_softmax_template_replaced_for_one_witness :
  let s := two_lms_one_softmax in
  child s 0 "softmax_tpl" = Some 2 /\
  child s 1 "softmax_tpl" = Some 2 /\
  exists s' new,
    _quantize_embedding_softmax_layer_weights (VCfg 0) PTQ INFERENCE
      sample_wp false s = (Ok tt, s') /\
    child s' 0 "softmax_tpl" = Some new /\
    new <> 2 /\
    child s' 1 "softmax_tpl" = Some 2 /\
    cfgs s' !! 2 = cfgs s !! 2.
Proof.
  cbv zeta. split; [reflexivity|]. split; [reflexivity|].
  destruct (shared_softmax_template_replaced_for_one two_lms_one_softmax 0
              {| cls := layers_TransformerLm; quantization := None;
                 args := [("softmax_tpl", VCfg 2); ("ngrammer_tpl", VNone)] |}
              1
              {| cls := layers_TransformerLm; quantization := None;
                 args := [("softmax_tpl", VCfg 2); ("ngrammer_tpl", VNone)] |}
              2
              {| cls := layers_SharedEmbeddingSoftmax; quantization := None;
                 args := [("num_classes", VInt 32000)] |}
              PTQ INFERENCE sample_wp false)
    as (s' & new & Hrun & Hnew & Hne & Hother & Hold & _);
    [reflexivity|reflexivity|reflexivity|reflexivity|reflexivity|reflexivity
    |lia|lia|].
  exists s', new. split; [exact Hrun|]. split; [exact Hnew|].
  split; [exact Hne|]. split; [exact Hother|exact Hold].
Defined.

Lemma created_params_are_as_passed_witness :
  let s := lm_dot_product in
  let s_tr :=
    snd (set_transformer_quantization (find_target_tpl 100) (VCfg 0) FQ
           TRAINING 4 false false (-1) true false false false jnp_int8 128
           false jnp_int8 s) in
  exists c q qp,
    cfgs s_tr !! 12 = Some c /\
    cls c = quantization_Linear /\
    quantization c = Some q /\ quants s_tr !! q = Some qp /\
    quantization_type qp = FQ /\ mode qp = TRAINING /\
    weight_params qp
    = Some {| WeightQuantizationParams.precision := 4;
              WeightQuantizationParams.use_symmetric := false;
              WeightQuantizationParams.dtype := jnp_int8;
              WeightQuantizationParams.block_size := Some 128%Z;
              WeightQuantizationParams.use_int4_packed_weights := Some false;
              WeightQuantizationParams.int4_packed_weights_container_dtype
                := Some jnp_int8 |}.
Proof.
  cbv zeta.
  destruct (cfgs (snd (set_transformer_quantization (find_target_tpl 100)
                         (VCfg 0) FQ TRAINING 4 false false (-1) true false
                         false false jnp_int8 128 false jnp_int8
                         lm_dot_product)) !! 12) as [c|] eqn:Hc;
    [|vm_compute in Hc; discriminate].
  destruct (proj1 (created_params_are_as_passed (find_target_tpl 100) (VCfg 0)
                     layers_transformers_Transformer FQ TRAINING 4 false false
                     (-1) true false false false jnp_int8 128 false jnp_int8
                     lm_dot_product) 12 c)
    as (q & qp & Hq & Hqp & Hrest); [vm_compute; lia|exact Hc|].
  exists c, q, qp. split; [reflexivity|].
  split; [|split; [exact Hq|split; [exact Hqp|exact Hrest]]].
  assert (Hcls :
    (cls <$> cfgs (snd (set_transformer_quantization (find_target_tpl 100)
                          (VCfg 0) FQ TRAINING 4 false false (-1) true false
                          false false jnp_int8 128 false jnp_int8
                          lm_dot_product)) !! 12) = Some quantization_Linear)
    by (vm_compute; reflexivity).
  rewrite Hc in Hcls. now injection Hcls.
Defined.

(** ** [set_inference_mode] after a pass *)

(** X16.  [set_inference_mode] after [set_transformer_quantization]: on
    an acyclic configuration, whatever mode the pass was run with, every
    template the pass created that the walk from [config] comes to ends
    with the [QuantizationParams] that the pass would have given it in
    [INFERENCE] mode; the templates stay as the pass left them. *)
Theorem set_inference_mode_after_set_transformer_quantization
    find config qt m num_bits linear_only use_symmetric rank wqo qes
    transposed qng dtype block_size packed container s rk :
  let s1 :=
    snd (set_transformer_quantization find config qt m num_bits linear_only
           use_symmetric rank wqo qes transposed qng dtype block_size packed
           container s) in
  ranked (cfgs s1) rk ->
  exists fuel0 s2,
    (forall fuel,
       fuel0 <= fuel -> set_inference_mode fuel config s1 = Some s2) /\
    cfgs s2 = cfgs s1 /\
    forall r c,
      reach (cfgs s1) config r ->
      length (cfgs s) <= r -> cfgs s1 !! r = Some c ->
      exists q,
        quantization c = Some q /\
        quants s2 !! q
        = Some (qparams qt INFERENCE
                  (if is_embedding_class (cls c) then None
                   else act_quantization_params_of wqo num_bits)
                  (transformer_weight_params num_bits use_symmetric dtype
                     block_size packed container)).
Proof.
  intros s1 Hrk.
  destruct (set_inference_mode_run s1 config rk Hrk)
    as (fuel0 & s2 & Hrun & Hc & _ & Hset).
  exists fuel0, s2. split; [|split; [exact Hc|]].
  - intros fuel Hle. now apply (loop_mono _ _ _ _ Hrun).
  - intros r c Hreach Hnew Hr.
    destruct (sound_set_transformer_quantization find config qt m num_bits
                linear_only use_symmetric rank wqo qes transposed qng dtype
                block_size packed container s) as [(_ & _ & _ & Hcreated) _].
    destruct (Hcreated r c Hnew Hr) as (q & qp & Hq & _ & Hqp & HP).
    exists q. split; [exact Hq|].
    rewrite (Hset r c q Hreach Hr Hq).
    change (quants s1 !! q = Some qp) in Hqp.
    rewrite Hqp. unfold pass_params in HP. now subst qp.
Qed.

Lemma set_inference_mode_after_set_transformer_quantization_witness :
  let s1 :=
    snd (set_transformer_quantization (find_target_tpl 100) (VCfg 0) FQ
           TRAINING 8 false true (-1) true true false true jnp_int8 0 true
           jnp_int32 lm_dot_product) in
  ranked (cfgs s1) lm_quantized_rank /\
  reach (cfgs s1) (VCfg 0) 13 /\
  (cls <$> cfgs s1 !! 13) = Some quantization_SharedEmbeddingSoftmax /\
  exists fuel0 s2,
    (forall fuel,
       fuel0 <= fuel -> set_inference_mode fuel (VCfg 0) s1 = Some s2) /\
    exists c q,
      cfgs s1 !! 13 = Some c /\ quantization c = Some q /\
      (mode <$> quants s1 !! q) = Some TRAINING /\
      (mode <$> quants s2 !! q) = Some INFERENCE.
Proof.
  cbv zeta.
  assert (Hrk :
    ranked (cfgs (snd (set_transformer_quantization (find_target_tpl 100)
                         (VCfg 0) FQ TRAINING 8 false true (-1) true true
                         false true jnp_int8 0 true jnp_int32
                         lm_dot_product))) lm_quantized_rank)
    by (apply check_ranked_sound; vm_compute; reflexivity).
  assert (Hreach :
    reach (cfgs (snd (set_transformer_quantization (find_target_tpl 100)
                        (VCfg 0) FQ TRAINING 8 false true (-1) true true
                        false true jnp_int8 0 true jnp_int32
                        lm_dot_product))) (VCfg 0) 13).
  { eapply (reach_arg _ (VCfg 0) 0 _ (VCfg 13) 13).
    - apply list_elem_of_singleton. reflexivity.
    - vm_compute. reflexivity.
    - apply list_elem_of_In. cbn. auto.
    - apply reach_here. apply list_elem_of_singleton. reflexivity. }
  split; [exact Hrk|]. split; [exact Hreach|].
  split; [vm_compute; reflexivity|].
  destruct (set_inference_mode_after_set_transformer_quantization
              (find_target_tpl 100) (VCfg 0) FQ TRAINING 8 false true (-1)
              true true false true jnp_int8 0 true jnp_int32 lm_dot_product
              lm_quantized_rank Hrk) as (fuel0 & s2 & Hrun & _ & Hset).
  exists fuel0, s2. split; [exact Hrun|].
  destruct (cfgs (snd (set_transformer_quantization (find_target_tpl 100)
                         (VCfg 0) FQ TRAINING 8 false true (-1) true true
                         false true jnp_int8 0 true jnp_int32
                         lm_dot_product)) !! 13) as [c|] eqn:Hc;
    [|vm_compute in Hc; discriminate].
  destruct (Hset 13 c Hreach ltac:(vm_compute; lia) Hc) as (q & Hq & Hq2).
  exists c, q. split; [reflexivity|]. split; [exact Hq|].
  split; [|now rewrite Hq2].
  assert (Hall :
    forall q', q' < 5 ->
      (mode <$> quants (snd (set_transformer_quantization
                               (find_target_tpl 100) (VCfg 0) FQ TRAINING 8
                               false true (-1) true true false true jnp_int8
                               0 true jnp_int32 lm_dot_product)) !! q')
      = Some TRAINING).
  { intros q' Hlt.
    destruct q' as [|[|[|[|[|q']]]]]; [vm_compute; reflexivity..|lia]. }
  apply Hall.
  assert (Hsome : is_Some (quants s2 !! q)) by (rewrite Hq2; eauto).
  destruct (sound_set_transformer_quantization (find_target_tpl 100) (VCfg 0)
              FQ TRAINING 8 false true (-1) true true false true jnp_int8 0
              true jnp_int32 lm_dot_product) as [(_ & _ & _ & Hcreated) _].
  destruct (Hcreated 13 c ltac:(vm_compute; lia) Hc)
    as (q0 & qp & Hq0 & _ & Hqp & _).
  assert (q0 = q) by congruence. subst q0.
  apply lookup_lt_Some in Hqp. vm_compute in Hqp. vm_compute. lia.
Defined.

(** ** What the walk of [set_inference_mode] does not open *)

Lemma fold_visit_no_templates params :
  direct params = [] ->
  forall s stk, fold_left visit params (s, stk) = (s, stk).
Proof.
  induction params as [|e ps IH]; intros Hd s stk; [reflexivity|].
  destruct e; cbn in Hd; try discriminate;
    (change (fold_left visit ps (s, stk) = (s, stk)); now apply IH).
Qed.

Lemma loop_no_templates wl :
  Forall (fun a => elem_cfgs a = []) wl ->
  forall fuel s, length wl < fuel ->
  set_inference_mode_loop fuel s wl = Some s.
Proof.
  induction 1 as [|a wl Ha _ IH]; intros fuel s Hlt.
  - destruct fuel; [cbn in Hlt; lia|reflexivity].
  - destruct fuel; [lia|]. cbn [set_inference_mode_loop].
    rewrite (fold_visit_no_templates _ Ha). cbn [fst snd].
    apply IH. cbn in Hlt. lia.
Qed.

(** X17.  The walk of [set_inference_mode] opens one level of sequence
    only: on a template none of whose arguments is a template or a sequence
    with a template among its elements (templates inside a dict, or inside a
    sequence nested in a sequence, do not count), it returns the store in
    which only the [QuantizationParams] object of that template, if it has
    one, was switched to [INFERENCE]. *)
Theorem set_inference_mode_opens_one_level s r c :
  cfgs s !! r = Some c ->
  Forall (fun a => elem_cfgs a = []) (ordered_arguments_values c) ->
  forall fuel,
    2 + length (args c) <= fuel ->
    set_inference_mode fuel (VCfg r) s
    = Some (set_quantization_mode_inference (VCfg r) s).
Proof.
  intros Hr Hargs fuel Hfuel.
  destruct fuel as [|fuel]; [lia|].
  unfold set_inference_mode. cbn [set_inference_mode_loop as_params fold_left].
  unfold visit. cbn [fst snd].
  rewrite set_mode_cfgs, Hr. cbn [fst snd]. rewrite app_nil_r.
  apply loop_no_templates.
  - apply Forall_reverse. exact Hargs.
  - rewrite length_reverse. unfold ordered_arguments_values.
    rewrite length_map. lia.
Qed.

Lemma set_inference_mode_opens_one_level_witness :
  let s := nested_children in
  exists s',
    set_inference_mode 5 (VCfg 0) s = Some s' /\
    map mode (quants s) = [TRAINING; TRAINING] /\
    map mode (quants s') = [INFERENCE; TRAINING].
Proof.
  cbv zeta. eexists. split.
  - apply (set_inference_mode_opens_one_level nested_children 0
             {| cls := quantization_Linear; quantization := Some 0;
                args := [("by_name", VDict [("a", VCfg 1)]);
                         ("groups", VSeq [VSeq [VCfg 1]]);
                         ("rank", VInt 4)] |});
      [reflexivity| |cbn; lia].
    repeat constructor.
  - split; reflexivity.
Defined.

Section Replacements.

Variable table : string -> option (pyclass * list (string * value)).
Variable qp : QuantizationParams.

Lemma evolved_refl s : evolved table s s.
Proof. split; [lia|]. split; [lia|]. eauto. Qed.

(** One assignment of a new template of the class given by [table]. *)
Lemma install_evolves s0 s parent cp name c kw :
  evolved table s0 s ->
  cfgs s !! parent = Some cp ->
  parent < length (cfgs s0) ->
  table name = Some (c, kw) ->
  let s1 := install s parent cp name c kw qp in
  evolved table s0 s1 /\
  replaced table qp s0 s1 parent name /\
  (forall p n, replaced table qp s0 s p n -> replaced table qp s0 s1 p n).
Proof.
  intros (Hlc & Hlq & Hold) Hp Hlt Htab s1. split; [|split].
  - split; [unfold s1; rewrite install_length_cfgs; lia|].
    split; [unfold s1; rewrite install_length_quants; lia|].
    intros r c0 Hr. destruct (Hold r c0 Hr) as (c1 & Hr1 & Hcls & Hargs).
    destruct (install_lookup_old s parent cp name c kw qp r c1 Hp Hr1)
      as (c2 & Hr2 & _ & Hcls2 & _ & Hargs2).
    exists c2. split; [exact Hr2|]. split; [congruence|].
    intros n Hn. rewrite Hargs2, Hargs; [reflexivity|exact Hn|].
    intros ->. congruence.
  - exists c, kw. split; [exact Htab|].
    eapply installed_weaken; [exact Hlc|exact Hlq|].
    now apply install_installed.
  - intros p n (c' & kw' & Htab' & Hin).
    destruct (decide (p = parent /\ n = name)) as [[-> ->]|Hne].
    + exists c, kw. split; [exact Htab|].
      eapply installed_weaken; [exact Hlc|exact Hlq|].
      now apply install_installed.
    + exists c', kw'. split; [exact Htab'|].
      apply installed_install; auto.
Qed.

End Replacements.

(** *** The diffusion pass *)

Lemma diffusion_loop qt m act wp l :
  forall s0 s,
    evolved diffusion_replacement s0 s ->
    (forall d, VCfg d ∈ l -> d < length (cfgs s0)) ->
    exists s',
      for_each l
        (fun diffusion_tpl =>
           let* has_conv := hasattr diffusion_tpl "conv_tpl" in
           when has_conv
             (let* q := new_QuantizationParams (qparams qt m act wp) in
              let* conv := pax_fiddle_Config quantization_Conv2D q [] in
              setattr diffusion_tpl "conv_tpl" conv)) s
      = (Ok tt, s') /\
      evolved diffusion_replacement s0 s' /\
      (forall p n,
         replaced diffusion_replacement (qparams qt m act wp) s0 s p n ->
         replaced diffusion_replacement (qparams qt m act wp) s0 s' p n) /\
      (forall d cd v,
         VCfg d ∈ l -> cfgs s !! d = Some cd ->
         assoc "conv_tpl" (args cd) = Some v ->
         replaced diffusion_replacement (qparams qt m act wp) s0 s' d
           "conv_tpl") /\
      (forall r c,
         cfgs s !! r = Some c ->
         VCfg r ∉ l \/ assoc "conv_tpl" (args c) = None ->
         cfgs s' !! r = Some c).
Proof.
  induction l as [|x l IH]; intros s0 s Hev Hin.
  - exists s. split; [reflexivity|]. split; [exact Hev|].
    split; [auto|]. split; [|auto].
    intros d cd v Hd. now apply elem_of_nil in Hd.
  - assert (Hin' : forall d, VCfg d ∈ l -> d < length (cfgs s0))
      by (intros d Hd; apply Hin; now right).
    match goal with
    | |- context [for_each (x :: l) ?b] => set (body := b) in *
    end.
    rewrite for_each_cons.
    assert (Hskip :
      hasattr x "conv_tpl" s = (Ok false, s) ->
      exists s',
        match body x s with
        | (Ok _, s1) => for_each l body s1
        | (Raise e, s1) => (Raise e, s1)
        end = (Ok tt, s') /\
        evolved diffusion_replacement s0 s' /\
        (forall p n,
           replaced diffusion_replacement (qparams qt m act wp) s0 s p n ->
           replaced diffusion_replacement (qparams qt m act wp) s0 s' p n) /\
        (forall d cd v,
           VCfg d ∈ x :: l -> cfgs s !! d = Some cd ->
           assoc "conv_tpl" (args cd) = Some v ->
           replaced diffusion_replacement (qparams qt m act wp) s0 s' d
             "conv_tpl") /\
        (forall r c,
           cfgs s !! r = Some c ->
           VCfg r ∉ x :: l \/ assoc "conv_tpl" (args c) = None ->
           cfgs s' !! r = Some c)).
    { intros Hno. unfold body at 1. rewrite (bind_ok _ _ _ _ _ Hno).
      cbn [when ret].
      destruct (IH s0 s Hev Hin') as (s' & Hrun & Hev' & Hkeep & Hdone & Hfr).
      exists s'. split; [exact Hrun|]. split; [exact Hev'|].
      split; [exact Hkeep|]. split.
      - intros d cd v Hd Hcd Hv.
        apply elem_of_cons in Hd as [Hd|Hd]; [|eauto].
        subst x. unfold hasattr in Hno.
        rewrite (getattr_ok _ _ _ _ _ Hcd Hv) in Hno. discriminate.
      - intros r c Hr [Hnot|Hnone]; apply (Hfr r c Hr); [left|now right].
        intros Hl. apply Hnot. now right. }
    destruct x as [| | | |d| |]; try (apply Hskip; reflexivity).
    destruct (cfgs s !! d) as [cd|] eqn:Hd;
      [|apply Hskip; unfold hasattr, getattr; now rewrite Hd].
    destruct (assoc "conv_tpl" (args cd)) as [v|] eqn:Hv;
      [|apply Hskip; unfold hasattr, getattr; now rewrite Hd, Hv].
    clear Hskip.
    assert (Hhas : hasattr (VCfg d) "conv_tpl" s = (Ok true, s))
      by (unfold hasattr; now rewrite (getattr_ok _ _ _ _ _ Hd Hv)).
    unfold body at 1. rewrite (bind_ok _ _ _ _ _ Hhas). cbn [when].
    rewrite (install_run s d cd "conv_tpl" quantization_Conv2D [] _ Hd).
    destruct (install_evolves diffusion_replacement (qparams qt m act wp)
                s0 s d cd "conv_tpl" quantization_Conv2D [] Hev Hd
                (Hin d ltac:(now left)) eq_refl) as (Hev1 & Hnew1 & Hkeep1).
    set (s1 := install s d cd "conv_tpl" quantization_Conv2D []
                 (qparams qt m act wp)) in *.
    destruct (IH s0 s1 Hev1 Hin') as (s' & Hrun & Hev' & Hkeep & Hdone & Hfr).
    exists s'. split; [exact Hrun|]. split; [exact Hev'|].
    split; [auto|]. split.
    + intros d' cd' v' Hd' Hcd' Hv'.
      destruct (decide (d' = d)) as [->|Hne]; [now apply Hkeep|].
      apply elem_of_cons in Hd' as [Hd'|Hd']; [congruence|].
      apply (Hdone d' cd' v' Hd'); [|exact Hv'].
      unfold s1. now apply install_frame.
    + intros r c Hr Hcase.
      assert (Hne : r <> d).
      { intros ->. destruct Hcase as [Hnot|Hnone].
        - apply Hnot. now left.
        - congruence. }
      apply (Hfr r c).
      * unfold s1. now apply install_frame.
      * destruct Hcase as [Hnot|Hnone]; [left|now right].
        intros Hl. apply Hnot. now right.
Qed.

(** X3.  [set_diffusion_quantization] over any number of matched templates
    of the store: it returns normally; every matched template that had a
    [conv_tpl] argument ends with a [quantization.Conv2D] template created by
    the call in that argument, carrying a [QuantizationParams] object created
    by the call with the parameters of the call; every template that is not
    matched, or has no [conv_tpl], is left as it was. *)
Theorem set_diffusion_quantization_all_matched
    find config target qt m num_bits use_symmetric wqo dtype s :
  (forall d, VCfg d ∈ find (cfgs s) config target -> d < length (cfgs s)) ->
  exists s',
    set_diffusion_quantization find config target qt m num_bits use_symmetric
      wqo dtype s = (Ok tt, s') /\
    (forall d cd v,
       VCfg d ∈ find (cfgs s) config target ->
       cfgs s !! d = Some cd ->
       assoc "conv_tpl" (args cd) = Some v ->
       installed s s' d "conv_tpl" quantization_Conv2D []
         (qparams qt m (act_quantization_params_of wqo num_bits)
            (diffusion_weight_params num_bits use_symmetric dtype))) /\
    (forall r c,
       cfgs s !! r = Some c ->
       VCfg r ∉ find (cfgs s) config target
       \/ assoc "conv_tpl" (args c) = None ->
       cfgs s' !! r = Some c).
Proof.
  intros Hin. rewrite set_diffusion_quantization_unfold.
  destruct (diffusion_loop qt m (act_quantization_params_of wqo num_bits)
              (diffusion_weight_params num_bits use_symmetric dtype)
              (find (cfgs s) config target) s s
              (evolved_refl _ s) Hin)
    as (s' & Hrun & _ & _ & Hdone & Hfr).
  exists s'. split; [exact Hrun|]. split; [|exact Hfr].
  intros d cd v Hd Hcd Hv.
  destruct (Hdone d cd v Hd Hcd Hv) as (c & kw & Htab & Hinst).
  cbn in Htab. now injection Htab as <- <-.
Qed.

(** *** The transformer pass *)

Section TransformerLoop.

Variable qt : QuantizationType.
Variable m : QuantizationMode.
Variable wp : WeightQuantizationParams.t.
Variable act : option ActQuantizationParams.t.
Variable rank : Z.

Lemma block_ready_evolved linear_only s0 s tr f2 a :
  evolved (transformer_replacement rank) s0 s ->
  block_ready linear_only s0 tr f2 a ->
  block_ready linear_only s tr f2 a.
Proof.
  intros (_ & _ & Hold) (ctr & f1 & c1 & c2 & Htr & Hff & Hf1 & Hfl & Hf2 & Ha).
  destruct (Hold tr ctr Htr) as (ctr' & Htr' & _ & Hargs_tr).
  destruct (Hold f1 c1 Hf1) as (c1' & Hf1' & _ & Hargs_f1).
  destruct (Hold f2 c2 Hf2) as (c2' & Hf2' & _ & _).
  exists ctr', f1, c1', c2'.
  split; [exact Htr'|]. split; [now rewrite Hargs_tr|].
  split; [exact Hf1'|]. split; [now rewrite Hargs_f1|].
  split; [exact Hf2'|].
  destruct linear_only; [exact Ha|].
  destruct Ha as (ra & ca & -> & Hat & Hra & Hrec).
  destruct (Hold ra ca Hra) as (ca' & Hra' & Hcls & _).
  exists ra, ca'. split; [reflexivity|]. split; [now rewrite Hargs_tr|].
  split; [exact Hra'|]. now rewrite Hcls.
Qed.

Lemma block_ready_fun linear_only s tr f2 a f2' a' :
  block_ready linear_only s tr f2 a ->
  block_ready linear_only s tr f2' a' ->
  f2 = f2' /\ a = a'.
Proof.
  intros (ctr & f1 & c1 & c2 & Htr & Hff & Hf1 & Hfl & Hf2 & Ha)
         (ctr' & f1' & c1' & c2' & Htr' & Hff' & Hf1' & Hfl' & Hf2' & Ha').
  assert (ctr' = ctr) by congruence. subst ctr'.
  assert (f1' = f1) by congruence. subst f1'.
  assert (c1' = c1) by congruence. subst c1'.
  split; [congruence|].
  destruct linear_only; [congruence|].
  destruct Ha as (ra & ca & -> & Hat & _), Ha' as (ra' & ca' & -> & Hat' & _).
  congruence.
Qed.

Lemma feed_forward_step linear_only s0 s tr f2 a :
  evolved (transformer_replacement rank) s0 s ->
  block_ready linear_only s0 tr f2 a ->
  exists s1,
    (let* tr_fflayer_tpl := getattr (VCfg tr) "tr_fflayer_tpl" in
     quantize_transformer_feed_forward_layer_weights tr_fflayer_tpl qt m wp
       act rank) s = (Ok tt, s1) /\
    evolved (transformer_replacement rank) s0 s1 /\
    replaced (transformer_replacement rank) (qparams qt m act wp) s0 s1 f2
      "linear_tpl" /\
    (forall p n,
       replaced (transformer_replacement rank) (qparams qt m act wp) s0 s p n ->
       replaced (transformer_replacement rank) (qparams qt m act wp) s0 s1 p
         n).
Proof.
  intros Hev Hready0.
  assert (Hlt : f2 < length (cfgs s0)).
  { destruct Hready0 as (_ & _ & _ & c2 & _ & _ & _ & _ & Hf2 & _).
    now apply lookup_lt_Some in Hf2. }
  destruct (block_ready_evolved _ _ _ _ _ _ Hev Hready0)
    as (ctr & f1 & c1 & c2 & Htr & Hff & Hf1 & Hfl & Hf2 & _).
  eexists. split.
  - rewrite (bind_ok _ _ _ _ _ (getattr_ok _ _ _ _ _ Htr Hff)).
    apply (ff_run s f1 c1 f2 c2 qt m wp act rank Hf1 Hfl Hf2).
  - exact (install_evolves (transformer_replacement rank)
             (qparams qt m act wp) s0 s f2 c2 "linear_tpl"
             quantization_Linear [("rank", VInt rank)] Hev Hf2 Hlt eq_refl).
Qed.

Lemma attention_step s0 s tr f2 ra :
  evolved (transformer_replacement rank) s0 s ->
  block_ready false s0 tr f2 (Some ra) ->
  exists s1,
    quantize_attention_layer_weights (VCfg tr) qt m wp act s = (Ok tt, s1) /\
    evolved (transformer_replacement rank) s0 s1 /\
    replaced (transformer_replacement rank) (qparams qt m act wp) s0 s1 ra
      "proj_tpl" /\
    (forall ca,
       cfgs s0 !! ra = Some ca ->
       replaced (transformer_replacement rank) (qparams qt m act wp) s0 s1 ra
         (if issubclass (cls ca) layers_attentions_DotProductAttention
          then "combined_qkv_proj_tpl" else "headless_proj_tpl")) /\
    (forall p n,
       replaced (transformer_replacement rank) (qparams qt m act wp) s0 s p n ->
       replaced (transformer_replacement rank) (qparams qt m act wp) s0 s1 p
         n).
Proof.
  intros Hev Hready0.
  assert (Hlt : ra < length (cfgs s0) /\
                forall ca ca', cfgs s0 !! ra = Some ca ->
                               cfgs s !! ra = Some ca' -> cls ca' = cls ca).
  { destruct Hready0 as (ctr0 & f10 & c10 & c20 & _ & _ & _ & _ & _ & Ha).
    destruct Ha as (ra' & ca0 & Heq & _ & Hra & _).
    assert (ra' = ra) by congruence. subst ra'.
    split; [now apply lookup_lt_Some in Hra|].
    intros ca ca' H0 H1. destruct Hev as (_ & _ & Hold).
    destruct (Hold ra ca H0) as (c & Hc & Hcls & _). congruence. }
  destruct Hlt as [Hlt Hcls].
  destruct (block_ready_evolved _ _ _ _ _ _ Hev Hready0)
    as (ctr & f1 & c1 & c2 & Htr & _ & _ & _ & _ & Ha).
  destruct Ha as (ra' & ca & Heq & Hat & Hra & Hrec).
  assert (ra' = ra) by congruence. subst ra'. clear Heq.
  rewrite (attention_run s tr ctr ra ca qt m wp act Htr Hat Hra).
  assert (Hstep : forall n2 cB,
    transformer_replacement rank n2 = Some (cB, []) ->
    n2 <> "proj_tpl" ->
    let s1 := install
                (install s ra ca "proj_tpl"
                   quantization_attentions_AttentionProjection []
                   (qparams qt m act wp)) ra
                (set_arg "proj_tpl" (VCfg (length (cfgs s))) ca) n2 cB []
                (qparams qt m act wp) in
    evolved (transformer_replacement rank) s0 s1 /\
    replaced (transformer_replacement rank) (qparams qt m act wp) s0 s1 ra
      "proj_tpl" /\
    replaced (transformer_replacement rank) (qparams qt m act wp) s0 s1 ra
      n2 /\
    (forall p n,
       replaced (transformer_replacement rank) (qparams qt m act wp) s0 s p n ->
       replaced (transformer_replacement rank) (qparams qt m act wp) s0 s1 p
         n)).
  { intros n2 cB Htab Hne s1.
    destruct (install_evolves (transformer_replacement rank)
                (qparams qt m act wp) s0 s ra ca "proj_tpl"
                quantization_attentions_AttentionProjection [] Hev Hra Hlt
                eq_refl) as (Hev1 & Hnew1 & Hkeep1).
    destruct (install_evolves (transformer_replacement rank)
                (qparams qt m act wp) s0 _ ra _ n2 cB [] Hev1
                (install_lookup_parent s ra ca "proj_tpl"
                   quantization_attentions_AttentionProjection []
                   (qparams qt m act wp) Hra) Hlt Htab)
      as (Hev2 & Hnew2 & Hkeep2).
    split; [exact Hev2|]. split; [now apply Hkeep2|].
    split; [exact Hnew2|]. intros p n Hpn. now apply Hkeep2, Hkeep1. }
  destruct (issubclass (cls ca) layers_attentions_DotProductAttention) eqn:Hsub.
  - rewrite (dpa_run s ra ca qt m wp act Hra).
    destruct (Hstep "combined_qkv_proj_tpl"
                quantization_attentions_CombinedQKVProjectionLayer eq_refl
                ltac:(discriminate)) as (Hev2 & Hp & Hc & Hkeep).
    eexists. split; [reflexivity|]. split; [exact Hev2|].
    split; [exact Hp|]. split; [|exact Hkeep].
    intros ca0 H0. rewrite <- (Hcls ca0 ca H0 Hra), Hsub. exact Hc.
  - cbn in Hrec. rewrite Hrec.
    rewrite (mq_run s ra ca qt m wp act Hra).
    destruct (Hstep "headless_proj_tpl"
                quantization_multi_query_attention_OneHeadedAttentionProjection
                eq_refl ltac:(discriminate)) as (Hev2 & Hp & Hc & Hkeep).
    eexists. split; [reflexivity|]. split; [exact Hev2|].
    split; [exact Hp|]. split; [|exact Hkeep].
    intros ca0 H0. rewrite <- (Hcls ca0 ca H0 Hra), Hsub. exact Hc.
Qed.

(** What the pass leaves for a block that was ready in [s0]. *)
Lemma block_step linear_only s0 s tr f2 a :
  evolved (transformer_replacement rank) s0 s ->
  block_ready linear_only s0 tr f2 a ->
  exists s1,
    quantize_transformer_layer_weights (VCfg tr) qt m wp act linear_only rank
      s = (Ok tt, s1) /\
    evolved (transformer_replacement rank) s0 s1 /\
    replaced (transformer_replacement rank) (qparams qt m act wp) s0 s1 f2
      "linear_tpl" /\
    (forall ra ca,
       a = Some ra -> cfgs s0 !! ra = Some ca ->
       replaced (transformer_replacement rank) (qparams qt m act wp) s0 s1 ra
         "proj_tpl" /\
       replaced (transformer_replacement rank) (qparams qt m act wp) s0 s1 ra
         (if issubclass (cls ca) layers_attentions_DotProductAttention
          then "combined_qkv_proj_tpl" else "headless_proj_tpl")) /\
    (forall p n,
       replaced (transformer_replacement rank) (qparams qt m act wp) s0 s p n ->
       replaced (transformer_replacement rank) (qparams qt m act wp) s0 s1 p
         n).
Proof.
  intros Hev Hready. unfold quantize_transformer_layer_weights.
  destruct linear_only; cbn [negb when].
  - rewrite (bind_ok _ _ _ _ _ (eq_refl : ret tt s = (Ok tt, s))).
    destruct (feed_forward_step true s0 s tr f2 a Hev Hready)
      as (s1 & Hrun & Hev1 & Hlin & Hkeep).
    exists s1. split; [exact Hrun|]. split; [exact Hev1|].
    split; [exact Hlin|]. split; [|exact Hkeep].
    intros ra ca ->.
    destruct Hready as (ctr0 & f10 & c10 & c20 & _ & _ & _ & _ & _ & Ha).
    discriminate.
  - assert (exists ra, a = Some ra) as [ra ->].
    { destruct Hready as (ctr0 & f10 & c10 & c20 & _ & _ & _ & _ & _ & Ha).
      destruct Ha as (ra & _ & -> & _). now exists ra. }
    destruct (attention_step s0 s tr f2 ra Hev Hready)
      as (s1 & Hrun1 & Hev1 & Hproj & Hsecond & Hkeep1).
    rewrite (bind_ok _ _ _ _ _ Hrun1).
    destruct (feed_forward_step false s0 s1 tr f2 (Some ra) Hev1 Hready)
      as (s2 & Hrun2 & Hev2 & Hlin & Hkeep2).
    exists s2. split; [exact Hrun2|]. split; [exact Hev2|].
    split; [exact Hlin|]. split.
    + intros ra' ca Heq Hca.
      assert (ra' = ra) by congruence. subst ra'.
      split; apply Hkeep2; auto.
    + intros p n Hpn. now apply Hkeep2, Hkeep1.
Qed.

Lemma transformer_loop linear_only l :
  forall s0 s,
    evolved (transformer_replacement rank) s0 s ->
    (forall t, t ∈ l ->
       exists tr f2 a, t = VCfg tr /\ block_ready linear_only s0 tr f2 a) ->
    exists s',
      for_each l
        (fun t =>
           quantize_transformer_layer_weights t qt m wp act linear_only rank)
        s = (Ok tt, s') /\
      evolved (transformer_replacement rank) s0 s' /\
      (forall p n,
         replaced (transformer_replacement rank) (qparams qt m act wp) s0 s p
           n ->
         replaced (transformer_replacement rank) (qparams qt m act wp) s0 s' p
           n) /\
      (forall tr f2 a,
         VCfg tr ∈ l -> block_ready linear_only s0 tr f2 a ->
         replaced (transformer_replacement rank) (qparams qt m act wp) s0 s'
           f2 "linear_tpl" /\
         forall ra ca,
           a = Some ra -> cfgs s0 !! ra = Some ca ->
           replaced (transformer_replacement rank) (qparams qt m act wp) s0 s'
             ra "proj_tpl" /\
           replaced (transformer_replacement rank) (qparams qt m act wp) s0 s'
             ra
             (if issubclass (cls ca) layers_attentions_DotProductAttention
              then "combined_qkv_proj_tpl" else "headless_proj_tpl")).
Proof.
  induction l as [|x l IH]; intros s0 s Hev Hready.
  - exists s. split; [reflexivity|]. split; [exact Hev|]. split; [auto|].
    intros tr f2 a Hin. now apply elem_of_nil in Hin.
  - destruct (Hready x ltac:(now left)) as (tr & f2 & a & -> & Hx).
    destruct (block_step linear_only s0 s tr f2 a Hev Hx)
      as (s1 & Hrun1 & Hev1 & Hlin1 & Hatt1 & Hkeep1).
    destruct (IH s0 s1 Hev1 ltac:(intros t Ht; apply Hready; now right))
      as (s' & Hrun & Hev' & Hkeep & Hdone).
    exists s'. rewrite for_each_cons, Hrun1.
    split; [exact Hrun|]. split; [exact Hev'|]. split; [auto|].
    intros tr' f2' a' Hin Hready'.
    apply elem_of_cons in Hin as [Heq|Hin]; [|now apply (Hdone tr' f2' a')].
    assert (tr' = tr) by congruence. subst tr'.
    destruct (block_ready_fun _ _ _ _ _ _ _ Hx Hready') as [<- <-].
    split; [now apply Hkeep|].
    intros ra ca Ha Hca. destruct (Hatt1 ra ca Ha Hca). split; now apply Hkeep.
Qed.

End TransformerLoop.

Lemma replaced_transformer_installed rank qp s0 s p n c kw :
  transformer_replacement rank n = Some (c, kw) ->
  replaced (transformer_replacement rank) qp s0 s p n ->
  installed s0 s p n c kw qp.
Proof. intros Htab (c' & kw' & Htab' & H). congruence. Qed.

(** X4.  [set_transformer_quantization] with both embedding options off,
    over any number of matched transformer blocks that are ready (the
    feed-forward chain is in place and, unless [linear_only], the attention
    template is of a recognised class): it returns normally, and for every
    matched block the [linear_tpl] of its feed-forward layer is a
    [quantization.Linear] template created by the call, with the [rank] of
    the call; unless [linear_only], the [proj_tpl] of its attention template
    is a created [AttentionProjection] and its [combined_qkv_proj_tpl] (for a
    [DotProductAttention] subclass) or [headless_proj_tpl] (otherwise) is the
    created template of the matching class.  Blocks may share templates. *)
Theorem set_transformer_quantization_all_blocks
    find config qt m num_bits linear_only use_symmetric rank wqo transposed
    dtype block_size packed container s :
  let qp :=
    qparams qt m (act_quantization_params_of wqo num_bits)
      (transformer_weight_params num_bits use_symmetric dtype block_size
         packed container) in
  (forall t,
     t ∈ find (cfgs s) config layers_transformers_Transformer ->
     exists tr f2 a, t = VCfg tr /\ block_ready linear_only s tr f2 a) ->
  exists s',
    set_transformer_quantization find config qt m num_bits linear_only
      use_symmetric rank wqo false transposed false dtype block_size packed
      container s = (Ok tt, s') /\
    forall tr f2 a,
      VCfg tr ∈ find (cfgs s) config layers_transformers_Transformer ->
      block_ready linear_only s tr f2 a ->
      installed s s' f2 "linear_tpl" quantization_Linear
        [("rank", VInt rank)] qp /\
      forall ra ca,
        a = Some ra -> cfgs s !! ra = Some ca ->
        installed s s' ra "proj_tpl"
          quantization_attentions_AttentionProjection [] qp /\
        if issubclass (cls ca) layers_attentions_DotProductAttention then
          installed s s' ra "combined_qkv_proj_tpl"
            quantization_attentions_CombinedQKVProjectionLayer [] qp
        else
          installed s s' ra "headless_proj_tpl"
            quantization_multi_query_attention_OneHeadedAttentionProjection
            [] qp.
Proof.
  intros qp Hready. rewrite set_transformer_quantization_unfold. cbv zeta.
  destruct (transformer_loop qt m
              (transformer_weight_params num_bits use_symmetric dtype
                 block_size packed container)
              (act_quantization_params_of wqo num_bits) rank linear_only
              (find (cfgs s) config layers_transformers_Transformer) s s
              (evolved_refl _ s) Hready) as (s' & Hrun & _ & _ & Hdone).
  exists s'. rewrite Hrun. split; [reflexivity|].
  intros tr f2 a Hin Hr. destruct (Hdone tr f2 a Hin Hr) as [Hlin Hatt].
  split; [now apply (replaced_transformer_installed rank)|].
  intros ra ca Ha Hca. destruct (Hatt ra ca Ha Hca) as [Hp Hs].
  split; [now apply (replaced_transformer_installed rank)|].
  destruct (issubclass (cls ca) layers_attentions_DotProductAttention);
    now apply (replaced_transformer_installed rank).
Qed.

Lemma set_diffusion_quantization_all_matched_witness :
  let s := unet_blocks in
  find_target_tpl 100 (cfgs s) (VCfg 0) ResidualBlock
  = [VCfg 1; VCfg 2; VCfg 3] /\
  exists s',
    set_diffusion_quantization (find_target_tpl 100) (VCfg 0) ResidualBlock
      PTQ INFERENCE 8 true false jnp_int8 s = (Ok tt, s') /\
    installed s s' 1 "conv_tpl" quantization_Conv2D []
      (qparams PTQ INFERENCE
         (Some {| ActQuantizationParams.precision := 8 |})
         (diffusion_weight_params 8 true jnp_int8)) /\
    installed s s' 2 "conv_tpl" quantization_Conv2D []
      (qparams PTQ INFERENCE
         (Some {| ActQuantizationParams.precision := 8 |})
         (diffusion_weight_params 8 true jnp_int8)) /\
    cfgs s' !! 3 = cfgs s !! 3 /\
    cfgs s' !! 4 = cfgs s !! 4.
Proof.
  cbv zeta.
  assert (Hfind : find_target_tpl 100 (cfgs unet_blocks) (VCfg 0) ResidualBlock
                  = [VCfg 1; VCfg 2; VCfg 3]) by (vm_compute; reflexivity).
  split; [exact Hfind|].
  destruct (set_diffusion_quantization_all_matched (find_target_tpl 100)
              (VCfg 0) ResidualBlock PTQ INFERENCE 8 true false jnp_int8
              unet_blocks) as (s' & Hrun & Hdone & Hframe).
  { rewrite Hfind. intros d Hd. apply list_elem_of_In in Hd. cbn in Hd.
    destruct Hd as [Hd|[Hd|[Hd|[]]]]; injection Hd as <-; cbn; lia. }
  rewrite Hfind in Hdone, Hframe.
  exists s'. split; [exact Hrun|].
  split; [|split; [|split]].
  - eapply (Hdone 1); [|reflexivity|reflexivity].
    apply list_elem_of_In. cbn. auto.
  - eapply (Hdone 2); [|reflexivity|reflexivity].
    apply list_elem_of_In. cbn. auto.
  - apply Hframe; [reflexivity|]. right. reflexivity.
  - apply Hframe; [reflexivity|]. left.
    intros Hin. apply list_elem_of_In in Hin. cbn in Hin.
    destruct Hin as [Hd|[Hd|[Hd|[]]]]; discriminate Hd.
Defined.

Lemma set_transformer_quantization_all_blocks_witness :
  let s := two_block_stack 3 in
  let qp :=
    qparams PTQ INFERENCE None
      (transformer_weight_params 8 true jnp_int8 0 true jnp_int32) in
  find_target_tpl 100 (cfgs s) (VCfg 0) layers_transformers_Transformer
  = [VCfg 1; VCfg 2] /\
  block_ready false s 1 5 (Some 3) /\
  block_ready false s 2 7 (Some 3) /\
  exists s',
    set_transformer_quantization (find_target_tpl 100) (VCfg 0) PTQ INFERENCE
      8 false true (-1) true false false false jnp_int8 0 true jnp_int32 s
    = (Ok tt, s') /\
    installed s s' 5 "linear_tpl" quantization_Linear [("rank", VInt (-1))]
      qp /\
    installed s s' 7 "linear_tpl" quantization_Linear [("rank", VInt (-1))]
      qp /\
    installed s s' 3 "combined_qkv_proj_tpl"
      quantization_attentions_CombinedQKVProjectionLayer [] qp.
Proof.
  cbv zeta.
  assert (Hfind : find_target_tpl 100 (cfgs (two_block_stack 3)) (VCfg 0)
                    layers_transformers_Transformer = [VCfg 1; VCfg 2])
    by (vm_compute; reflexivity).
  assert (H1 : block_ready false (two_block_stack 3) 1 5 (Some 3)).
  { eexists _, 4, _, _. repeat (split; [reflexivity|]).
    eexists 3, _. repeat (split; [reflexivity|]). reflexivity. }
  assert (H2 : block_ready false (two_block_stack 3) 2 7 (Some 3)).
  { eexists _, 6, _, _. repeat (split; [reflexivity|]).
    eexists 3, _. repeat (split; [reflexivity|]). reflexivity. }
  split; [exact Hfind|]. split; [exact H1|]. split; [exact H2|].
  destruct (set_transformer_quantization_all_blocks (find_target_tpl 100)
              (VCfg 0) PTQ INFERENCE 8 false true (-1) true false jnp_int8 0
              true jnp_int32 (two_block_stack 3)) as (s' & Hrun & Hdone).
  { rewrite Hfind. intros t Ht. apply list_elem_of_In in Ht. cbn in Ht.
    destruct Ht as [<-|[<-|[]]]; eauto. }
  rewrite Hfind in Hdone.
  exists s'. split; [exact Hrun|].
  destruct (Hdone 1 5 (Some 3)) as [Hl1 Ha1];
    [apply list_elem_of_In; cbn; auto|exact H1|].
  destruct (Hdone 2 7 (Some 3)) as [Hl2 _];
    [apply list_elem_of_In; cbn; auto|exact H2|].
  split; [exact Hl1|]. split; [exact Hl2|].
  destruct (Ha1 3 _ eq_refl eq_refl) as [_ Hc]. exact Hc.
Defined.

(** * [setup] in [pax_fiddle_test.py] *)

Lemma sub_instance_trans h o x y :
  sub_instance h o x -> sub_instance h x y -> sub_instance h o y.
Proof.
  induction 1 as [o|o i k f o' x Hi Hkf Ho' _ IH]; [auto|].
  intros Hy. eapply sub_field; eauto.
Qed.

Lemma sub_instance_step h o i k f o' :
  h !! o = Some i -> (k, f) ∈ fields i -> o' ∈ field_objs f ->
  sub_instance h o o'.
Proof. intros. eapply sub_field; eauto. constructor. Qed.

Lemma within_self h o lo hi : within h o lo hi -> lo <= o < hi.
Proof. intros H. apply H. constructor. Qed.

Lemma within_sub h o x lo hi :
  within h o lo hi -> sub_instance h o x -> within h x lo hi.
Proof. intros H Hx y Hy. apply H. eapply sub_instance_trans; eauto. Qed.

Lemma within_weaken h o lo hi lo' hi' :
  lo' <= lo -> hi <= hi' -> within h o lo hi -> within h o lo' hi'.
Proof. intros Hlo Hhi H x Hx. specialize (H x Hx). lia. Qed.

(** What [o] refers to depends only on the part of the heap it lies in. *)
Lemma sub_instance_agree h h2 o lo hi :
  within h o lo hi ->
  (forall x, lo <= x < hi -> h2 !! x = h !! x) ->
  forall x, sub_instance h2 o x -> sub_instance h o x.
Proof.
  intros Hw Hag x Hx. revert Hw.
  induction Hx as [o|o i k f o' x Hi Hkf Ho' _ IH]; intros Hw; [constructor|].
  rewrite (Hag o (within_self _ _ _ _ Hw)) in Hi.
  pose proof (sub_instance_step h o i k f o' Hi Hkf Ho') as Hstep.
  eapply sub_instance_trans; [exact Hstep|].
  apply IH. eapply within_sub; eauto.
Qed.

Lemma within_agree h h2 o lo hi :
  within h o lo hi ->
  (forall x, lo <= x < hi -> h2 !! x = h !! x) ->
  within h2 o lo hi.
Proof.
  intros Hw Hag x Hx. apply Hw. eapply sub_instance_agree; eauto.
Qed.

Lemma sub_instance_closed h o (S : oref -> Prop) :
  S o ->
  (forall x i k f o',
     S x -> h !! x = Some i -> (k, f) ∈ fields i -> o' ∈ field_objs f ->
     S o') ->
  forall x, sub_instance h o x -> S x.
Proof.
  intros Ho Hstep x Hx.
  induction Hx as [o|o i k f o' x Hi Hkf Ho' _ IH]; [exact Ho|].
  apply IH. eapply Hstep; eauto.
Qed.

Lemma fresh_chain_le h os : forall lo hi, fresh_chain h lo os hi -> lo <= hi.
Proof.
  induction os as [|o os IH]; intros lo hi H; [exact H|].
  destruct H as (mid & Hw & Hrest).
  pose proof (within_self _ _ _ _ Hw). specialize (IH _ _ Hrest). lia.
Qed.

Lemma fresh_chain_agree h h2 os :
  forall lo hi,
    fresh_chain h lo os hi ->
    (forall x, lo <= x < hi -> h2 !! x = h !! x) ->
    fresh_chain h2 lo os hi.
Proof.
  induction os as [|o os IH]; intros lo hi H Hag; [exact H|].
  destruct H as (mid & Hw & Hrest).
  pose proof (within_self _ _ _ _ Hw).
  pose proof (fresh_chain_le _ _ _ _ Hrest).
  exists mid. split.
  - eapply within_agree; [exact Hw|]. intros x Hx. apply Hag. lia.
  - apply IH; [exact Hrest|]. intros x Hx. apply Hag. lia.
Qed.

Lemma fresh_chain_weaken h os :
  forall lo lo' hi, lo' <= lo -> fresh_chain h lo os hi ->
                    fresh_chain h lo' os hi.
Proof.
  destruct os as [|o os]; intros lo lo' hi Hle H; [cbn in *; lia|].
  destruct H as (mid & Hw & Hrest). exists mid. split; [|exact Hrest].
  eapply within_weaken; [exact Hle|reflexivity|exact Hw].
Qed.

(** Where the [j]-th object of a chain lies. *)
Lemma fresh_chain_lookup h os :
  forall lo hi j o,
    fresh_chain h lo os hi -> os !! j = Some o ->
    exists lo' hi',
      lo <= lo' /\ hi' <= hi /\ within h o lo' hi' /\
      forall j' o' x',
        j < j' -> os !! j' = Some o' -> sub_instance h o' x' -> hi' <= x'.
Proof.
  induction os as [|o0 os IH]; intros lo hi j o H Hj; [discriminate|].
  destruct H as (mid & Hw & Hrest).
  pose proof (within_self _ _ _ _ Hw) as Hself.
  pose proof (fresh_chain_le _ _ _ _ Hrest) as Hle.
  destruct j as [|j]; cbn in Hj.
  - injection Hj as <-. exists lo, mid.
    split; [lia|]. split; [lia|]. split; [exact Hw|].
    intros j' o' x' Hlt Hj' Hx'. destruct j' as [|j']; [lia|]. cbn in Hj'.
    destruct (IH mid hi j' o' Hrest Hj') as (lo' & hi' & H1 & H2 & Hw' & _).
    specialize (Hw' x' Hx'). lia.
  - destruct (IH mid hi j o Hrest Hj) as (lo' & hi' & H1 & H2 & Hw' & Hlater).
    exists lo', hi'. split; [lia|]. split; [lia|]. split; [exact Hw'|].
    intros j' o' x' Hlt Hj' Hx'. destruct j' as [|j']; [lia|]. cbn in Hj'.
    apply (Hlater j' o' x'); [lia|exact Hj'|exact Hx'].
Qed.

Lemma fresh_chain_nothing_shared h lo os hi :
  fresh_chain h lo os hi ->
  nothing_shared h os /\
  forall o x, o ∈ os -> sub_instance h o x -> lo <= x < hi.
Proof.
  intros H. split.
  - assert (Hlt : forall j1 j2 o1 o2 x1 x2,
              j1 < j2 -> os !! j1 = Some o1 -> os !! j2 = Some o2 ->
              sub_instance h o1 x1 -> sub_instance h o2 x2 -> x1 < x2).
    { intros j1 j2 o1 o2 x1 x2 Hlt H1 H2 Hx1 Hx2.
      destruct (fresh_chain_lookup h os lo hi j1 o1 H H1)
        as (lo' & hi' & _ & _ & Hw & Hlater).
      specialize (Hw x1 Hx1). specialize (Hlater j2 o2 x2 Hlt H2 Hx2). lia. }
    intros j1 j2 o1 o2 x1 x2 Hne H1 H2 Hx1 Hx2.
    destruct (decide (j1 < j2)) as [Hlt12|Hge].
    + specialize (Hlt j1 j2 o1 o2 x1 x2 Hlt12 H1 H2 Hx1 Hx2). lia.
    + specialize (Hlt j2 j1 o2 o1 x2 x1 ltac:(lia) H2 H1 Hx2 Hx1). lia.
  - intros o x Ho Hx. apply list_elem_of_lookup in Ho as [j Hj].
    destruct (fresh_chain_lookup h os lo hi j o H Hj)
      as (lo' & hi' & H1 & H2 & Hw & _).
    specialize (Hw x Hx). lia.
Qed.

(** What one call of [build] makes. *)
Lemma build_facts g rk d r h o st n :
  buildable g rk -> g !! r = Some n ->
  build d g r h = Some (o, st) ->
  (exists l, heap st = h ++ l) /\
  within (heap st) o (length h) (length (heap st)) /\
  exists i,
    heap st !! o = Some i /\ itype i = target n /\
    fields_of (built st) (arguments n) (fields i).
Proof.
  intros Hg Hn Hrun. unfold build in Hrun.
  destruct (build_node_spec g rk (length h) Hg d r _ o st
              (cache_ok_start g h) Hrun) as [(Hok & [Hheap _] & _) Ho].
  split; [exact Hheap|]. split.
  - intros x Hx.
    destruct (sub_instance_cached g (length h) st o x Hok Hx
                ltac:(eauto)) as [rx Hrx].
    apply (cached_range _ _ _ _ _ Hok Hrx).
  - destruct (proj2 Hok r o Ho) as (_ & n' & i & Hn' & Hi & Hty & Hf).
    assert (n' = n) by congruence. subst n'. eauto.
Qed.

Lemma fields_of_get m l fs name :
  fields_of m l fs ->
  match get_arg name l with
  | None => get_field name fs = None
  | Some a => exists f, get_field name fs = Some f /\ field_of m a f
  end.
Proof.
  induction 1 as [|[k a] [k' f] l fs [Hk Hf] _ IH]; [reflexivity|].
  cbn [fst snd] in Hk, Hf. subst k'. cbn [get_arg get_field].
  destruct (String.eqb k name); [eauto|exact IH].
Qed.

Lemma get_field_set name f fs : get_field name (set_field name f fs) = Some f.
Proof.
  induction fs as [|[k f0] fs IH]; cbn; [now rewrite String.eqb_refl|].
  destruct (String.eqb k name) eqn:Hk; cbn; now rewrite Hk.
Qed.

Lemma elem_of_set_field name f fs k f' :
  (k, f') ∈ set_field name f fs -> f' = f \/ (k, f') ∈ fs.
Proof.
  induction fs as [|[k0 f0] fs IH]; cbn [set_field]; intros H.
  - apply list_elem_of_singleton in H. injection H as _ ->. now left.
  - destruct (String.eqb k0 name).
    + apply elem_of_cons in H as [H|H].
      * injection H as _ ->. now left.
      * right. now right.
    + apply elem_of_cons in H as [H|H].
      * right. rewrite H. now left.
      * destruct (IH H) as [->|Hin]; [now left|right; now right].
Qed.

Lemma get_field_elem name fs f :
  get_field name fs = Some f -> exists k, (k, f) ∈ fs.
Proof.
  induction fs as [|[k f0] fs IH]; cbn; [discriminate|].
  destruct (String.eqb k name).
  - intros [= ->]. exists k. now left.
  - intros H. destruct (IH H) as [k' Hk']. exists k'. now right.
Qed.

Section SetupSpec.

Variable d : nat.
Variable g : list node.
Variable rk : ref -> nat.
Variable setup_rec : oref -> list instance -> result (list instance).
Variable r : ref.
Variable P : list instance -> oref -> Prop.

Hypothesis Hg : buildable g rk.
Hypothesis Hr : is_Some (g !! r).
Hypothesis Hd : rk r < d.

(** [P] speaks of what the object refers to only. *)
Hypothesis P_stable :
  forall h1 h2 o lo hi,
    within h1 o lo hi ->
    (forall x, lo <= x < hi -> h2 !! x = h1 !! x) ->
    P h1 o -> P h2 o.

(** [setup] of a built element returns, keeps what existed before the
    element was built, and leaves the element with what it refers to in the
    new part of the heap. *)
Hypothesis elem :
  forall h o st,
    build d g r h = Some (o, st) ->
    exists h1,
      setup_rec o (heap st) = Done h1 /\
      length (heap st) <= length h1 /\
      (forall x, x < length h -> h1 !! x = h !! x) /\
      within h1 o (length h) (length h1) /\
      P h1 o.

Lemma build_and_setup_spec n :
  forall h,
    exists os h',
      build_and_setup d g setup_rec r n h = Done (os, h') /\
      length os = n /\
      length h <= length h' /\
      (forall x, x < length h -> h' !! x = h !! x) /\
      fresh_chain h' (length h) os (length h') /\
      Forall (P h') os.
Proof.
  induction n as [|n IH]; intros h.
  - exists [], h. cbn. repeat split; auto.
  - destruct Hr as [nd Hnd].
    destruct (build_node_total g rk Hg d r {| heap := h; built := [] |} Hd Hr)
      as [[o st] Hrun].
    change (build d g r h = Some (o, st)) in Hrun.
    destruct (build_facts g rk d r h o st nd Hg Hnd Hrun)
      as ([l Hheap] & _ & _).
    destruct (elem h o st Hrun) as (h1 & Hset & Hlen1 & Hfr1 & Hw1 & HP1).
    destruct (IH h1) as (os & h2 & Hrest & Hn & Hlen2 & Hfr2 & Hch & HPs).
    assert (Hlen0 : length h <= length (heap st))
      by (rewrite Hheap, length_app; lia).
    exists (o :: os), h2. cbn [build_and_setup].
    rewrite Hrun, Hset, Hrest. split; [reflexivity|].
    split; [cbn; lia|]. split; [lia|]. split.
    { intros x Hx. rewrite Hfr2 by lia. now apply Hfr1. }
    assert (Hag : forall x, length h <= x < length h1 -> h2 !! x = h1 !! x)
      by (intros x Hx; apply Hfr2; lia).
    split.
    + exists (length h1). split; [|exact Hch].
      eapply within_agree; eauto.
    + constructor; [|exact HPs]. eapply P_stable; eauto.
Qed.

Lemma setup_list_spec tpl_field count_field default_count list_field
    self h i n :
  h !! self = Some i ->
  get_field list_field (fields i) = None \/
  get_field list_field (fields i) = Some (FPrim PNone) ->
  get_field tpl_field (fields i) = Some (FTemplate r) ->
  count_of count_field default_count (fields i) = Some n ->
  exists os h',
    setup_list d g setup_rec tpl_field count_field default_count list_field
      self h = Done h' /\
    length h <= length h' /\
    h' !! self = Some (assign list_field (FObjs os) i) /\
    (forall x, x < length h -> x <> self -> h' !! x = h !! x) /\
    length os = Z.to_nat n /\
    fresh_chain h' (length h) os (length h') /\
    Forall (P h') os.
Proof.
  intros Hself Hnone Htpl Hcount.
  destruct (build_and_setup_spec (Z.to_nat n) h)
    as (os & h1 & Hrun & Hn & Hlen & Hfr & Hch & HPs).
  pose proof (lookup_lt_Some _ _ _ Hself) as Hlt.
  exists os, (alter (assign list_field (FObjs os)) self h1).
  assert (Hag : forall x, length h <= x < length h1 ->
                alter (assign list_field (FObjs os)) self h1 !! x = h1 !! x)
    by (intros x Hx; apply list_lookup_alter_ne; lia).
  split; [|split; [|split; [|split; [|split; [|split]]]]].
  - unfold setup_list. rewrite Hself, Htpl, Hcount, Hrun.
    now destruct Hnone as [-> | ->].
  - now rewrite length_alter.
  - rewrite list_lookup_alter_eq, (Hfr self Hlt), Hself. reflexivity.
  - intros x Hx Hne. rewrite list_lookup_alter_ne by congruence.
    now apply Hfr.
  - exact Hn.
  - rewrite length_alter. eapply fresh_chain_agree; eauto.
  - apply Forall_forall. intros o Ho.
    pose proof (proj1 (Forall_forall _ _) HPs o Ho) as HP.
    apply list_elem_of_lookup in Ho as [j Hj].
    destruct (fresh_chain_lookup h1 os _ _ j o Hch Hj)
      as (lo' & hi' & H1 & H2 & Hw & _).
    eapply P_stable; [exact Hw| |exact HP].
    intros x Hx. apply Hag. lia.
Qed.

End SetupSpec.

(** After [self.<list> = os], what [self] refers to is what it referred to
    before and what the objects of [os] refer to. *)
Lemma within_after_assign hs h1 v i lo name os hi :
  within hs v lo (length hs) ->
  hs !! v = Some i ->
  (forall x, x < length hs -> x <> v -> h1 !! x = hs !! x) ->
  h1 !! v = Some (assign name (FObjs os) i) ->
  fresh_chain h1 (length hs) os hi ->
  within h1 v lo hi.
Proof.
  intros Hw Hv Hfr Hv1 Hch.
  pose proof (fresh_chain_le _ _ _ _ Hch) as Hle.
  destruct (fresh_chain_nothing_shared _ _ _ _ Hch) as [_ Hrange].
  intros x Hx.
  assert (HS : sub_instance hs v x \/
               exists w, w ∈ os /\ sub_instance h1 w x).
  { revert x Hx. apply sub_instance_closed; [left; constructor|].
    intros x ix k f o' [Hl|(w & Hw0 & Hwx)] Hix Hkf Ho'.
    - destruct (decide (x = v)) as [->|Hne].
      + rewrite Hv1 in Hix. injection Hix as <-. cbn [fields assign] in Hkf.
        apply elem_of_set_field in Hkf as [->|Hkf].
        * right. exists o'. split; [exact Ho'|constructor].
        * left. eapply sub_instance_step; eauto.
      + left. pose proof (Hw x Hl) as Hxr.
        rewrite Hfr in Hix by lia.
        eapply sub_instance_trans; [exact Hl|].
        eapply sub_instance_step; eauto.
    - right. exists w. split; [exact Hw0|].
      eapply sub_instance_trans; [exact Hwx|].
      eapply sub_instance_step; eauto. }
  destruct HS as [Hl|(w & Hw0 & Hwx)].
  - specialize (Hw x Hl). lia.
  - specialize (Hrange w x Hw0 Hwx).
    pose proof (within_self _ _ _ _ Hw). lia.
Qed.

(** The classes whose [setup] returns [self] and does nothing else. *)
Lemma setup_leaf fuel d g o h i :
  h !! o = Some i ->
  existsb (String.eqb (itype i)) ["Wheel"; "ColoredWheel"; "Person"] = true ->
  setup (S fuel) d g o h = Done h.
Proof.
  intros Ho Hleaf. cbn [setup]. rewrite Ho, Hleaf.
  cbn [existsb] in Hleaf. rewrite !orb_true_iff in Hleaf.
  destruct Hleaf as [H|[H|[H|H]]]; [| | |discriminate];
    apply String.eqb_eq in H; rewrite H; reflexivity.
Qed.

Lemma leaf_elem d g rk fuel r n :
  buildable g rk -> g !! r = Some n ->
  existsb (String.eqb (target n)) ["Wheel"; "ColoredWheel"; "Person"] = true ->
  forall h o st,
    build d g r h = Some (o, st) ->
    exists h1,
      setup (S fuel) d g o (heap st) = Done h1 /\
      length (heap st) <= length h1 /\
      (forall x, x < length h -> h1 !! x = h !! x) /\
      within h1 o (length h) (length h1) /\
      (exists i, h1 !! o = Some i /\ itype i = target n).
Proof.
  intros Hg Hn Hleaf h o st Hrun.
  destruct (build_facts g rk d r h o st n Hg Hn Hrun)
    as ([l Hheap] & Hw & i & Hi & Hty & _).
  exists (heap st). split; [|split; [lia|split; [|split; [exact Hw|eauto]]]].
  - apply (setup_leaf fuel d g o (heap st) i Hi). now rewrite Hty.
  - intros x Hx. rewrite Hheap. now apply lookup_app_l.
Qed.

Lemma leaf_stable (c : string) (h1 h2 : list instance) o lo hi :
  within h1 o lo hi ->
  (forall x, lo <= x < hi -> h2 !! x = h1 !! x) ->
  (exists i, h1 !! o = Some i /\ itype i = c) ->
  exists i, h2 !! o = Some i /\ itype i = c.
Proof.
  intros Hw Hag (i & Hi & Hty). exists i. split; [|exact Hty].
  rewrite Hag; [exact Hi|]. now apply within_self in Hw.
Qed.

(** [setup] on an object that was set up fails its assertion. *)
Lemma setup_list_again d g setup_rec tpl_field count_field default_count name
    self h i os :
  h !! self = Some (assign name (FObjs os) i) ->
  setup_list d g setup_rec tpl_field count_field default_count name self h
  = AssertionFailed.
Proof.
  intros Hself. unfold setup_list. rewrite Hself. cbn [fields assign].
  now rewrite get_field_set.
Qed.

(** X18.  [Vehicle.setup] on a vehicle whose [wheels] is still [None] and
    whose wheel template is of a class with a plain [setup] ([Wheel],
    [ColoredWheel]): it returns, [wheels] becomes a list of [num_wheels]
    objects (none for a count of zero or less; 4 when [num_wheels] was not
    given) of the class of the template, each built by a [build] of its
    own: nothing a wheel refers to existed before, and no two wheels share
    anything.  No other existing object is changed.  A second [setup] on the
    same vehicle fails its assertion. *)
Theorem vehicle_setup_builds_wheels
    g rk d fuel h self i rw nw n :
  buildable g rk ->
  h !! self = Some i ->
  itype i = "Vehicle" ->
  get_field "wheels" (fields i) = None \/
  get_field "wheels" (fields i) = Some (FPrim PNone) ->
  get_field "wheel_tpl" (fields i) = Some (FTemplate rw) ->
  count_of "num_wheels" 4 (fields i) = Some n ->
  g !! rw = Some nw ->
  existsb (String.eqb (target nw)) ["Wheel"; "ColoredWheel"; "Person"]
  = true ->
  rk rw < d ->
  exists ws h',
    setup (S (S fuel)) d g self h = Done h' /\
    h' !! self = Some (assign "wheels" (FObjs ws) i) /\
    length ws = Z.to_nat n /\
    (forall x, x < length h -> x <> self -> h' !! x = h !! x) /\
    Forall (fun w => exists iw, h' !! w = Some iw /\ itype iw = target nw)
      ws /\
    (forall w x, w ∈ ws -> sub_instance h' w x -> length h <= x) /\
    nothing_shared h' ws /\
    (forall fuel', setup (S fuel') d g self h' = AssertionFailed).
Proof.
  intros Hg Hself Hty Hnone Htpl Hcount Hnw Hleaf Hd.
  destruct (setup_list_spec d g rk (setup (S fuel) d g) rw
              (fun h o => exists iw, h !! o = Some iw /\ itype iw = target nw)
              Hg ltac:(eauto) Hd (leaf_stable (target nw))
              (leaf_elem d g rk fuel rw nw Hg Hnw Hleaf)
              "wheel_tpl" "num_wheels" 4%Z "wheels" self h i n
              Hself Hnone Htpl Hcount)
    as (ws & h' & Hrun & Hlen & Hself' & Hfr & Hn & Hch & HP).
  destruct (fresh_chain_nothing_shared _ _ _ _ Hch) as [Hshare Hrange].
  exists ws, h'. split; [|split; [exact Hself'|split; [exact Hn|
    split; [exact Hfr|split; [exact HP|split; [|split; [exact Hshare|]]]]]]].
  - cbn [setup]. rewrite Hself, Hty. exact Hrun.
  - intros w x Hw Hx. specialize (Hrange w x Hw Hx). lia.
  - intros fuel'. cbn [setup]. rewrite Hself'. cbn [itype assign].
    rewrite Hty. cbn [String.eqb Ascii.eqb Bool.eqb andb].
    now apply (setup_list_again _ _ _ _ _ _ _ _ _ i ws).
Qed.

Lemma vehicle_set_up_stable wheel_class nw h1 h2 v lo hi :
  within h1 v lo hi ->
  (forall x, lo <= x < hi -> h2 !! x = h1 !! x) ->
  vehicle_set_up wheel_class nw h1 v ->
  vehicle_set_up wheel_class nw h2 v.
Proof.
  intros Hw Hag (iv & ws & Hv & Hty & Hws & Hlen & Hcls & Hshare).
  destruct (get_field_elem _ _ _ Hws) as [k Hk].
  assert (Hwheel : forall w, w ∈ ws -> within h1 w lo hi).
  { intros w Hin. eapply within_sub; [exact Hw|].
    eapply sub_instance_step; eauto. }
  exists iv, ws. split; [|split; [exact Hty|split; [exact Hws|
    split; [exact Hlen|split]]]].
  - rewrite Hag; [exact Hv|]. now apply within_self in Hw.
  - apply Forall_forall. intros w Hin.
    destruct (proj1 (Forall_forall _ _) Hcls w Hin) as (iw & Hiw & Hc).
    exists iw. split; [|exact Hc].
    rewrite Hag; [exact Hiw|]. exact (within_self _ _ _ _ (Hwheel w Hin)).
  - intros j1 j2 o1 o2 x1 x2 Hne H1 H2 Hx1 Hx2.
    apply (Hshare j1 j2 o1 o2 x1 x2 Hne H1 H2).
    + eapply sub_instance_agree; [apply Hwheel| |]; eauto.
      eapply list_elem_of_lookup_2; eauto.
    + eapply sub_instance_agree; [apply Hwheel| |]; eauto.
      eapply list_elem_of_lookup_2; eauto.
Qed.

(** [setup] of a vehicle that [build] has just made from a vehicle node
    whose wheels are of a class without nested [setup]. *)
Lemma vehicle_elem d g rk fuel rv nv rw nwh (nw : Z) :
  buildable g rk -> g !! rv = Some nv ->
  target nv = "Vehicle" ->
  get_arg "wheel_tpl" (arguments nv) = Some (ATemplate rw) ->
  get_arg "wheels" (arguments nv) = None \/
  get_arg "wheels" (arguments nv) = Some (APrim PNone) ->
  (get_arg "num_wheels" (arguments nv) = None /\ nw = 4%Z) \/
  get_arg "num_wheels" (arguments nv) = Some (APrim (PInt nw)) ->
  g !! rw = Some nwh ->
  existsb (String.eqb (target nwh)) ["Wheel"; "ColoredWheel"; "Person"]
  = true ->
  rk rw < d ->
  forall h v st,
    build d g rv h = Some (v, st) ->
    exists h1,
      setup (S (S fuel)) d g v (heap st) = Done h1 /\
      length (heap st) <= length h1 /\
      (forall x, x < length h -> h1 !! x = h !! x) /\
      within h1 v (length h) (length h1) /\
      vehicle_set_up (target nwh) (Z.to_nat nw) h1 v.
Proof.
  intros Hg Hnv Hty Htpl Hnone Hcount Hnw Hleaf Hd h v st Hrun.
  destruct (build_facts g rk d rv h v st nv Hg Hnv Hrun)
    as ([l Hheap] & Hw & iv & Hiv & Htyv & Hfields).
  rewrite Hty in Htyv.
  assert (Htpl' : get_field "wheel_tpl" (fields iv) = Some (FTemplate rw)).
  { pose proof (fields_of_get _ _ _ "wheel_tpl" Hfields) as H.
    rewrite Htpl in H. destruct H as (f & Hf & Hof).
    destruct f; cbn in Hof; try contradiction. now subst. }
  assert (Hnone' : get_field "wheels" (fields iv) = None \/
                   get_field "wheels" (fields iv) = Some (FPrim PNone)).
  { pose proof (fields_of_get _ _ _ "wheels" Hfields) as H.
    destruct Hnone as [Hn|Hn]; rewrite Hn in H; [now left|right].
    destruct H as (f & Hf & Hof).
    destruct f; cbn in Hof; try contradiction. now subst. }
  assert (Hcount' : count_of "num_wheels" 4 (fields iv) = Some nw).
  { pose proof (fields_of_get _ _ _ "num_wheels" Hfields) as H.
    unfold count_of.
    destruct Hcount as [[Hn ->]|Hn]; rewrite Hn in H; [now rewrite H|].
    destruct H as (f & Hf & Hof). rewrite Hf.
    destruct f; cbn in Hof; try contradiction. now subst. }
  destruct (setup_list_spec d g rk (setup (S fuel) d g) rw
              (fun h o => exists iw, h !! o = Some iw /\ itype iw = target nwh)
              Hg ltac:(eauto) Hd (leaf_stable (target nwh))
              (leaf_elem d g rk fuel rw nwh Hg Hnw Hleaf)
              "wheel_tpl" "num_wheels" 4%Z "wheels" v (heap st) iv nw
              Hiv Hnone' Htpl' Hcount')
    as (ws & h1 & Hset & Hlen & Hv1 & Hfr & Hn & Hch & HP).
  pose proof (within_self _ _ _ _ Hw) as Hvr.
  exists h1. split; [|split; [exact Hlen|split; [|split]]].
  - cbn [setup]. rewrite Hiv, Htyv. exact Hset.
  - intros x Hx. rewrite Hfr by lia. rewrite Hheap. now apply lookup_app_l.
  - eapply within_after_assign; eauto.
  - exists (assign "wheels" (FObjs ws) iv), ws.
    split; [exact Hv1|]. split; [exact Htyv|].
    split; [apply get_field_set|]. split; [exact Hn|]. split; [exact HP|].
    exact (proj1 (fresh_chain_nothing_shared _ _ _ _ Hch)).
Qed.

(** X19.  [Fleet.setup], as [test_build_and_setup_custom_fleet_config] and
    [test_shared_vehicle_owners] check it: it returns, [vehicles] becomes a
    list of [num_vehicles] vehicles, each set up with its own [num_wheels]
    wheels.  Nothing is shared: no object (vehicle, owner, wheel) is
    referred to by two vehicles, even when the owner of the vehicle template
    is one configuration node shared with the manager; no two wheels of a
    vehicle share anything; and nothing a vehicle refers to existed before,
    so no owner is the manager of the fleet.  No other existing object is
    changed, and a second [setup] fails its assertion. *)
Theorem fleet_setup_shares_nothing
    g rk d fuel h self i rv nv rw nwh nw n :
  buildable g rk ->
  h !! self = Some i ->
  itype i = "Fleet" ->
  get_field "vehicles" (fields i) = None \/
  get_field "vehicles" (fields i) = Some (FPrim PNone) ->
  get_field "vehicle_tpl" (fields i) = Some (FTemplate rv) ->
  count_of "num_vehicles" 1 (fields i) = Some n ->
  g !! rv = Some nv ->
  target nv = "Vehicle" ->
  get_arg "wheel_tpl" (arguments nv) = Some (ATemplate rw) ->
  get_arg "wheels" (arguments nv) = None \/
  get_arg "wheels" (arguments nv) = Some (APrim PNone) ->
  (get_arg "num_wheels" (arguments nv) = None /\ nw = 4%Z) \/
  get_arg "num_wheels" (arguments nv) = Some (APrim (PInt nw)) ->
  g !! rw = Some nwh ->
  existsb (String.eqb (target nwh)) ["Wheel"; "ColoredWheel"; "Person"]
  = true ->
  rk rv < d -> rk rw < d ->
  exists vs h',
    setup (S (S (S fuel))) d g self h = Done h' /\
    h' !! self = Some (assign "vehicles" (FObjs vs) i) /\
    length vs = Z.to_nat n /\
    (forall x, x < length h -> x <> self -> h' !! x = h !! x) /\
    Forall (vehicle_set_up (target nwh) (Z.to_nat nw) h') vs /\
    (forall v x, v ∈ vs -> sub_instance h' v x -> length h <= x) /\
    nothing_shared h' vs /\
    (forall fuel', setup (S fuel') d g self h' = AssertionFailed).
Proof.
  intros Hg Hself Hty Hnone Htpl Hcount Hnv Htynv Hwtpl Hwnone Hwcount Hnw
    Hleaf Hdv Hdw.
  destruct (setup_list_spec d g rk (setup (S (S fuel)) d g) rv
              (vehicle_set_up (target nwh) (Z.to_nat nw))
              Hg ltac:(eauto) Hdv
              (vehicle_set_up_stable (target nwh) (Z.to_nat nw))
              (vehicle_elem d g rk fuel rv nv rw nwh nw Hg Hnv Htynv Hwtpl
                 Hwnone Hwcount Hnw Hleaf Hdw)
              "vehicle_tpl" "num_vehicles" 1%Z "vehicles" self h i n
              Hself Hnone Htpl Hcount)
    as (vs & h' & Hrun & Hlen & Hself' & Hfr & Hn & Hch & HP).
  destruct (fresh_chain_nothing_shared _ _ _ _ Hch) as [Hshare Hrange].
  exists vs, h'. split; [|split; [exact Hself'|split; [exact Hn|
    split; [exact Hfr|split; [exact HP|split; [|split; [exact Hshare|]]]]]]].
  - cbn [setup]. rewrite Hself, Hty. exact Hrun.
  - intros v x Hv Hx. specialize (Hrange v x Hv Hx). lia.
  - intros fuel'. cbn [setup]. rewrite Hself'. cbn [itype assign].
    rewrite Hty. cbn [String.eqb Ascii.eqb Bool.eqb andb].
    now apply (setup_list_again _ _ _ _ _ _ _ _ _ i vs).
Qed.

Lemma vehicle_setup_builds_wheels_witness :
  let h :=
    [ {| itype := "Person"; fields := [("name", FPrim (PStr "Ben"))] |};
      {| itype := "Vehicle";
         fields := [("wheel_tpl", FTemplate 3); ("owner", FObj 0)] |} ] in
  build 2 custom_fleet_graph 1 []
  = Some (1, {| heap := h; built := [(1, 1); (2, 0)] |}) /\
  exists ws h',
    setup 2 2 custom_fleet_graph 1 h = Done h' /\
    (get_field "wheels" <$> (fields <$> h' !! 1)) = Some (Some (FObjs ws)) /\
    length ws = 4 /\
    nothing_shared h' ws /\
    setup 2 2 custom_fleet_graph 1 h' = AssertionFailed.
Proof.
  cbv zeta. split; [vm_compute; reflexivity|].
  destruct (vehicle_setup_builds_wheels custom_fleet_graph fleet_rank 2 0
              [ {| itype := "Person";
                   fields := [("name", FPrim (PStr "Ben"))] |};
                {| itype := "Vehicle";
                   fields := [("wheel_tpl", FTemplate 3);
                              ("owner", FObj 0)] |} ]
              1
              {| itype := "Vehicle";
                 fields := [("wheel_tpl", FTemplate 3); ("owner", FObj 0)] |}
              3
              {| target := "Wheel";
                 arguments := [("radius", APrim (PInt 10))] |}
              4%Z)
    as (ws & h' & Hrun & Hself & Hlen & _ & _ & _ & Hshare & Hagain);
    [apply check_buildable_sound; vm_compute; reflexivity
    |reflexivity|reflexivity|left; reflexivity|reflexivity|reflexivity
    |reflexivity|reflexivity|vm_compute; lia|].
  exists ws, h'. split; [exact Hrun|]. split.
  - rewrite Hself. cbn [fmap option_fmap option_map fields assign].
    now rewrite get_field_set.
  - split; [exact Hlen|]. split; [exact Hshare|apply Hagain].
Defined.

Lemma fleet_setup_shares_nothing_witness :
  let h :=
    [ {| itype := "Person"; fields := [("name", FPrim (PStr "Ben"))] |};
      {| itype := "Fleet";
         fields := [("vehicle_tpl", FTemplate 1);
                    ("num_vehicles", FPrim (PInt 3));
                    ("manager", FObj 0)] |} ] in
  (fst <$> build 3 custom_fleet_graph 0 []) = Some 1 /\
  (heap <$> (snd <$> build 3 custom_fleet_graph 0 [])) = Some h /\
  exists vs h',
    setup 3 3 custom_fleet_graph 1 h = Done h' /\
    length vs = 3 /\
    Forall (vehicle_set_up "Wheel" 4 h') vs /\
    (forall v x, v ∈ vs -> sub_instance h' v x -> 2 <= x) /\
    nothing_shared h' vs.
Proof.
  cbv zeta. split; [vm_compute; reflexivity|].
  split; [vm_compute; reflexivity|].
  destruct (fleet_setup_shares_nothing custom_fleet_graph fleet_rank 3 0
              [ {| itype := "Person";
                   fields := [("name", FPrim (PStr "Ben"))] |};
                {| itype := "Fleet";
                   fields := [("vehicle_tpl", FTemplate 1);
                              ("num_vehicles", FPrim (PInt 3));
                              ("manager", FObj 0)] |} ]
              1
              {| itype := "Fleet";
                 fields := [("vehicle_tpl", FTemplate 1);
                            ("num_vehicles", FPrim (PInt 3));
                            ("manager", FObj 0)] |}
              1
              {| target := "Vehicle";
                 arguments := [("wheel_tpl", ATemplate 3);
                               ("owner", ANode 2)] |}
              3
              {| target := "Wheel";
                 arguments := [("radius", APrim (PInt 10))] |}
              4%Z 3%Z)
    as (vs & h' & Hrun & _ & Hlen & _ & Hvs & Hfresh & Hshare & _);
    [apply check_buildable_sound; vm_compute; reflexivity
    |reflexivity|reflexivity|left; reflexivity|reflexivity|reflexivity
    |reflexivity|reflexivity|reflexivity|left; reflexivity
    |left; split; reflexivity|reflexivity|reflexivity
    |vm_compute; lia|vm_compute; lia|].
  exists vs, h'. split; [exact Hrun|]. split; [exact Hlen|].
  split; [exact Hvs|]. split; [exact Hfresh|exact Hshare].
Defined.
